(** * Verification of the identity-card text parser (id_card_ocr.py, app.py)

    Shallow embedding of the parsing core of [IDCardOCR]: Python [str]
    values are lists of Unicode code points, the [re] patterns of the source
    are regular-expression terms run by a backtracking matcher with Python's
    leftmost, first-alternative, greedy semantics, and the Unicode character
    database consulted by [unicodedata], [str.lower], [str.isspace] and the
    regex classes is a type class, so that the results hold for any database
    with the stated properties. *)

From Stdlib Require Import NArith Ascii String QArith Sorted.
From stdpp Require Import base list gmap strings.

Open Scope N_scope.

(** ** Python strings *)

(** A Python [str]: a sequence of code points. *)
Abbreviation ustr := (list N).

(** UTF-8 decoding, used to write Python string literals (the source is
    UTF-8 and NFC) as Rocq string literals. *)
Fixpoint utf8_decode (bs : list N) : ustr :=
  match bs with
  | [] => []
  | b :: r =>
      if b <? 128 then b :: utf8_decode r
      else if b <? 224 then
        match r with
        | b1 :: r1 => ((b - 192) * 64 + (b1 - 128)) :: utf8_decode r1
        | [] => []
        end
      else if b <? 240 then
        match r with
        | b1 :: b2 :: r2 =>
            ((b - 224) * 4096 + (b1 - 128) * 64 + (b2 - 128)) :: utf8_decode r2
        | _ => []
        end
      else
        match r with
        | b1 :: b2 :: b3 :: r3 =>
            ((b - 240) * 262144 + (b1 - 128) * 4096 + (b2 - 128) * 64
             + (b3 - 128)) :: utf8_decode r3
        | _ => []
        end
  end.

Fixpoint bytes_of_string (s : string) : list N :=
  match s with
  | EmptyString => []
  | String a r => N_of_ascii a :: bytes_of_string r
  end.

Definition u (s : string) : ustr := utf8_decode (bytes_of_string s).
Arguments u s%_string.

(** ** The Unicode character database *)

(** What CPython reads from its Unicode tables.  [u_decomp c] is the full
    compatibility decomposition of [c] ([[c]] when it has none), [u_ccc] the
    canonical combining class ([unicodedata.combining]), [u_lower] the full
    lowercase mapping used by [str.lower] (the Final_Sigma context apart),
    [u_decimal] the decimal value of an [Nd] character (regex [\d], [int]),
    [u_alnum] [str.isalnum], [u_space] [str.isspace] (regex [\s]) and
    [u_ci_key] the key two characters share when they match under
    [re.IGNORECASE]. *)
Class UnicodeDB := {
  u_decomp : N -> list N;
  u_ccc : N -> N;
  u_lower : N -> list N;
  u_cased : N -> bool;
  u_case_ignorable : N -> bool;
  u_space : N -> bool;
  u_decimal : N -> option N;
  u_alnum : N -> bool;
  u_ci_key : N -> N
}.

Section PyStr.
Context `{db : UnicodeDB}.

Definition is_decimal (c : N) : bool :=
  match u_decimal c with Some _ => true | None => false end.

(** Regex [\w] on [str] patterns: [isalnum()] or underscore. *)
Definition is_word (c : N) : bool := u_alnum c || (c =? 95).

Fixpoint lstrip_by (p : N -> bool) (s : ustr) : ustr :=
  match s with
  | c :: r => if p c then lstrip_by p r else s
  | [] => []
  end.

Definition strip_by (p : N -> bool) (s : ustr) : ustr :=
  reverse (lstrip_by p (reverse (lstrip_by p s))).

(** [s.strip()] *)
Definition py_strip (s : ustr) : ustr := strip_by u_space s.

(** [s.strip(chars)] *)
Definition py_strip_chars (chars : ustr) (s : ustr) : ustr :=
  strip_by (fun c => bool_decide (c ∈ chars)) s.

(** [unicodedata.normalize("NFKD", s)]: full decomposition of every code
    point, then the canonical ordering of each run of non-starters (a
    stable sort by combining class). *)
Fixpoint insert_by_ccc (c : N) (run : ustr) : ustr :=
  match run with
  | [] => [c]
  | d :: r => if u_ccc c <? u_ccc d then c :: d :: r else d :: insert_by_ccc c r
  end.

Fixpoint canonical_order_aux (run : ustr) (s : ustr) : ustr :=
  match s with
  | [] => run
  | c :: r =>
      if u_ccc c =? 0 then run ++ c :: canonical_order_aux [] r
      else canonical_order_aux (insert_by_ccc c run) r
  end.

Definition nfkd (s : ustr) : ustr :=
  canonical_order_aux [] (mjoin (map u_decomp s)).

(** [unicodedata.combining(ch)] is non-zero *)
Definition is_combining (c : N) : bool := negb (u_ccc c =? 0).

(** [str.lower()]: the full lowercase mapping of each code point, except
    GREEK CAPITAL LETTER SIGMA (U+03A3), which CPython lowercases to final
    sigma (U+03C2) when a cased letter precedes it and none follows it
    (case-ignorable characters skipped on both sides), and to U+03C3
    otherwise.  [before] holds the preceding characters, nearest first. *)
Fixpoint first_not_ignorable (s : ustr) : option N :=
  match s with
  | [] => None
  | c :: r => if u_case_ignorable c then first_not_ignorable r else Some c
  end.

Definition final_sigma (before after : ustr) : bool :=
  match first_not_ignorable before with
  | Some c =>
      u_cased c &&
      match first_not_ignorable after with
      | Some d => negb (u_cased d)
      | None => true
      end
  | None => false
  end.

Fixpoint lower_aux (before : ustr) (s : ustr) : ustr :=
  match s with
  | [] => []
  | c :: r =>
      (if c =? 931 then (if final_sigma before r then [962] else [963])
       else u_lower c) ++ lower_aux (c :: before) r
  end.

Definition py_lower (s : ustr) : ustr := lower_aux [] s.

End PyStr.

(** ** Regular expressions

    The subset of Python's [re] syntax the source uses, as terms.  Groups
    carry the number Python gives them (order of the opening parenthesis). *)
Inductive cls_item :=
| CChar (c : N)          (* a literal character in [...] *)
| CRange (lo hi : N)     (* a-z *)
| CDigit                 (* \d *)
| CNotDigit              (* \D *)
| CSpace                 (* \s *)
| CWord                  (* \w *)
| CNotWord.              (* \W *)

Inductive regex :=
| REmpty
| RChar (c : N)
| RClass (neg : bool) (items : list cls_item)
| RDot
| RCat (r1 r2 : regex)
| RAlt (r1 r2 : regex)
| RRep (lo : nat) (hi : option nat) (r : regex)   (* greedy r{lo,hi} *)
| RGroup (n : nat) (r : regex)
| RBol                                            (* ^ *)
| REol                                            (* $ *)
| RWordB.                                         (* \b *)

(** Spans of the groups matched so far, latest first. *)
Abbreviation caps := (list (nat * (nat * nat))).

Section Matcher.
Context `{db : UnicodeDB}.
(** [icase] is [re.IGNORECASE]; [s] is the whole subject string. *)
Variable icase : bool.
Variable s : ustr.

Definition char_eq (c d : N) : bool :=
  if icase then u_ci_key c =? u_ci_key d else c =? d.

Definition item_matches (it : cls_item) (d : N) : bool :=
  match it with
  | CChar c => char_eq c d
  | CRange lo hi => (lo <=? d) && (d <=? hi)
  | CDigit => is_decimal d
  | CNotDigit => negb (is_decimal d)
  | CSpace => u_space d
  | CWord => is_word d
  | CNotWord => negb (is_word d)
  end.

Definition class_matches (neg : bool) (items : list cls_item) (d : N) : bool :=
  xorb neg (existsb (fun it => item_matches it d) items).

Definition word_at (i : nat) : bool :=
  match s !! i with Some c => is_word c | None => false end.

(** SRE_AT_UNI_BOUNDARY *)
Definition at_boundary (i : nat) : bool :=
  xorb (match i with O => false | S i' => word_at i' end) (word_at i).

(** SRE_AT_END: the end, or just before a final newline. *)
Definition at_eol (i : nat) : bool :=
  (i =? length s)%nat || (((S i) =? length s)%nat && bool_decide (s !! i = Some 10)).

Definition hi_allows (hi : option nat) (cnt : nat) : bool :=
  match hi with Some h => (cnt <? h)%nat | None => true end.

(** [mt r i cs k]: match [r] at position [i], then run the continuation
    [k] on the end position; backtrack into [r] when [k] fails.  A greedy
    repetition tries one more iteration before the rest of the pattern and
    stops iterating on an empty iteration (as sre's MAX_UNTIL does); its
    fuel bounds the number of iterations, each of which consumes a
    character once [lo] is reached. *)
Fixpoint mt (r : regex) (i : nat) (cs : caps)
    (k : nat -> caps -> option (nat * caps)) {struct r} : option (nat * caps) :=
  match r with
  | REmpty => k i cs
  | RChar c =>
      match s !! i with Some d => if char_eq c d then k (S i) cs else None | None => None end
  | RClass neg items =>
      match s !! i with
      | Some d => if class_matches neg items d then k (S i) cs else None
      | None => None
      end
  | RDot =>
      match s !! i with Some d => if d =? 10 then None else k (S i) cs | None => None end
  | RCat r1 r2 => mt r1 i cs (fun j cs' => mt r2 j cs' k)
  | RAlt r1 r2 =>
      match mt r1 i cs k with Some x => Some x | None => mt r2 i cs k end
  | RRep lo hi r1 =>
      let fix go (fuel cnt : nat) (i : nat) (cs : caps) : option (nat * caps) :=
        match fuel with
        | O => None
        | S fuel' =>
            if (cnt <? lo)%nat then mt r1 i cs (fun j cs' => go fuel' (S cnt) j cs')
            else
              match (if hi_allows hi cnt
                     then mt r1 i cs (fun j cs' =>
                            if (j =? i)%nat then None else go fuel' (S cnt) j cs')
                     else None) with
              | Some x => Some x
              | None => k i cs
              end
        end in
      go (S (lo + length s)) O i cs
  | RGroup n r1 => mt r1 i cs (fun j cs' => k j ((n, (i, j)) :: cs'))
  | RBol => if (i =? 0)%nat then k i cs else None
  | REol => if at_eol i then k i cs else None
  | RWordB => if at_boundary i then k i cs else None
  end.

Definition accept (j : nat) (cs : caps) : option (nat * caps) := Some (j, cs).

(** A match anchored at [i]: its end and its groups. *)
Definition match_at (r : regex) (i : nat) : option (nat * caps) := mt r i [] accept.

(** [pattern.search(s, pos)]: the leftmost start position that matches. *)
Fixpoint search_aux (r : regex) (fuel i : nat) : option (nat * nat * caps) :=
  match fuel with
  | O => None
  | S f =>
      match match_at r i with
      | Some (j, cs) => Some (i, j, cs)
      | None => search_aux r f (S i)
      end
  end.

Definition search_from (r : regex) (pos : nat) : option (nat * nat * caps) :=
  search_aux r (S (length s - pos)) pos.

Definition substr (i j : nat) : ustr := take (j - i) (drop i s).

(** [re.sub(pattern, repl, s, count)] with a constant replacement
    ([count = None] replaces every match).  After an empty match the next
    search starts one character further; the nullable patterns of the
    source are only used with [count=1]. *)
Fixpoint sub_aux (r : regex) (repl : ustr) (fuel : nat) (count : option nat)
    (pos : nat) : ustr :=
  match fuel with
  | O => drop pos s
  | S f =>
      match count with
      | Some O => drop pos s
      | _ =>
          let count' := match count with Some n => Some (pred n) | None => None end in
          match search_from r pos with
          | None => drop pos s
          | Some (a, b, _) =>
              substr pos a ++ repl ++
              (if (b =? a)%nat
               then (if (a <? length s)%nat
                     then substr a (S a) ++ sub_aux r repl f count' (S a)
                     else [])
               else sub_aux r repl f count' b)
          end
      end
  end.

Definition sub (r : regex) (repl : ustr) (count : option nat) : ustr :=
  sub_aux r repl (S (S (length s))) count 0.

(** The text of group [n] of a match ([""] when it did not take part). *)
Definition group_text (cs : caps) (n : nat) : ustr :=
  match list_find (fun p => p.1 = n) cs with
  | Some (_, (_, (i, j))) => substr i j
  | None => []
  end.

(** [re.findall]: the whole matches, or group 1 when the pattern has one
    group; the patterns used with it are not nullable. *)
Fixpoint findall_aux (r : regex) (grouped : bool) (fuel pos : nat) : list ustr :=
  match fuel with
  | O => []
  | S f =>
      match search_from r pos with
      | None => []
      | Some (a, b, cs) =>
          (if grouped then group_text cs 1 else substr a b) ::
          findall_aux r grouped f (if (b =? a)%nat then S a else b)
      end
  end.

Definition findall (r : regex) (grouped : bool) : list ustr :=
  findall_aux r grouped (S (S (length s))) 0.

(** [re.split] by a non-nullable pattern. *)
Fixpoint split_aux (r : regex) (fuel pos : nat) : list ustr :=
  match fuel with
  | O => [drop pos s]
  | S f =>
      match search_from r pos with
      | Some (a, b, _) =>
          if (b =? a)%nat then [drop pos s]
          else substr pos a :: split_aux r f b
      | None => [drop pos s]
      end
  end.

Definition split (r : regex) : list ustr := split_aux r (S (length s)) 0.

End Matcher.

(** The public entry points, with [re]'s argument order. *)
Definition re_search `{db : UnicodeDB} (r : regex) (s : ustr) := search_from false s r 0.
Definition re_match `{db : UnicodeDB} (r : regex) (s : ustr) := match_at false s r 0.
Definition re_fullmatch `{db : UnicodeDB} (r : regex) (s : ustr) : bool :=
  match mt false s r 0 [] (fun j cs => if (j =? length s)%nat then Some (j, cs) else None) with
  | Some _ => true
  | None => false
  end.
Definition re_sub `{db : UnicodeDB} (r : regex) (repl s : ustr) := sub false s r repl None.
Definition re_sub1 `{db : UnicodeDB} (r : regex) (repl s : ustr) := sub false s r repl (Some 1%nat).
Definition re_findall `{db : UnicodeDB} (r : regex) (grouped : bool) (s : ustr) := findall false s r grouped.
Definition re_split `{db : UnicodeDB} (r : regex) (s : ustr) := split false s r.

(** Building patterns: a literal word, sequences, alternations and the
    usual quantifiers. *)
Definition rstr (w : string) : regex :=
  foldr (fun c r => RCat (RChar c) r) REmpty (u w).
Arguments rstr w%_string.
Definition rseq (rs : list regex) : regex := foldr RCat REmpty rs.
Fixpoint ralt (rs : list regex) : regex :=
  match rs with
  | [] => REmpty
  | [r] => r
  | r :: rs' => RAlt r (ralt rs')
  end.
Definition rstar (r : regex) : regex := RRep 0 None r.
Definition rplus (r : regex) : regex := RRep 1 None r.
Definition ropt (r : regex) : regex := RRep 0 (Some 1%nat) r.
Definition rcls (items : list cls_item) : regex := RClass false items.
Definition rncls (items : list cls_item) : regex := RClass true items.
Definition r_s : regex := rcls [CSpace].
Definition r_d : regex := rcls [CDigit].
(** The class of the characters of a word, [[;,]] for ";,". *)
Definition chars_of (w : string) : list cls_item := map CChar (u w).

(** "\s+" *)
Definition re_ws : regex := rplus r_s.

(** ** More of Python's [str] *)

Section PyStr2.
Context `{db : UnicodeDB}.

Definition occurs_at (sub s : ustr) (i : nat) : bool :=
  bool_decide (take (length sub) (drop i s) = sub).

(** [s.find(sub)]: the first index, [None] standing for -1. *)
Fixpoint find_from (sub s : ustr) (fuel i : nat) : option nat :=
  match fuel with
  | O => None
  | S f => if occurs_at sub s i then Some i else find_from sub s f (S i)
  end.

Definition py_find (sub s : ustr) : option nat :=
  if (length s <? length sub)%nat then None
  else find_from sub s (S (length s - length sub)) 0.

(** [sub in s] *)
Definition py_in (sub s : ustr) : bool :=
  match py_find sub s with Some _ => true | None => false end.

(** [s.startswith(p)] *)
Definition py_startswith (s p : ustr) : bool := bool_decide (take (length p) s = p).

(** [s.split(sep, 1)[1]], for a [s] containing the one-character [sep]. *)
Definition split1_right (sep : N) (s : ustr) : ustr :=
  match list_find (fun c => c = sep) s with
  | Some (i, _) => drop (S i) s
  | None => []
  end.

(** [s.split()]: the maximal runs of non-whitespace. *)
Fixpoint split_ws_aux (cur : ustr) (s : ustr) : list ustr :=
  match s with
  | [] => match cur with [] => [] | _ => [reverse cur] end
  | c :: r =>
      if u_space c then (match cur with [] => [] | _ => [reverse cur] end) ++ split_ws_aux [] r
      else split_ws_aux (c :: cur) r
  end.
Definition py_split_ws (s : ustr) : list ustr := split_ws_aux [] s.

(** [sep.join(parts)] *)
Definition py_join (sep : ustr) (parts : list ustr) : ustr :=
  match parts with
  | [] => []
  | p :: ps => p ++ mjoin (map (fun q => sep ++ q) ps)
  end.

(** [int(t)] for a string of decimal digits (the only strings the source
    converts: regex [\d] matches). *)
Definition py_int (t : ustr) : N :=
  foldl (fun acc c => acc * 10 + default 0 (u_decimal c)) 0 t.

End PyStr2.

(** [str(n)] for a natural number, and [f"{n:0wd}"]. *)
Fixpoint digits_rev (fuel : nat) (n : N) : ustr :=
  match fuel with
  | O => []
  | S f => if n <? 10 then [48 + n] else (48 + n mod 10) :: digits_rev f (n / 10)
  end.
Definition py_str_N (n : N) : ustr := reverse (digits_rev (S (N.to_nat (N.log2 n))) n).
Definition zfill (w : nat) (t : ustr) : ustr := replicate (w - length t) 48 ++ t.
Definition fmt0 (w : nat) (n : N) : ustr := zfill w (py_str_N n).

(** [s.title()] on the strings the source applies it to (lowercase ASCII
    letters and whitespace): a letter is uppercased when it follows a
    non-letter. *)
Fixpoint title_aux (prev_cased : bool) (s : ustr) : ustr :=
  match s with
  | [] => []
  | c :: r =>
      let is_lo := (97 <=? c) && (c <=? 122) in
      let is_up := (65 <=? c) && (c <=? 90) in
      (if prev_cased then (if is_up then c + 32 else c) else (if is_lo then c - 32 else c))
        :: title_aux (is_lo || is_up) r
  end.
Definition py_title (s : ustr) : ustr := title_aux false s.

(** ** The static helpers of [IDCardOCR] *)

Section Helpers.
Context `{db : UnicodeDB}.

Definition PUNCT : ustr := u " ;,:.-".

(** [_normalize_text] *)
Definition _normalize_text (text : ustr) : ustr :=
  let text := nfkd text in
  let text := filter (fun ch => negb (is_combining ch)) text in
  let text := py_strip (py_lower text) in
  re_sub re_ws (u " ") text.

(** [w1\s*w2\s*...]: label words separated by optional whitespace. *)
Fixpoint rwords (ws : list string) : regex :=
  match ws with
  | [] => REmpty
  | [w] => rstr w
  | w :: ws' => rseq [rstr w; rstar r_s; rwords ws']
  end.

(** [label_pattern]: "^(?:ho\s*va\s*ten|...|id\s*no|no\.?|so\s*dinh\s*danh|so)\s*"
    followed by an optional group "/\s*". *)
Definition label_pattern : regex :=
  rseq [RBol;
        ralt [rwords ["ho"; "va"; "ten"]; rwords ["ho"; "ten"]; rwords ["full"; "name"];
              rwords ["ngay"; "sinh"]; rwords ["date"; "of"; "birth"];
              rwords ["gioi"; "tinh"]; rstr "sex";
              rwords ["quoc"; "tich"]; rstr "nationality";
              rwords ["que"; "quan"]; rwords ["place"; "of"; "origin"];
              rwords ["noi"; "thuong"; "tru"]; rwords ["thuong"; "tru"];
              rwords ["permanent"; "residence"]; rstr "residence";
              rwords ["id"; "no"]; rseq [rstr "no"; ropt (RChar 46)];
              rwords ["so"; "dinh"; "danh"]; rstr "so"];
        rstar r_s; ropt (rseq [RChar 47; rstar r_s])].

(** "^[\d\W_]+" *)
Definition re_lead_nonletters : regex := rseq [RBol; rplus (rcls [CDigit; CNotWord; CChar 95])].

(** "^\s*[^:;\-]*[:;\-]?\s*" *)
Definition re_lead_segment : regex :=
  rseq [RBol; rstar r_s; rstar (rncls (chars_of ":;-")); ropt (rcls (chars_of ":;-")); rstar r_s].

(** The [while] loop of [_strip_known_labels]; every iteration shortens
    [value], so [length value + 1] rounds of fuel are enough. *)
Fixpoint strip_labels_loop (fuel : nat) (value normalized_value : ustr) : ustr :=
  match fuel with
  | O => value
  | S f =>
      if is_Some_dec (re_match label_pattern normalized_value) then
        let normalized_value := py_strip_chars PUNCT (re_sub1 label_pattern [] normalized_value) in
        let value := py_strip_chars PUNCT (re_sub1 re_lead_segment [] value) in
        match value with
        | [] => value
        | _ => strip_labels_loop f value (_normalize_text value)
        end
      else value
  end.

(** [_strip_known_labels] *)
Definition _strip_known_labels (value : ustr) : ustr :=
  match value with
  | [] => []
  | _ =>
      let value := py_strip_chars PUNCT (re_sub re_ws (u " ") value) in
      let value := re_sub re_lead_nonletters [] value in
      strip_labels_loop (S (length value)) value (_normalize_text value)
  end.
End Helpers.

Section Helpers2.
Context `{db : UnicodeDB}.

(** [_extract_segment_by_labels]: the earliest label of [labels] (the
    first one listed among those at the same index), the text after it up
    to the earliest stop label. *)
Fixpoint earliest_label (nl : ustr) (labels : list ustr) (start : option (nat * ustr))
    : option (nat * ustr) :=
  match labels with
  | [] => start
  | label :: rest =>
      match py_find label nl with
      | Some idx =>
          match start with
          | Some (st, _) =>
              if (idx <? st)%nat then earliest_label nl rest (Some (idx, label))
              else earliest_label nl rest start
          | None => earliest_label nl rest (Some (idx, label))
          end
      | None => earliest_label nl rest start
      end
  end.

Definition _extract_segment_by_labels (raw_line : ustr) (labels stop_labels : list ustr) : ustr :=
  let normalized_line := _normalize_text raw_line in
  match earliest_label normalized_line labels None with
  | None => []
  | Some (start, start_label) =>
      let segment := py_strip_chars (u " ;,:.-/") (drop (start + length start_label) normalized_line) in
      let stop_at := foldl (fun stop_at stop =>
                              match py_find stop segment with
                              | Some stop_idx => Nat.min stop_at stop_idx
                              | None => stop_at
                              end) (length segment) stop_labels in
      let segment := py_strip_chars (u " ;,:.-/") (take stop_at segment) in
      re_sub re_lead_nonletters [] segment
  end.

(** [_extract_after_label] *)
Definition after_sep (sep : N) (raw_line : ustr) : ustr :=
  if bool_decide (sep ∈ raw_line)
  then _strip_known_labels (py_strip_chars (u " ;,.-") (split1_right sep raw_line))
  else [].

Definition _extract_after_label (raw_line : ustr) (labels : list ustr) : ustr :=
  match raw_line with
  | [] => []
  | _ =>
      match after_sep 58 raw_line with
      | (_ :: _) as cleaned => cleaned
      | [] =>
          match after_sep 45 raw_line with
          | (_ :: _) as cleaned => cleaned
          | [] =>
              let normalized_line := _normalize_text raw_line in
              (fix go (labels : list ustr) : ustr :=
                 match labels with
                 | [] => []
                 | label :: rest =>
                     if py_in label normalized_line then
                       let candidate := _strip_known_labels raw_line in
                       match candidate with
                       | _ :: _ =>
                           if bool_decide (_normalize_text candidate <> normalized_line)
                           then candidate else go rest
                       | [] => go rest
                       end
                     else go rest
                 end) labels
          end
      end
  end.

(** [_clean_value] *)
Definition _clean_value (value : ustr) : ustr :=
  py_strip_chars PUNCT (re_sub re_ws (u " ") (_strip_known_labels value)).

Definition noise_blocked : list ustr :=
  map u ["ho va ten"; "full name"; "ngay sinh"; "date of birth"; "gioi tinh"; "sex";
         "quoc tich"; "nationality"; "que quan"; "place of origin";
         "noi thuong tru"; "permanent residence"; "residence";
         "co gia tri"; "valid until"; "can cuoc"; "cong hoa";
         "citizen identity card"; "identity card"; "can cuoc cong dan"]%string.

Definition noise_words : list ustr := map u ["quan"; "pho"; "of"; "origin"; "residence"]%string.

(** "[a-z\s]+" *)
Definition re_lower_words : regex := rplus (rcls [CRange 97 122; CSpace]).

(** [_is_noise_or_label] *)
Definition _is_noise_or_label (value : ustr) : bool :=
  match value with
  | [] => true
  | _ =>
      let normalized := _normalize_text value in
      if (length normalized <? 3)%nat then true
      else if existsb (fun token => py_in token normalized) noise_blocked then true
      else if bool_decide (normalized ∈ noise_words) then true
      else if re_fullmatch re_lower_words normalized
              && (length (py_split_ws normalized) <=? 2)%nat
              && bool_decide (normalized ∈ map u ["of"; "origin"; "residence"]%string)
      then true
      else false
  end.
End Helpers2.

(** ** Exceptions

    The Python exceptions the parsing code could raise: list indexing out
    of range and a missing dictionary key. *)
Inductive py_exc := IndexError | KeyError (k : string).
Abbreviation PyM A := (py_exc + A)%type.
Definition py_ret {A} (a : A) : PyM A := inr a.
Definition py_bind {A B} (m : PyM A) (f : A -> PyM B) : PyM B :=
  match m with inl e => inl e | inr a => f a end.
Notation "'let*' x ':=' m 'in' k" := (py_bind m (fun x => k))
  (at level 200, x name, m at level 100, k at level 200, right associativity).

(** [l[i]] *)
Definition py_index {A} (l : list A) (i : nat) : PyM A :=
  match l !! i with Some x => inr x | None => inl IndexError end.

Section Helpers3.
Context `{db : UnicodeDB}.

(** "(\d{1,2})\s*[./-]\s*(\d{1,2})\s*[./-]\s*(\d{4})" *)
Definition re_date_groups : regex :=
  rseq [RGroup 1 (RRep 1 (Some 2%nat) r_d); rstar r_s; rcls (chars_of "./-"); rstar r_s;
        RGroup 2 (RRep 1 (Some 2%nat) r_d); rstar r_s; rcls (chars_of "./-"); rstar r_s;
        RGroup 3 (RRep 4 (Some 4%nat) r_d)].

Definition SLASH : ustr := [47].

(** [_normalize_date_text] *)
Definition _normalize_date_text (raw : ustr) : ustr :=
  match raw with
  | [] => []
  | _ =>
      match re_search re_date_groups raw with
      | None => []
      | Some (_, _, cs) =>
          let day := group_text raw cs 1 in
          let month := group_text raw cs 2 in
          let year := group_text raw cs 3 in
          fmt0 2 (py_int day) ++ SLASH ++ fmt0 2 (py_int month) ++ SLASH ++ year
      end
  end.

(** "\b(\d{8})\b" *)
Definition re_compact_date : regex :=
  rseq [RWordB; RGroup 1 (RRep 8 (Some 8%nat) r_d); RWordB].

(** [_normalize_compact_date] *)
Definition _normalize_compact_date (raw : ustr) : ustr :=
  match raw with
  | [] => []
  | _ =>
      match re_search re_compact_date raw with
      | None => []
      | Some (_, _, cs) =>
          let compact := group_text raw cs 1 in
          let day := py_int (take 2 compact) in
          let month := py_int (take 2 (drop 2 compact)) in
          let year := py_int (take 4 (drop 4 compact)) in
          if (1 <=? day) && (day <=? 31) && (1 <=? month) && (month <=? 12)
             && (1900 <=? year) && (year <=? 2100)
          then fmt0 2 day ++ SLASH ++ fmt0 2 month ++ SLASH ++ fmt0 4 year
          else []
      end
  end.

(** "\D" *)
Definition re_nondigit : regex := rncls [CDigit].

(** [collections.Counter(l).items()]: each distinct element with its
    number of occurrences, in order of first occurrence. *)
Definition count_in (l : list ustr) (x : ustr) : nat :=
  length (filter (fun y => y = x) l).

Fixpoint dedup_first (seen : list ustr) (l : list ustr) : list ustr :=
  match l with
  | [] => []
  | x :: r => if bool_decide (x ∈ seen) then dedup_first seen r else x :: dedup_first (x :: seen) r
  end.

Definition counter_items (l : list ustr) : list (ustr * nat) :=
  map (fun k => (k, count_in l k)) (dedup_first [] l).

(** The sort key [(pair[1], pair[0].startswith('0'))] and its order
    (tuples compare lexicographically, [False < True]). *)
Definition rank_key (p : ustr * nat) : nat * bool := (p.2, py_startswith p.1 [48]).

Definition key_lt (a b : nat * bool) : bool :=
  (a.1 <? b.1)%nat || ((a.1 =? b.1)%nat && negb a.2 && b.2).

(** [sorted(items, key=rank_key, reverse=True)]: a stable sort in
    decreasing key order (an element goes after those whose key is not
    smaller). *)
Fixpoint insert_desc (x : ustr * nat) (l : list (ustr * nat)) : list (ustr * nat) :=
  match l with
  | [] => [x]
  | y :: r => if key_lt (rank_key y) (rank_key x) then x :: y :: r else y :: insert_desc x r
  end.

Definition sorted_desc (l : list (ustr * nat)) : list (ustr * nat) :=
  foldl (fun acc x => insert_desc x acc) [] l.

Definition id_cleaned (candidates : list ustr) : list ustr :=
  filter (fun c => length c = 12%nat) (map (re_sub re_nondigit []) candidates).

(** [_choose_best_id] *)
Definition _choose_best_id (candidates : list ustr) : ustr :=
  let cleaned := id_cleaned candidates in
  match cleaned with
  | [] => []
  | _ =>
      match sorted_desc (counter_items cleaned) with
      | (best, _) :: _ => best
      | [] => []
      end
  end.

(** [_dedupe_place_text] *)
Definition re_place_sep : regex := rplus (rcls (chars_of ";,")).

Definition dedupe_filler : list ustr := map u ["que"; "quan"; "pho"; "thi"]%string.

Fixpoint dedupe_loop (seen : list ustr) (parts : list ustr) : list ustr :=
  match parts with
  | [] => []
  | part :: rest =>
      let part_clean := py_strip_chars (u " .,-") part in
      let normalized := _normalize_text part_clean in
      if bool_decide (part_clean = []) || bool_decide (normalized ∈ seen) then dedupe_loop seen rest
      else if bool_decide (normalized ∈ dedupe_filler) then dedupe_loop seen rest
      else part_clean :: dedupe_loop (normalized :: seen) rest
  end.

Definition _dedupe_place_text (value : ustr) : ustr :=
  match value with
  | [] => []
  | _ => py_join (u ", ") (dedupe_loop [] (re_split re_place_sep value))
  end.

(** [_extract_value_from_lines] *)
Fixpoint extract_value_loop (lines : list ustr) (labels : list ustr) (index : nat)
    (nls : list ustr) : PyM ustr :=
  match nls with
  | [] => py_ret []
  | nline :: rest =>
      if existsb (fun label => py_in label nline) labels then
        let* line := py_index lines index in
        match _extract_after_label line labels with
        | (_ :: _) as inline => py_ret (_clean_value inline)
        | [] =>
            if (S index <? length lines)%nat then
              let* next_line := py_index lines (S index) in
              match _clean_value next_line with
              | (_ :: _) as next_value => py_ret next_value
              | [] => extract_value_loop lines labels (S index) rest
              end
            else extract_value_loop lines labels (S index) rest
        end
      else extract_value_loop lines labels (S index) rest
  end.

Definition _extract_value_from_lines (lines normalized_lines : list ustr) (labels : list ustr)
    : PyM ustr :=
  extract_value_loop lines labels 0 normalized_lines.

(** [_line_has_any_label] *)
Definition _line_has_any_label (normalized_line : ustr) (labels : list ustr) : bool :=
  existsb (fun label => py_in label normalized_line) labels.
End Helpers3.

(** ** [parse_data] *)

(** A recognition observation [(boundingBox, text, confidence)]. *)
Record observation := {
  obs_bbox : list (Q * Q);
  obs_text : ustr;
  obs_conf : Q
}.

(** The argument of [parse_data]: a list of strings, or the observations
    [extract_text] returns. *)
Inductive parse_input :=
| TextLines (l : list ustr)
| Observations (l : list observation).

(** The result dictionary. *)
Abbreviation dict := (gmap string ustr).

(** [data[k]] *)
Definition py_getitem (d : dict) (k : string) : PyM ustr :=
  match d !! k with Some v => inr v | None => inl (KeyError k) end.

(** [a or b] on strings *)
Definition py_or (a b : ustr) : ustr := match a with [] => b | _ => a end.

Definition is_empty (s : ustr) : bool := match s with [] => true | _ => false end.

Record ctx := {
  c_lines : list ustr;
  c_full_text : ustr;
  c_nlines : list ustr;
  c_nfull : ustr
}.

Section ParseData.
Context `{db : UnicodeDB}.

(** Lines 286-292: the lines kept from the input. *)
Definition input_lines (inp : parse_input) : list ustr :=
  match inp with
  | TextLines l => map py_strip l
  | Observations l =>
      map (fun o => py_strip (obs_text o)) (filter (fun o => Qle_bool (1 # 4) (obs_conf o) = true) l)
  end.

Definition mk_ctx (lines : list ustr) : ctx := {|
  c_lines := lines;
  c_full_text := py_join (u " ") lines;
  c_nlines := map _normalize_text lines;
  c_nfull := _normalize_text (py_join (u " ") lines)
|}.

Definition canonical_keys : list string :=
  ["fullname"; "date_of_birth"; "sex"; "nationality"; "place_of_origin"; "no";
   "residence"; "expiry_date"]%string.

Definition init_data : dict := list_to_map (map (fun k => (k, [])) canonical_keys).

Definition has_match (r : regex) (s : ustr) : bool := if re_search r s then true else false.

(** --- 1. No. --- *)
Definition no_labels : list ustr := map u ["so"; "so dinh danh"; "id no"; "no."; "no"]%string.

(** "\d{12}" *)
Definition re_id12 : regex := RRep 12 (Some 12%nat) r_d.

Definition section_no (c : ctx) (data : dict) : PyM dict :=
  let* v := _extract_value_from_lines (c_lines c) (c_nlines c) no_labels in
  let data := <["no" := v]> data in
  let id_candidates :=
    re_findall re_id12 false (c_full_text c)
    ++ filter (fun compact => length compact = 12%nat) (map (re_sub re_nondigit []) (c_lines c)) in
  let best_id := _choose_best_id id_candidates in
  let digits_only := re_sub re_nondigit [] (c_full_text c) in
  match best_id with
  | _ :: _ => py_ret (<["no" := best_id]> data)
  | [] =>
      match re_search re_id12 digits_only with
      | Some (a, b, _) =>
          let* no := py_getitem data "no" in
          if is_empty no || (length (re_sub re_nondigit [] no) <? 9)%nat
          then py_ret (<["no" := substr digits_only a b]> data)
          else py_ret data
      | None => py_ret data
      end
  end.

(** --- 2. Date of Birth --- *)
(** date_pattern "(\d{1,2}\s*[/-]\s*\d{1,2}\s*[/-]\s*\d{4})" *)
Definition date_pattern : regex :=
  RGroup 1 (rseq [RRep 1 (Some 2%nat) r_d; rstar r_s; rcls (chars_of "/-"); rstar r_s;
                  RRep 1 (Some 2%nat) r_d; rstar r_s; rcls (chars_of "/-"); rstar r_s;
                  RRep 4 (Some 4%nat) r_d]).

(** The label loops of lines 330-348 and 510-528: the first date found
    on a label line or on the line after it ([None]: the loop ends without
    [break]). *)
Fixpoint date_label_loop (hit : ustr -> bool) (lines : list ustr) (index : nat)
    (nls : list ustr) : PyM (option ustr) :=
  match nls with
  | [] => py_ret None
  | nline :: rest =>
      if hit nline then
        let* line := py_index lines index in
        match _normalize_date_text line with
        | (_ :: _) as inline_date => py_ret (Some inline_date)
        | [] =>
            match _normalize_compact_date line with
            | (_ :: _) as compact_inline => py_ret (Some compact_inline)
            | [] =>
                if (S index <? length lines)%nat then
                  let* next := py_index lines (S index) in
                  match _normalize_date_text next with
                  | (_ :: _) as next_line => py_ret (Some next_line)
                  | [] =>
                      match _normalize_compact_date next with
                      | (_ :: _) as compact_next => py_ret (Some compact_next)
                      | [] => date_label_loop hit lines (S index) rest
                      end
                  end
                else date_label_loop hit lines (S index) rest
            end
        end
      else date_label_loop hit lines (S index) rest
  end.

Definition dob_labels : list ustr := map u ["ngay sinh"; "date of birth"]%string.
Definition dob_hit (nline : ustr) : bool := existsb (fun label => py_in label nline) dob_labels.

Definition section_dob (c : ctx) (data : dict) : PyM dict :=
  let* found := date_label_loop dob_hit (c_lines c) 0 (c_nlines c) in
  let data := match found with Some v => <["date_of_birth" := v]> data | None => data end in
  let* dob := py_getitem data "date_of_birth" in
  let data := if is_empty dob
              then <["date_of_birth" := _normalize_date_text (c_full_text c)]> data else data in
  let* dob := py_getitem data "date_of_birth" in
  py_ret (if is_empty dob
          then <["date_of_birth" := _normalize_compact_date (c_full_text c)]> data else data).

(** --- 3. Sex --- *)
(** "\bnam\b|\bmale\b" and "\bnu\b|\bfemale\b" *)
Definition re_male : regex :=
  RAlt (rseq [RWordB; rstr "nam"; RWordB]) (rseq [RWordB; rstr "male"; RWordB]).
Definition re_female : regex :=
  RAlt (rseq [RWordB; rstr "nu"; RWordB]) (rseq [RWordB; rstr "female"; RWordB]).

Definition sex_labels : list ustr := map u ["gioi tinh"; "sex"]%string.
Definition SEX_NAM : ustr := u "Nam".
Definition SEX_NU : ustr := u "Nữ".

Definition section_sex (c : ctx) (data : dict) : PyM dict :=
  let* sex_line_value := _extract_value_from_lines (c_lines c) (c_nlines c) sex_labels in
  let normalized_sex := _normalize_text sex_line_value in
  let data := if has_match re_male normalized_sex then <["sex" := SEX_NAM]> data
              else if has_match re_female normalized_sex then <["sex" := SEX_NU]> data
              else data in
  if has_match re_male (c_nfull c) then
    let* sex := py_getitem data "sex" in py_ret (<["sex" := py_or sex SEX_NAM]> data)
  else if has_match re_female (c_nfull c) then
    let* sex := py_getitem data "sex" in py_ret (<["sex" := py_or sex SEX_NU]> data)
  else py_ret data.
End ParseData.

Section ParseData2.
Context `{db : UnicodeDB}.

(** --- 4. Fullname --- *)
Definition name_labels : list ustr := map u ["ho va ten"; "ho ten"; "full name"]%string.

Fixpoint fullname_loop (lines : list ustr) (i : nat) (nls : list ustr) : PyM (option ustr) :=
  match nls with
  | [] => py_ret None
  | nline :: rest =>
      if existsb (fun label => py_in label nline) name_labels then
        let* line := py_index lines i in
        let inline_name := _extract_after_label line name_labels in
        let inline_found :=
          match inline_name with
          | [] => None
          | _ => let candidate_name := _clean_value inline_name in
                 if _is_noise_or_label candidate_name then None else Some candidate_name
          end in
        match inline_found with
        | Some v => py_ret (Some v)
        | None =>
            if (S i <? length lines)%nat then
              let* next := py_index lines (S i) in
              let candidate := py_strip_chars (u " :-") next in
              let candidate_clean := _clean_value candidate in
              if negb (is_empty candidate_clean) && negb (has_match r_d candidate_clean)
                 && negb (_is_noise_or_label candidate_clean)
              then py_ret (Some candidate_clean)
              else fullname_loop lines (S i) rest
            else fullname_loop lines (S i) rest
        end
      else fullname_loop lines (S i) rest
  end.

(** "^[A-ZÀ-Ỹ\s]+$" *)
Definition re_upper_line : regex := rseq [RBol; rplus (rcls [CRange 65 90; CRange 192 7928; CSpace]); REol].

Definition section_fullname (c : ctx) (data : dict) : PyM dict :=
  let* found := fullname_loop (c_lines c) 0 (c_nlines c) in
  let data := match found with Some v => <["fullname" := v]> data | None => data end in
  let* fullname := py_getitem data "fullname" in
  if is_empty fullname then
    let uppercase_lines :=
      filter (fun line => (4 < length line)%nat /\ is_Some (re_match re_upper_line line)) (c_lines c) in
    match uppercase_lines with
    | first :: _ => py_ret (<["fullname" := first]> data)
    | [] => py_ret data
    end
  else py_ret data.

(** --- 5. Nationality --- *)
Definition nationality_labels : list ustr := map u ["quoc tich"; "nationality"]%string.
Definition nationality_stops : list ustr :=
  map u ["que quan"; "place of origin"; "noi thuong tru"; "residence"; "gioi tinh"; "sex";
         "ngay sinh"; "date of birth"; "ho va ten"; "full name"]%string.

(** "(?:quoc\s*tich|nationality)\s*[:/\-]*\s*([a-z\s]{2,30})" *)
Definition re_nationality_value : regex :=
  rseq [RAlt (rwords ["quoc"; "tich"]) (rstr "nationality"); rstar r_s;
        rstar (rcls (chars_of ":/-")); rstar r_s;
        RGroup 1 (RRep 2 (Some 30%nat) (rcls [CRange 97 122; CSpace]))].

(** "\b(?:gioi\s*tinh|sex|...|date\s*of\s*birth)\b.*$" *)
Definition re_nationality_tail : regex :=
  rseq [RWordB;
        ralt [rwords ["gioi"; "tinh"]; rstr "sex"; rwords ["que"; "quan"];
              rwords ["place"; "of"; "origin"]; rwords ["noi"; "thuong"; "tru"];
              rstr "residence"; rwords ["ngay"; "sinh"]; rwords ["date"; "of"; "birth"]];
        RWordB; rstar RDot; REol].

Definition VIET_NAM : ustr := u "Việt Nam".

Fixpoint first_segment (lines : list ustr) : option ustr :=
  match lines with
  | [] => None
  | line :: rest =>
      match _extract_segment_by_labels line nationality_labels nationality_stops with
      | (_ :: _) as candidate => Some candidate
      | [] => first_segment rest
      end
  end.

Definition section_nationality (c : ctx) (data : dict) : PyM dict :=
  let* v := _extract_value_from_lines (c_lines c) (c_nlines c) nationality_labels in
  let data := <["nationality" := _clean_value v]> data in
  let* nat0 := py_getitem data "nationality" in
  let data := if is_empty nat0 then
                match first_segment (c_lines c) with
                | Some candidate => <["nationality" := _clean_value candidate]> data
                | None => data
                end
              else data in
  let* nat1 := py_getitem data "nationality" in
  let data :=
    if negb (is_empty nat1) then
      let nationality_norm := _normalize_text nat1 in
      match re_search re_nationality_value nationality_norm with
      | Some (_, _, cs) =>
          let candidate := py_strip (group_text nationality_norm cs 1) in
          let candidate := py_strip (re_sub re_nationality_tail [] candidate) in
          if negb (is_empty candidate) then <["nationality" := py_title candidate]> data else data
      | None => data
      end
    else data in
  let* nat2 := py_getitem data "nationality" in
  let data :=
    if negb (is_empty nat2) then
      let normalized_nationality := _normalize_text nat2 in
      if py_in (u "viet nam") normalized_nationality || py_in (u "vietnam") normalized_nationality
      then <["nationality" := VIET_NAM]> data
      else if py_in (u "quoc tich") normalized_nationality
              || py_in (u "nationality") normalized_nationality
              || bool_decide (normalized_nationality ∈ map u ["nam"; "male"]%string)
      then <["nationality" := VIET_NAM]> data
      else data
    else data in
  let* nat3 := py_getitem data "nationality" in
  py_ret (if is_empty nat3 && py_in (u "viet nam") (c_nfull c)
          then <["nationality" := VIET_NAM]> data else data).
End ParseData2.

Section ParseData3.
Context `{db : UnicodeDB}.

(** --- 6. Place of origin / residence: multi-line accumulation --- *)

(** The [while j < len(lines)] loop of lines 447-459 and 482-494; each
    round increases [j], so [len(lines)] rounds of fuel are enough. *)
Fixpoint accumulate (stops : list ustr) (max_parts : nat) (lines nls : list ustr)
    (fuel j : nat) (parts : list ustr) : PyM (list ustr) :=
  match fuel with
  | O => py_ret parts
  | S f =>
      if (j <? length lines)%nat then
        let* probe := py_index nls j in
        if _line_has_any_label probe stops then py_ret parts
        else
          let* line := py_index lines j in
          if has_match date_pattern line then py_ret parts
          else
            let part := py_strip_chars (u " ,.-") line in
            let cleaned_part := _clean_value part in
            let parts := if negb (is_empty cleaned_part) && negb (_is_noise_or_label cleaned_part)
                         then parts ++ [cleaned_part] else parts in
            if (max_parts <=? length parts)%nat then py_ret parts
            else accumulate stops max_parts lines nls f (S j) parts
      else py_ret parts
  end.

(** The [for i, nline in enumerate(normalized_lines)] loops of lines
    440-467 and 475-498: only the first label line is used ([break]);
    [None] when there is none. *)
Fixpoint label_parts (labels stops : list ustr) (max_parts : nat) (lines nls_all : list ustr)
    (i : nat) (nls : list ustr) : PyM (option (list ustr)) :=
  match nls with
  | [] => py_ret None
  | nline :: rest =>
      if existsb (fun label => py_in label nline) labels then
        let* line := py_index lines i in
        let inline := _extract_after_label line labels in
        let inline_clean := _clean_value inline in
        let parts := if negb (is_empty inline_clean) && negb (_is_noise_or_label inline_clean)
                     then [inline_clean] else [] in
        let* parts := accumulate stops max_parts lines nls_all (length lines) (S i) parts in
        py_ret (Some parts)
      else label_parts labels stops max_parts lines nls_all (S i) rest
  end.

Definition origin_labels : list ustr := map u ["que quan"; "place of origin"]%string.
Definition origin_stops : list ustr :=
  map u ["co gia tri den"; "quoc tich"; "gioi tinh"; "ngay sinh"; "ho va ten";
         "noi thuong tru"; "thuong tru"; "id no"; "so dinh danh"; "can cuoc"]%string.

Definition origin_parts (c : ctx) : PyM (option (list ustr)) :=
  label_parts origin_labels origin_stops 5 (c_lines c) (c_nlines c) 0 (c_nlines c).

(** The acceptance test of lines 462-465. *)
Definition has_location_shape (combined : ustr) : bool :=
  bool_decide (44 ∈ combined) || bool_decide (59 ∈ combined) || (10 <=? length combined)%nat.

Definition section_origin (c : ctx) (data : dict) : PyM dict :=
  let* found := origin_parts c in
  match found with
  | Some ((_ :: _) as parts) =>
      let combined_origin := _clean_value (py_join (u ", ") parts) in
      let normalized_origin := _normalize_text combined_origin in
      if has_location_shape combined_origin
         && negb (py_in (u "citizen identity card") normalized_origin)
      then py_ret (<["place_of_origin" := _dedupe_place_text combined_origin]> data)
      else py_ret data
  | _ => py_ret data
  end.

(** --- residence --- *)
Definition residence_labels : list ustr :=
  map u ["noi thuong tru"; "thuong tru"; "permanent residence"; "residence"]%string.
Definition residence_stops : list ustr :=
  map u ["co gia tri den"; "co gia tri"; "quoc tich"; "gioi tinh"; "ngay sinh";
         "ho va ten"; "que quan"; "id no"; "so dinh danh"; "can cuoc"]%string.

(** "^\s*\d*\s*(place\s*of\s*residence|permanent\s*residence|residence)\s*[:;,-]*\s*",
    used with [re.IGNORECASE]. *)
Definition re_residence_prefix : regex :=
  rseq [RBol; rstar r_s; rstar r_d; rstar r_s;
        RGroup 1 (ralt [rwords ["place"; "of"; "residence"]; rwords ["permanent"; "residence"];
                        rstr "residence"]);
        rstar r_s; rstar (rcls (chars_of ":;,-")); rstar r_s].

Definition section_residence (c : ctx) (data : dict) : PyM dict :=
  let* found := label_parts residence_labels residence_stops 6 (c_lines c) (c_nlines c) 0 (c_nlines c) in
  let data := match found with
              | Some ((_ :: _) as parts) => <["residence" := _clean_value (py_join (u ", ") parts)]> data
              | _ => data
              end in
  let* residence := py_getitem data "residence" in
  if negb (is_empty residence) then
    py_ret (<["residence" := py_strip_chars PUNCT (sub true residence re_residence_prefix [] None)]> data)
  else py_ret data.

(** --- expiry date --- *)
Definition expiry_hit (nline : ustr) : bool :=
  py_in (u "co gia tri den") nline || py_in (u "valid until") nline || py_in (u "expiry") nline.

(** [dates] of lines 508-509. *)
Definition doc_dates (c : ctx) : list ustr :=
  filter (fun d => d <> []) (map _normalize_date_text (re_findall date_pattern true (c_full_text c))).

Definition section_expiry (c : ctx) (data : dict) : PyM dict :=
  let dates := doc_dates c in
  let* found := date_label_loop expiry_hit (c_lines c) 0 (c_nlines c) in
  let data := match found with Some v => <["expiry_date" := v]> data | None => data end in
  let* expiry := py_getitem data "expiry_date" in
  if is_empty expiry && (1 <? length dates)%nat then
    let* dob := py_getitem data "date_of_birth" in
    match list_find (fun d => d <> dob) (reverse dates) with
    | Some (_, d) => py_ret (<["expiry_date" := d]> data)
    | None => py_ret data
    end
  else py_ret data.

Definition section_residence_default (data : dict) : PyM dict :=
  let* residence := py_getitem data "residence" in
  if is_empty residence then
    let* origin := py_getitem data "place_of_origin" in
    py_ret (<["residence" := origin]> data)
  else py_ret data.
End ParseData3.

(** The alias keys and the canonical field each mirrors, in the order of
    lines 539-550 (and of [apply_template_aliases] in app.py). *)
Definition alias_map : list (string * string) :=
  [("full_name", "fullname"); ("id_number", "no"); ("dob", "date_of_birth");
   ("gender", "sex"); ("ho_va_ten", "fullname"); ("so", "no");
   ("ngay_sinh", "date_of_birth"); ("gioi_tinh", "sex"); ("quoc_tich", "nationality");
   ("que_quan", "place_of_origin"); ("noi_thuong_tru", "residence");
   ("co_gia_tri_den", "expiry_date")]%string.

(** Lines 539-550: [data[alias] = data[canonical]]. *)
Fixpoint set_aliases (al : list (string * string)) (data : dict) : PyM dict :=
  match al with
  | [] => py_ret data
  | (alias, key) :: rest =>
      let* v := py_getitem data key in
      set_aliases rest (<[alias := v]> data)
  end.

(** app.py [apply_template_aliases]: [data[alias] = data.get(canonical, "")]. *)
Definition apply_template_aliases (data : dict) : dict :=
  foldl (fun d '(alias, key) => <[alias := default [] (d !! key)]> d) data alias_map.

Section ParseData4.
Context `{db : UnicodeDB}.

Definition parse_lines (lines : list ustr) : PyM dict :=
  let c := mk_ctx lines in
  let* data := section_no c init_data in
  let* data := section_dob c data in
  let* data := section_sex c data in
  let* data := section_fullname c data in
  let* data := section_nationality c data in
  let* data := section_origin c data in
  let* data := section_residence c data in
  let* data := section_expiry c data in
  let* data := section_residence_default data in
  set_aliases alias_map data.

(** [IDCardOCR.parse_data] *)
Definition parse_data (text_list : parse_input) : PyM dict := parse_lines (input_lines text_list).

(** [extract_text], lines 265-268: an item is kept (before deduplication)
    when its stripped text is non-empty and [conf < 0.2] fails, 0.2 being
    the double nearest to 1/5. *)
Definition float_0_2 : Q := 3602879701896397 # 18014398509481984.

Definition extract_text_keeps (o : observation) : bool :=
  negb (is_empty (py_strip (obs_text o))) && Qle_bool float_0_2 (obs_conf o).
End ParseData4.

(** ** A concrete character database

    The entries of CPython's Unicode tables (Unicode 14) for Basic Latin,
    Latin-1, Latin Extended-A and -B, the combining diacritics, Greek and
    the Vietnamese letters of Latin Extended Additional: the characters
    whose properties differ from the defaults of [table_db] below. *)
Definition tab_decomp : list (N * list N) :=
  [(160, [32]); (168, [32; 776]); (170, [97]); (175, [32; 772]); 
   (178, [50]); (179, [51]); (180, [32; 769]); (181, [956]); 
   (184, [32; 807]); (185, [49]); (186, [111]); (188, [49; 8260; 52]); 
   (189, [49; 8260; 50]); (190, [51; 8260; 52]); (192, [65; 768]); 
   (193, [65; 769]); (194, [65; 770]); (195, [65; 771]); (196, [65; 776]); 
   (197, [65; 778]); (199, [67; 807]); (200, [69; 768]); (201, [69; 769]); 
   (202, [69; 770]); (203, [69; 776]); (204, [73; 768]); (205, [73; 769]); 
   (206, [73; 770]); (207, [73; 776]); (209, [78; 771]); (210, [79; 768]); 
   (211, [79; 769]); (212, [79; 770]); (213, [79; 771]); (214, [79; 776]); 
   (217, [85; 768]); (218, [85; 769]); (219, [85; 770]); (220, [85; 776]); 
   (221, [89; 769]); (224, [97; 768]); (225, [97; 769]); (226, [97; 770]); 
   (227, [97; 771]); (228, [97; 776]); (229, [97; 778]); (231, [99; 807]); 
   (232, [101; 768]); (233, [101; 769]); (234, [101; 770]); 
   (235, [101; 776]); (236, [105; 768]); (237, [105; 769]); 
   (238, [105; 770]); (239, [105; 776]); (241, [110; 771]); 
   (242, [111; 768]); (243, [111; 769]); (244, [111; 770]); 
   (245, [111; 771]); (246, [111; 776]); (249, [117; 768]); 
   (250, [117; 769]); (251, [117; 770]); (252, [117; 776]); 
   (253, [121; 769]); (255, [121; 776]); (256, [65; 772]); 
   (257, [97; 772]); (258, [65; 774]); (259, [97; 774]); (260, [65; 808]); 
   (261, [97; 808]); (262, [67; 769]); (263, [99; 769]); (264, [67; 770]); 
   (265, [99; 770]); (266, [67; 775]); (267, [99; 775]); (268, [67; 780]); 
   (269, [99; 780]); (270, [68; 780]); (271, [100; 780]); 
   (274, [69; 772]); (275, [101; 772]); (276, [69; 774]); 
   (277, [101; 774]); (278, [69; 775]); (279, [101; 775]); 
   (280, [69; 808]); (281, [101; 808]); (282, [69; 780]); 
   (283, [101; 780]); (284, [71; 770]); (285, [103; 770]); 
   (286, [71; 774]); (287, [103; 774]); (288, [71; 775]); 
   (289, [103; 775]); (290, [71; 807]); (291, [103; 807]); 
   (292, [72; 770]); (293, [104; 770]); (296, [73; 771]); 
   (297, [105; 771]); (298, [73; 772]); (299, [105; 772]); 
   (300, [73; 774]); (301, [105; 774]); (302, [73; 808]); 
   (303, [105; 808]); (304, [73; 775]); (306, [73; 74]); 
   (307, [105; 106]); (308, [74; 770]); (309, [106; 770]); 
   (310, [75; 807]); (311, [107; 807]); (313, [76; 769]); 
   (314, [108; 769]); (315, [76; 807]); (316, [108; 807]); 
   (317, [76; 780]); (318, [108; 780]); (319, [76; 183]); 
   (320, [108; 183]); (323, [78; 769]); (324, [110; 769]); 
   (325, [78; 807]); (326, [110; 807]); (327, [78; 780]); 
   (328, [110; 780]); (329, [700; 110]); (332, [79; 772]); 
   (333, [111; 772]); (334, [79; 774]); (335, [111; 774]); 
   (336, [79; 779]); (337, [111; 779]); (340, [82; 769]); 
   (341, [114; 769]); (342, [82; 807]); (343, [114; 807]); 
   (344, [82; 780]); (345, [114; 780]); (346, [83; 769]); 
   (347, [115; 769]); (348, [83; 770]); (349, [115; 770]); 
   (350, [83; 807]); (351, [115; 807]); (352, [83; 780]); 
   (353, [115; 780]); (354, [84; 807]); (355, [116; 807]); 
   (356, [84; 780]); (357, [116; 780]); (360, [85; 771]); 
   (361, [117; 771]); (362, [85; 772]); (363, [117; 772]); 
   (364, [85; 774]); (365, [117; 774]); (366, [85; 778]); 
   (367, [117; 778]); (368, [85; 779]); (369, [117; 779]); 
   (370, [85; 808]); (371, [117; 808]); (372, [87; 770]); 
   (373, [119; 770]); (374, [89; 770]); (375, [121; 770]); 
   (376, [89; 776]); (377, [90; 769]); (378, [122; 769]); 
   (379, [90; 775]); (380, [122; 775]); (381, [90; 780]); 
   (382, [122; 780]); (383, [115]); (416, [79; 795]); (417, [111; 795]); 
   (431, [85; 795]); (432, [117; 795]); (452, [68; 90; 780]); 
   (453, [68; 122; 780]); (454, [100; 122; 780]); (455, [76; 74]); 
   (456, [76; 106]); (457, [108; 106]); (458, [78; 74]); (459, [78; 106]); 
   (460, [110; 106]); (461, [65; 780]); (462, [97; 780]); 
   (463, [73; 780]); (464, [105; 780]); (465, [79; 780]); 
   (466, [111; 780]); (467, [85; 780]); (468, [117; 780]); 
   (469, [85; 776; 772]); (470, [117; 776; 772]); (471, [85; 776; 769]); 
   (472, [117; 776; 769]); (473, [85; 776; 780]); (474, [117; 776; 780]); 
   (475, [85; 776; 768]); (476, [117; 776; 768]); (478, [65; 776; 772]); 
   (479, [97; 776; 772]); (480, [65; 775; 772]); (481, [97; 775; 772]); 
   (482, [198; 772]); (483, [230; 772]); (486, [71; 780]); 
   (487, [103; 780]); (488, [75; 780]); (489, [107; 780]); 
   (490, [79; 808]); (491, [111; 808]); (492, [79; 808; 772]); 
   (493, [111; 808; 772]); (494, [439; 780]); (495, [658; 780]); 
   (496, [106; 780]); (497, [68; 90]); (498, [68; 122]); 
   (499, [100; 122]); (500, [71; 769]); (501, [103; 769]); 
   (504, [78; 768]); (505, [110; 768]); (506, [65; 778; 769]); 
   (507, [97; 778; 769]); (508, [198; 769]); (509, [230; 769]); 
   (510, [216; 769]); (511, [248; 769]); (512, [65; 783]); 
   (513, [97; 783]); (514, [65; 785]); (515, [97; 785]); (516, [69; 783]); 
   (517, [101; 783]); (518, [69; 785]); (519, [101; 785]); 
   (520, [73; 783]); (521, [105; 783]); (522, [73; 785]); 
   (523, [105; 785]); (524, [79; 783]); (525, [111; 783]); 
   (526, [79; 785]); (527, [111; 785]); (528, [82; 783]); 
   (529, [114; 783]); (530, [82; 785]); (531, [114; 785]); 
   (532, [85; 783]); (533, [117; 783]); (534, [85; 785]); 
   (535, [117; 785]); (536, [83; 806]); (537, [115; 806]); 
   (538, [84; 806]); (539, [116; 806]); (542, [72; 780]); 
   (543, [104; 780]); (550, [65; 775]); (551, [97; 775]); 
   (552, [69; 807]); (553, [101; 807]); (554, [79; 776; 772]); 
   (555, [111; 776; 772]); (556, [79; 771; 772]); (557, [111; 771; 772]); 
   (558, [79; 775]); (559, [111; 775]); (560, [79; 775; 772]); 
   (561, [111; 775; 772]); (562, [89; 772]); (563, [121; 772]); 
   (832, [768]); (833, [769]); (835, [787]); (836, [776; 769]); 
   (884, [697]); (890, [32; 837]); (894, [59]); (900, [32; 769]); 
   (901, [32; 776; 769]); (902, [913; 769]); (903, [183]); 
   (904, [917; 769]); (905, [919; 769]); (906, [921; 769]); 
   (908, [927; 769]); (910, [933; 769]); (911, [937; 769]); 
   (912, [953; 776; 769]); (938, [921; 776]); (939, [933; 776]); 
   (940, [945; 769]); (941, [949; 769]); (942, [951; 769]); 
   (943, [953; 769]); (944, [965; 776; 769]); (970, [953; 776]); 
   (971, [965; 776]); (972, [959; 769]); (973, [965; 769]); 
   (974, [969; 769]); (976, [946]); (977, [952]); (978, [933]); 
   (979, [933; 769]); (980, [933; 776]); (981, [966]); (982, [960]); 
   (1008, [954]); (1009, [961]); (1010, [962]); (1012, [920]); 
   (1013, [949]); (1017, [931]); (7840, [65; 803]); (7841, [97; 803]); 
   (7842, [65; 777]); (7843, [97; 777]); (7844, [65; 770; 769]); 
   (7845, [97; 770; 769]); (7846, [65; 770; 768]); (7847, [97; 770; 768]); 
   (7848, [65; 770; 777]); (7849, [97; 770; 777]); (7850, [65; 770; 771]); 
   (7851, [97; 770; 771]); (7852, [65; 803; 770]); (7853, [97; 803; 770]); 
   (7854, [65; 774; 769]); (7855, [97; 774; 769]); (7856, [65; 774; 768]); 
   (7857, [97; 774; 768]); (7858, [65; 774; 777]); (7859, [97; 774; 777]); 
   (7860, [65; 774; 771]); (7861, [97; 774; 771]); (7862, [65; 803; 774]); 
   (7863, [97; 803; 774]); (7864, [69; 803]); (7865, [101; 803]); 
   (7866, [69; 777]); (7867, [101; 777]); (7868, [69; 771]); 
   (7869, [101; 771]); (7870, [69; 770; 769]); (7871, [101; 770; 769]); 
   (7872, [69; 770; 768]); (7873, [101; 770; 768]); 
   (7874, [69; 770; 777]); (7875, [101; 770; 777]); 
   (7876, [69; 770; 771]); (7877, [101; 770; 771]); 
   (7878, [69; 803; 770]); (7879, [101; 803; 770]); (7880, [73; 777]); 
   (7881, [105; 777]); (7882, [73; 803]); (7883, [105; 803]); 
   (7884, [79; 803]); (7885, [111; 803]); (7886, [79; 777]); 
   (7887, [111; 777]); (7888, [79; 770; 769]); (7889, [111; 770; 769]); 
   (7890, [79; 770; 768]); (7891, [111; 770; 768]); 
   (7892, [79; 770; 777]); (7893, [111; 770; 777]); 
   (7894, [79; 770; 771]); (7895, [111; 770; 771]); 
   (7896, [79; 803; 770]); (7897, [111; 803; 770]); 
   (7898, [79; 795; 769]); (7899, [111; 795; 769]); 
   (7900, [79; 795; 768]); (7901, [111; 795; 768]); 
   (7902, [79; 795; 777]); (7903, [111; 795; 777]); 
   (7904, [79; 795; 771]); (7905, [111; 795; 771]); 
   (7906, [79; 795; 803]); (7907, [111; 795; 803]); (7908, [85; 803]); 
   (7909, [117; 803]); (7910, [85; 777]); (7911, [117; 777]); 
   (7912, [85; 795; 769]); (7913, [117; 795; 769]); 
   (7914, [85; 795; 768]); (7915, [117; 795; 768]); 
   (7916, [85; 795; 777]); (7917, [117; 795; 777]); 
   (7918, [85; 795; 771]); (7919, [117; 795; 771]); 
   (7920, [85; 795; 803]); (7921, [117; 795; 803]); (7922, [89; 768]); 
   (7923, [121; 768]); (7924, [89; 803]); (7925, [121; 803]); 
   (7926, [89; 777]); (7927, [121; 777]); (7928, [89; 771]); 
   (7929, [121; 771])].
Definition tab_ccc : list (N * N) :=
  [(768, 230); (769, 230); (770, 230); (771, 230); (772, 230); (773, 230); 
   (774, 230); (775, 230); (776, 230); (777, 230); (778, 230); (779, 230); 
   (780, 230); (781, 230); (782, 230); (783, 230); (784, 230); (785, 230); 
   (786, 230); (787, 230); (788, 230); (789, 232); (790, 220); (791, 220); 
   (792, 220); (793, 220); (794, 232); (795, 216); (796, 220); (797, 220); 
   (798, 220); (799, 220); (800, 220); (801, 202); (802, 202); (803, 220); 
   (804, 220); (805, 220); (806, 220); (807, 202); (808, 202); (809, 220); 
   (810, 220); (811, 220); (812, 220); (813, 220); (814, 220); (815, 220); 
   (816, 220); (817, 220); (818, 220); (819, 220); (820, 1); (821, 1); 
   (822, 1); (823, 1); (824, 1); (825, 220); (826, 220); (827, 220); 
   (828, 220); (829, 230); (830, 230); (831, 230); (832, 230); (833, 230); 
   (834, 230); (835, 230); (836, 230); (837, 240); (838, 230); (839, 220); 
   (840, 220); (841, 220); (842, 230); (843, 230); (844, 230); (845, 220); 
   (846, 220); (848, 230); (849, 230); (850, 230); (851, 220); (852, 220); 
   (853, 220); (854, 220); (855, 230); (856, 232); (857, 220); (858, 220); 
   (859, 230); (860, 233); (861, 234); (862, 234); (863, 233); (864, 234); 
   (865, 234); (866, 233); (867, 230); (868, 230); (869, 230); (870, 230); 
   (871, 230); (872, 230); (873, 230); (874, 230); (875, 230); (876, 230); 
   (877, 230); (878, 230); (879, 230)].
Definition tab_lower : list (N * list N) :=
  [(65, [97]); (66, [98]); (67, [99]); (68, [100]); (69, [101]); 
   (70, [102]); (71, [103]); (72, [104]); (73, [105]); (74, [106]); 
   (75, [107]); (76, [108]); (77, [109]); (78, [110]); (79, [111]); 
   (80, [112]); (81, [113]); (82, [114]); (83, [115]); (84, [116]); 
   (85, [117]); (86, [118]); (87, [119]); (88, [120]); (89, [121]); 
   (90, [122]); (192, [224]); (193, [225]); (194, [226]); (195, [227]); 
   (196, [228]); (197, [229]); (198, [230]); (199, [231]); (200, [232]); 
   (201, [233]); (202, [234]); (203, [235]); (204, [236]); (205, [237]); 
   (206, [238]); (207, [239]); (208, [240]); (209, [241]); (210, [242]); 
   (211, [243]); (212, [244]); (213, [245]); (214, [246]); (216, [248]); 
   (217, [249]); (218, [250]); (219, [251]); (220, [252]); (221, [253]); 
   (222, [254]); (256, [257]); (258, [259]); (260, [261]); (262, [263]); 
   (264, [265]); (266, [267]); (268, [269]); (270, [271]); (272, [273]); 
   (274, [275]); (276, [277]); (278, [279]); (280, [281]); (282, [283]); 
   (284, [285]); (286, [287]); (288, [289]); (290, [291]); (292, [293]); 
   (294, [295]); (296, [297]); (298, [299]); (300, [301]); (302, [303]); 
   (304, [105; 775]); (306, [307]); (308, [309]); (310, [311]); 
   (313, [314]); (315, [316]); (317, [318]); (319, [320]); (321, [322]); 
   (323, [324]); (325, [326]); (327, [328]); (330, [331]); (332, [333]); 
   (334, [335]); (336, [337]); (338, [339]); (340, [341]); (342, [343]); 
   (344, [345]); (346, [347]); (348, [349]); (350, [351]); (352, [353]); 
   (354, [355]); (356, [357]); (358, [359]); (360, [361]); (362, [363]); 
   (364, [365]); (366, [367]); (368, [369]); (370, [371]); (372, [373]); 
   (374, [375]); (376, [255]); (377, [378]); (379, [380]); (381, [382]); 
   (385, [595]); (386, [387]); (388, [389]); (390, [596]); (391, [392]); 
   (393, [598]); (394, [599]); (395, [396]); (398, [477]); (399, [601]); 
   (400, [603]); (401, [402]); (403, [608]); (404, [611]); (406, [617]); 
   (407, [616]); (408, [409]); (412, [623]); (413, [626]); (415, [629]); 
   (416, [417]); (418, [419]); (420, [421]); (422, [640]); (423, [424]); 
   (425, [643]); (428, [429]); (430, [648]); (431, [432]); (433, [650]); 
   (434, [651]); (435, [436]); (437, [438]); (439, [658]); (440, [441]); 
   (444, [445]); (452, [454]); (453, [454]); (455, [457]); (456, [457]); 
   (458, [460]); (459, [460]); (461, [462]); (463, [464]); (465, [466]); 
   (467, [468]); (469, [470]); (471, [472]); (473, [474]); (475, [476]); 
   (478, [479]); (480, [481]); (482, [483]); (484, [485]); (486, [487]); 
   (488, [489]); (490, [491]); (492, [493]); (494, [495]); (497, [499]); 
   (498, [499]); (500, [501]); (502, [405]); (503, [447]); (504, [505]); 
   (506, [507]); (508, [509]); (510, [511]); (512, [513]); (514, [515]); 
   (516, [517]); (518, [519]); (520, [521]); (522, [523]); (524, [525]); 
   (526, [527]); (528, [529]); (530, [531]); (532, [533]); (534, [535]); 
   (536, [537]); (538, [539]); (540, [541]); (542, [543]); (544, [414]); 
   (546, [547]); (548, [549]); (550, [551]); (552, [553]); (554, [555]); 
   (556, [557]); (558, [559]); (560, [561]); (562, [563]); (570, [11365]); 
   (571, [572]); (573, [410]); (574, [11366]); (577, [578]); (579, [384]); 
   (580, [649]); (581, [652]); (582, [583]); (584, [585]); (586, [587]); 
   (588, [589]); (590, [591]); (880, [881]); (882, [883]); (886, [887]); 
   (895, [1011]); (902, [940]); (904, [941]); (905, [942]); (906, [943]); 
   (908, [972]); (910, [973]); (911, [974]); (913, [945]); (914, [946]); 
   (915, [947]); (916, [948]); (917, [949]); (918, [950]); (919, [951]); 
   (920, [952]); (921, [953]); (922, [954]); (923, [955]); (924, [956]); 
   (925, [957]); (926, [958]); (927, [959]); (928, [960]); (929, [961]); 
   (931, [963]); (932, [964]); (933, [965]); (934, [966]); (935, [967]); 
   (936, [968]); (937, [969]); (938, [970]); (939, [971]); (975, [983]); 
   (984, [985]); (986, [987]); (988, [989]); (990, [991]); (992, [993]); 
   (994, [995]); (996, [997]); (998, [999]); (1000, [1001]); 
   (1002, [1003]); (1004, [1005]); (1006, [1007]); (1012, [952]); 
   (1015, [1016]); (1017, [1010]); (1018, [1019]); (1021, [891]); 
   (1022, [892]); (1023, [893]); (7840, [7841]); (7842, [7843]); 
   (7844, [7845]); (7846, [7847]); (7848, [7849]); (7850, [7851]); 
   (7852, [7853]); (7854, [7855]); (7856, [7857]); (7858, [7859]); 
   (7860, [7861]); (7862, [7863]); (7864, [7865]); (7866, [7867]); 
   (7868, [7869]); (7870, [7871]); (7872, [7873]); (7874, [7875]); 
   (7876, [7877]); (7878, [7879]); (7880, [7881]); (7882, [7883]); 
   (7884, [7885]); (7886, [7887]); (7888, [7889]); (7890, [7891]); 
   (7892, [7893]); (7894, [7895]); (7896, [7897]); (7898, [7899]); 
   (7900, [7901]); (7902, [7903]); (7904, [7905]); (7906, [7907]); 
   (7908, [7909]); (7910, [7911]); (7912, [7913]); (7914, [7915]); 
   (7916, [7917]); (7918, [7919]); (7920, [7921]); (7922, [7923]); 
   (7924, [7925]); (7926, [7927]); (7928, [7929])].
Definition tab_cased : list N :=
  [65; 66; 67; 68; 69; 70; 71; 72; 73; 74; 75; 76; 77; 78; 79; 80; 81; 82; 
   83; 84; 85; 86; 87; 88; 89; 90; 97; 98; 99; 100; 101; 102; 103; 104; 
   105; 106; 107; 108; 109; 110; 111; 112; 113; 114; 115; 116; 117; 118; 
   119; 120; 121; 122; 170; 181; 186; 192; 193; 194; 195; 196; 197; 198; 
   199; 200; 201; 202; 203; 204; 205; 206; 207; 208; 209; 210; 211; 212; 
   213; 214; 216; 217; 218; 219; 220; 221; 222; 223; 224; 225; 226; 227; 
   228; 229; 230; 231; 232; 233; 234; 235; 236; 237; 238; 239; 240; 241; 
   242; 243; 244; 245; 246; 248; 249; 250; 251; 252; 253; 254; 255; 256; 
   257; 258; 259; 260; 261; 262; 263; 264; 265; 266; 267; 268; 269; 270; 
   271; 272; 273; 274; 275; 276; 277; 278; 279; 280; 281; 282; 283; 284; 
   285; 286; 287; 288; 289; 290; 291; 292; 293; 294; 295; 296; 297; 298; 
   299; 300; 301; 302; 303; 304; 305; 306; 307; 308; 309; 310; 311; 312; 
   313; 314; 315; 316; 317; 318; 319; 320; 321; 322; 323; 324; 325; 326; 
   327; 328; 329; 330; 331; 332; 333; 334; 335; 336; 337; 338; 339; 340; 
   341; 342; 343; 344; 345; 346; 347; 348; 349; 350; 351; 352; 353; 354; 
   355; 356; 357; 358; 359; 360; 361; 362; 363; 364; 365; 366; 367; 368; 
   369; 370; 371; 372; 373; 374; 375; 376; 377; 378; 379; 380; 381; 382; 
   383; 384; 385; 386; 387; 388; 389; 390; 391; 392; 393; 394; 395; 396; 
   397; 398; 399; 400; 401; 402; 403; 404; 405; 406; 407; 408; 409; 410; 
   411; 412; 413; 414; 415; 416; 417; 418; 419; 420; 421; 422; 423; 424; 
   425; 426; 427; 428; 429; 430; 431; 432; 433; 434; 435; 436; 437; 438; 
   439; 440; 441; 442; 444; 445; 446; 447; 452; 453; 454; 455; 456; 457; 
   458; 459; 460; 461; 462; 463; 464; 465; 466; 467; 468; 469; 470; 471; 
   472; 473; 474; 475; 476; 477; 478; 479; 480; 481; 482; 483; 484; 485; 
   486; 487; 488; 489; 490; 491; 492; 493; 494; 495; 496; 497; 498; 499; 
   500; 501; 502; 503; 504; 505; 506; 507; 508; 509; 510; 511; 512; 513; 
   514; 515; 516; 517; 518; 519; 520; 521; 522; 523; 524; 525; 526; 527; 
   528; 529; 530; 531; 532; 533; 534; 535; 536; 537; 538; 539; 540; 541; 
   542; 543; 544; 545; 546; 547; 548; 549; 550; 551; 552; 553; 554; 555; 
   556; 557; 558; 559; 560; 561; 562; 563; 564; 565; 566; 567; 568; 569; 
   570; 571; 572; 573; 574; 575; 576; 577; 578; 579; 580; 581; 582; 583; 
   584; 585; 586; 587; 588; 589; 590; 591; 837; 880; 881; 882; 883; 886; 
   887; 891; 892; 893; 895; 902; 904; 905; 906; 908; 910; 911; 912; 913; 
   914; 915; 916; 917; 918; 919; 920; 921; 922; 923; 924; 925; 926; 927; 
   928; 929; 931; 932; 933; 934; 935; 936; 937; 938; 939; 940; 941; 942; 
   943; 944; 945; 946; 947; 948; 949; 950; 951; 952; 953; 954; 955; 956; 
   957; 958; 959; 960; 961; 962; 963; 964; 965; 966; 967; 968; 969; 970; 
   971; 972; 973; 974; 975; 976; 977; 978; 979; 980; 981; 982; 983; 984; 
   985; 986; 987; 988; 989; 990; 991; 992; 993; 994; 995; 996; 997; 998; 
   999; 1000; 1001; 1002; 1003; 1004; 1005; 1006; 1007; 1008; 1009; 1010; 
   1011; 1012; 1013; 1015; 1016; 1017; 1018; 1019; 1020; 1021; 1022; 1023; 
   7840; 7841; 7842; 7843; 7844; 7845; 7846; 7847; 7848; 7849; 7850; 7851; 
   7852; 7853; 7854; 7855; 7856; 7857; 7858; 7859; 7860; 7861; 7862; 7863; 
   7864; 7865; 7866; 7867; 7868; 7869; 7870; 7871; 7872; 7873; 7874; 7875; 
   7876; 7877; 7878; 7879; 7880; 7881; 7882; 7883; 7884; 7885; 7886; 7887; 
   7888; 7889; 7890; 7891; 7892; 7893; 7894; 7895; 7896; 7897; 7898; 7899; 
   7900; 7901; 7902; 7903; 7904; 7905; 7906; 7907; 7908; 7909; 7910; 7911; 
   7912; 7913; 7914; 7915; 7916; 7917; 7918; 7919; 7920; 7921; 7922; 7923; 
   7924; 7925; 7926; 7927; 7928; 7929].
Definition tab_case_ignorable : list N :=
  [39; 46; 58; 94; 96; 168; 173; 175; 180; 183; 184; 768; 769; 770; 771; 
   772; 773; 774; 775; 776; 777; 778; 779; 780; 781; 782; 783; 784; 785; 
   786; 787; 788; 789; 790; 791; 792; 793; 794; 795; 796; 797; 798; 799; 
   800; 801; 802; 803; 804; 805; 806; 807; 808; 809; 810; 811; 812; 813; 
   814; 815; 816; 817; 818; 819; 820; 821; 822; 823; 824; 825; 826; 827; 
   828; 829; 830; 831; 832; 833; 834; 835; 836; 837; 838; 839; 840; 841; 
   842; 843; 844; 845; 846; 847; 848; 849; 850; 851; 852; 853; 854; 855; 
   856; 857; 858; 859; 860; 861; 862; 863; 864; 865; 866; 867; 868; 869; 
   870; 871; 872; 873; 874; 875; 876; 877; 878; 879; 884; 885; 890; 900; 
   901].
Definition tab_space : list N :=
  [9; 10; 11; 12; 13; 28; 29; 30; 31; 32; 133; 160].
Definition tab_decimal : list (N * N) :=
  [(48, 0); (49, 1); (50, 2); (51, 3); (52, 4); (53, 5); (54, 6); (55, 7); 
   (56, 8); (57, 9)].
Definition tab_alnum : list N :=
  [48; 49; 50; 51; 52; 53; 54; 55; 56; 57; 65; 66; 67; 68; 69; 70; 71; 72; 
   73; 74; 75; 76; 77; 78; 79; 80; 81; 82; 83; 84; 85; 86; 87; 88; 89; 90; 
   97; 98; 99; 100; 101; 102; 103; 104; 105; 106; 107; 108; 109; 110; 111; 
   112; 113; 114; 115; 116; 117; 118; 119; 120; 121; 122; 170; 178; 179; 
   181; 185; 186; 188; 189; 190; 192; 193; 194; 195; 196; 197; 198; 199; 
   200; 201; 202; 203; 204; 205; 206; 207; 208; 209; 210; 211; 212; 213; 
   214; 216; 217; 218; 219; 220; 221; 222; 223; 224; 225; 226; 227; 228; 
   229; 230; 231; 232; 233; 234; 235; 236; 237; 238; 239; 240; 241; 242; 
   243; 244; 245; 246; 248; 249; 250; 251; 252; 253; 254; 255; 256; 257; 
   258; 259; 260; 261; 262; 263; 264; 265; 266; 267; 268; 269; 270; 271; 
   272; 273; 274; 275; 276; 277; 278; 279; 280; 281; 282; 283; 284; 285; 
   286; 287; 288; 289; 290; 291; 292; 293; 294; 295; 296; 297; 298; 299; 
   300; 301; 302; 303; 304; 305; 306; 307; 308; 309; 310; 311; 312; 313; 
   314; 315; 316; 317; 318; 319; 320; 321; 322; 323; 324; 325; 326; 327; 
   328; 329; 330; 331; 332; 333; 334; 335; 336; 337; 338; 339; 340; 341; 
   342; 343; 344; 345; 346; 347; 348; 349; 350; 351; 352; 353; 354; 355; 
   356; 357; 358; 359; 360; 361; 362; 363; 364; 365; 366; 367; 368; 369; 
   370; 371; 372; 373; 374; 375; 376; 377; 378; 379; 380; 381; 382; 383; 
   384; 385; 386; 387; 388; 389; 390; 391; 392; 393; 394; 395; 396; 397; 
   398; 399; 400; 401; 402; 403; 404; 405; 406; 407; 408; 409; 410; 411; 
   412; 413; 414; 415; 416; 417; 418; 419; 420; 421; 422; 423; 424; 425; 
   426; 427; 428; 429; 430; 431; 432; 433; 434; 435; 436; 437; 438; 439; 
   440; 441; 442; 443; 444; 445; 446; 447; 448; 449; 450; 451; 452; 453; 
   454; 455; 456; 457; 458; 459; 460; 461; 462; 463; 464; 465; 466; 467; 
   468; 469; 470; 471; 472; 473; 474; 475; 476; 477; 478; 479; 480; 481; 
   482; 483; 484; 485; 486; 487; 488; 489; 490; 491; 492; 493; 494; 495; 
   496; 497; 498; 499; 500; 501; 502; 503; 504; 505; 506; 507; 508; 509; 
   510; 511; 512; 513; 514; 515; 516; 517; 518; 519; 520; 521; 522; 523; 
   524; 525; 526; 527; 528; 529; 530; 531; 532; 533; 534; 535; 536; 537; 
   538; 539; 540; 541; 542; 543; 544; 545; 546; 547; 548; 549; 550; 551; 
   552; 553; 554; 555; 556; 557; 558; 559; 560; 561; 562; 563; 564; 565; 
   566; 567; 568; 569; 570; 571; 572; 573; 574; 575; 576; 577; 578; 579; 
   580; 581; 582; 583; 584; 585; 586; 587; 588; 589; 590; 591; 880; 881; 
   882; 883; 884; 886; 887; 890; 891; 892; 893; 895; 902; 904; 905; 906; 
   908; 910; 911; 912; 913; 914; 915; 916; 917; 918; 919; 920; 921; 922; 
   923; 924; 925; 926; 927; 928; 929; 931; 932; 933; 934; 935; 936; 937; 
   938; 939; 940; 941; 942; 943; 944; 945; 946; 947; 948; 949; 950; 951; 
   952; 953; 954; 955; 956; 957; 958; 959; 960; 961; 962; 963; 964; 965; 
   966; 967; 968; 969; 970; 971; 972; 973; 974; 975; 976; 977; 978; 979; 
   980; 981; 982; 983; 984; 985; 986; 987; 988; 989; 990; 991; 992; 993; 
   994; 995; 996; 997; 998; 999; 1000; 1001; 1002; 1003; 1004; 1005; 1006; 
   1007; 1008; 1009; 1010; 1011; 1012; 1013; 1015; 1016; 1017; 1018; 1019; 
   1020; 1021; 1022; 1023; 7840; 7841; 7842; 7843; 7844; 7845; 7846; 7847; 
   7848; 7849; 7850; 7851; 7852; 7853; 7854; 7855; 7856; 7857; 7858; 7859; 
   7860; 7861; 7862; 7863; 7864; 7865; 7866; 7867; 7868; 7869; 7870; 7871; 
   7872; 7873; 7874; 7875; 7876; 7877; 7878; 7879; 7880; 7881; 7882; 7883; 
   7884; 7885; 7886; 7887; 7888; 7889; 7890; 7891; 7892; 7893; 7894; 7895; 
   7896; 7897; 7898; 7899; 7900; 7901; 7902; 7903; 7904; 7905; 7906; 7907; 
   7908; 7909; 7910; 7911; 7912; 7913; 7914; 7915; 7916; 7917; 7918; 7919; 
   7920; 7921; 7922; 7923; 7924; 7925; 7926; 7927; 7928; 7929].
Definition tab_ci_key : list (N * N) :=
  [(65, 97); (66, 98); (67, 99); (68, 100); (69, 101); (70, 102); 
   (71, 103); (72, 104); (73, 105); (74, 106); (75, 107); (76, 108); 
   (77, 109); (78, 110); (79, 111); (80, 112); (81, 113); (82, 114); 
   (83, 115); (84, 116); (85, 117); (86, 118); (87, 119); (88, 120); 
   (89, 121); (90, 122); (192, 224); (193, 225); (194, 226); (195, 227); 
   (196, 228); (197, 229); (198, 230); (199, 231); (200, 232); (201, 233); 
   (202, 234); (203, 235); (204, 236); (205, 237); (206, 238); (207, 239); 
   (208, 240); (209, 241); (210, 242); (211, 243); (212, 244); (213, 245); 
   (214, 246); (216, 248); (217, 249); (218, 250); (219, 251); (220, 252); 
   (221, 253); (222, 254); (256, 257); (258, 259); (260, 261); (262, 263); 
   (264, 265); (266, 267); (268, 269); (270, 271); (272, 273); (274, 275); 
   (276, 277); (278, 279); (280, 281); (282, 283); (284, 285); (286, 287); 
   (288, 289); (290, 291); (292, 293); (294, 295); (296, 297); (298, 299); 
   (300, 301); (302, 303); (304, 105); (305, 105); (306, 307); (308, 309); 
   (310, 311); (313, 314); (315, 316); (317, 318); (319, 320); (321, 322); 
   (323, 324); (325, 326); (327, 328); (330, 331); (332, 333); (334, 335); 
   (336, 337); (338, 339); (340, 341); (342, 343); (344, 345); (346, 347); 
   (348, 349); (350, 351); (352, 353); (354, 355); (356, 357); (358, 359); 
   (360, 361); (362, 363); (364, 365); (366, 367); (368, 369); (370, 371); 
   (372, 373); (374, 375); (376, 255); (377, 378); (379, 380); (381, 382); 
   (383, 115); (385, 595); (386, 387); (388, 389); (390, 596); (391, 392); 
   (393, 598); (394, 599); (395, 396); (398, 477); (399, 601); (400, 603); 
   (401, 402); (403, 608); (404, 611); (406, 617); (407, 616); (408, 409); 
   (412, 623); (413, 626); (415, 629); (416, 417); (418, 419); (420, 421); 
   (422, 640); (423, 424); (425, 643); (428, 429); (430, 648); (431, 432); 
   (433, 650); (434, 651); (435, 436); (437, 438); (439, 658); (440, 441); 
   (444, 445); (452, 454); (453, 454); (455, 457); (456, 457); (458, 460); 
   (459, 460); (461, 462); (463, 464); (465, 466); (467, 468); (469, 470); 
   (471, 472); (473, 474); (475, 476); (478, 479); (480, 481); (482, 483); 
   (484, 485); (486, 487); (488, 489); (490, 491); (492, 493); (494, 495); 
   (497, 499); (498, 499); (500, 501); (502, 405); (503, 447); (504, 505); 
   (506, 507); (508, 509); (510, 511); (512, 513); (514, 515); (516, 517); 
   (518, 519); (520, 521); (522, 523); (524, 525); (526, 527); (528, 529); 
   (530, 531); (532, 533); (534, 535); (536, 537); (538, 539); (540, 541); 
   (542, 543); (544, 414); (546, 547); (548, 549); (550, 551); (552, 553); 
   (554, 555); (556, 557); (558, 559); (560, 561); (562, 563); 
   (570, 11365); (571, 572); (573, 410); (574, 11366); (577, 578); 
   (579, 384); (580, 649); (581, 652); (582, 583); (584, 585); (586, 587); 
   (588, 589); (590, 591); (880, 881); (882, 883); (886, 887); 
   (895, 1011); (902, 940); (904, 941); (905, 942); (906, 943); 
   (908, 972); (910, 973); (911, 974); (913, 945); (914, 946); (915, 947); 
   (916, 948); (917, 949); (918, 950); (919, 951); (920, 952); (921, 953); 
   (922, 954); (923, 955); (924, 956); (925, 957); (926, 958); (927, 959); 
   (928, 960); (929, 961); (931, 963); (932, 964); (933, 965); (934, 966); 
   (935, 967); (936, 968); (937, 969); (938, 970); (939, 971); (975, 983); 
   (984, 985); (986, 987); (988, 989); (990, 991); (992, 993); (994, 995); 
   (996, 997); (998, 999); (1000, 1001); (1002, 1003); (1004, 1005); 
   (1006, 1007); (1012, 952); (1015, 1016); (1017, 1010); (1018, 1019); 
   (1021, 891); (1022, 892); (1023, 893); (7840, 7841); (7842, 7843); 
   (7844, 7845); (7846, 7847); (7848, 7849); (7850, 7851); (7852, 7853); 
   (7854, 7855); (7856, 7857); (7858, 7859); (7860, 7861); (7862, 7863); 
   (7864, 7865); (7866, 7867); (7868, 7869); (7870, 7871); (7872, 7873); 
   (7874, 7875); (7876, 7877); (7878, 7879); (7880, 7881); (7882, 7883); 
   (7884, 7885); (7886, 7887); (7888, 7889); (7890, 7891); (7892, 7893); 
   (7894, 7895); (7896, 7897); (7898, 7899); (7900, 7901); (7902, 7903); 
   (7904, 7905); (7906, 7907); (7908, 7909); (7910, 7911); (7912, 7913); 
   (7914, 7915); (7916, 7917); (7918, 7919); (7920, 7921); (7922, 7923); 
   (7924, 7925); (7926, 7927); (7928, 7929)].

Fixpoint assocN {A} (t : list (N * A)) (c : N) : option A :=
  match t with
  | [] => None
  | (k, v) :: r => if k =? c then Some v else assocN r c
  end.

Definition memN (t : list N) (c : N) : bool := existsb (N.eqb c) t.

Definition table_db : UnicodeDB := {|
  u_decomp c := default [c] (assocN tab_decomp c);
  u_ccc c := default 0 (assocN tab_ccc c);
  u_lower c := default [c] (assocN tab_lower c);
  u_cased := memN tab_cased;
  u_case_ignorable := memN tab_case_ignorable;
  u_space := memN tab_space;
  u_decimal := assocN tab_decimal;
  u_alnum := memN tab_alnum;
  u_ci_key c := default c (assocN tab_ci_key c)
|}.

(** ** The QR pipeline *)

(** Modelled from the spec: the QR reader ([IDCardQRReader], imported by
    app.py) is not among the repository's files; these definitions follow
    the spec's description of its parsing: the payload is split on '|';
    fewer than 7 parts raise a format error carrying their number; the
    fields are [idNumber|oldId|fullName|DOBddmmyyyy|sex|residence|issueDateddmmyyyy];
    an 8-character compact date becomes DD/MM/YYYY (no range check), any
    other length the empty string; the nationality is "Việt Nam" and the
    place of origin is the residence. *)
Inductive qr_error := QRFormatError (count : nat).

(** [s.split(sep)] *)
Fixpoint split_on_aux (sep : N) (cur : ustr) (s : ustr) : list ustr :=
  match s with
  | [] => [reverse cur]
  | c :: r => if (c =? sep)%N then reverse cur :: split_on_aux sep [] r else split_on_aux sep (c :: cur) r
  end.

Definition split_on (sep : N) (s : ustr) : list ustr := split_on_aux sep [] s.

Definition format_compact (d : ustr) : ustr :=
  if (length d =? 8)%nat then take 2 d ++ [47] ++ take 2 (drop 2 d) ++ [47] ++ drop 4 d else [].

Definition qr_parse (payload : ustr) : qr_error + dict :=
  let parts := split_on 124 payload in
  match parts with
  | id_number :: old_id :: full_name :: dob :: sex :: residence :: issue_date :: _ =>
      inr (list_to_map
             [("no", id_number); ("old_id", old_id); ("fullname", full_name);
              ("date_of_birth", format_compact dob); ("sex", sex);
              ("nationality", VIET_NAM); ("place_of_origin", residence);
              ("residence", residence); ("issue_date", format_compact issue_date)]%string)
  | _ => inl (QRFormatError (length parts))
  end.

(** ** Predicates used in the statements *)

(** Every canonical key is bound. *)
Definition keys_ok (d : dict) : Prop := ∀ k, k ∈ canonical_keys → is_Some (d !! k).

(** Alias pairs that name a non-canonical alias and a canonical field. *)
Definition aliases_well_formed (al : list (string * string)) : Prop :=
  Forall (fun p => (p.1 ∉ canonical_keys) ∧ (p.2 ∈ canonical_keys)) al.

(** A step on the result dictionary that raises nothing, keeps every
    canonical key bound and changes only the keys [ks]. *)
Definition frame_ok (f : dict -> PyM dict) (ks : list string) : Prop :=
  ∀ d, keys_ok d → ∃ d', f d = inr d' ∧ keys_ok d' ∧ ∀ k, k ∉ ks → d' !! k = d !! k.

(** The value of key [k] in the result of [parse_data]. *)
Definition result_field `{db : UnicodeDB} (inp : parse_input) (k : string) : option ustr :=
  match parse_data inp with inr d => d !! k | inl _ => None end.

(** [e] is the last element of [dates] that differs from [dob], or the
    empty string when every element equals [dob]. *)
Definition last_other (dates : list ustr) (dob e : ustr) : Prop :=
  (e = [] ∧ ∀ x, x ∈ dates → x = dob) ∨
  (∃ pre post, dates = pre ++ e :: post ∧ e ≠ dob ∧ ∀ x, x ∈ post → x = dob).

(** The sex value by the order of the searches: the label value first, the
    whole normalized text after it; in each, "nam"/"male" before
    "nu"/"female"; empty when no token is found. *)
Definition sex_by_precedence `{db : UnicodeDB} (label_value full : ustr) : ustr :=
  if has_match re_male label_value then SEX_NAM
  else if has_match re_female label_value then SEX_NU
  else if has_match re_male full then SEX_NAM
  else if has_match re_female full then SEX_NU
  else [].

(** The first item of a ranked list has a key no other item exceeds. *)
Definition head_max (l : list (ustr * nat)) : Prop :=
  match l with
  | [] => True
  | h :: _ => ∀ z, z ∈ l → key_lt (rank_key h) (rank_key z) = false
  end.

(** The repetition loop of [mt] for the pattern [\s+] ([re_ws]) under the
    continuation [accept] of [match_at], written out as [mt] unfolds it. *)
Definition ws_go `{db : UnicodeDB} (s : ustr) : nat -> nat -> nat -> caps -> option (nat * caps) :=
  fix go (fuel cnt i : nat) (cs : caps) : option (nat * caps) :=
  match fuel with
  | O => None
  | S fuel' =>
      if (cnt <? 1)%nat then
        match s !! i with
        | Some d => if class_matches false false [CSpace] d
                    then go fuel' (S cnt) (S i) cs else None
        | None => None
        end
      else
        match (if hi_allows None cnt
               then match s !! i with
                    | Some d => if class_matches false false [CSpace] d
                                then (if (S i =? i)%nat then None
                                      else go fuel' (S cnt) (S i) cs)
                                else None
                    | None => None
                    end
               else None) with
        | Some x => Some x
        | None => accept i cs
        end
  end.

(** The length of the run of whitespace at the head of a string. *)
Fixpoint space_run `{db : UnicodeDB} (l : ustr) : nat :=
  match l with
  | c :: r => if u_space c then S (space_run r) else O
  | [] => O
  end.

(** Every maximal run of whitespace replaced by one space; [prev] tells
    whether the preceding character was whitespace. *)
Fixpoint collapse_ws `{db : UnicodeDB} (prev : bool) (l : ustr) : ustr :=
  match l with
  | [] => []
  | c :: r =>
      if u_space c then (if prev then collapse_ws true r else 32 :: collapse_ws true r)
      else c :: collapse_ws false r
  end.

(** A character the normalization leaves alone: its own decomposition,
    combining class 0, its own lowercase, and not GREEK CAPITAL LETTER SIGMA. *)
Definition norm_stable `{db : UnicodeDB} (c : N) : bool :=
  bool_decide (u_decomp c = [c]) && (u_ccc c =? 0) && bool_decide (u_lower c = [c])
  && negb (c =? 931).

(** Every starter of the decomposition of [x] other than U+03A3 lowercases
    to characters the normalization leaves alone. *)
Definition norm_closed `{db : UnicodeDB} (x : N) : bool :=
  forallb (fun c => if (u_ccc c =? 0) && negb (c =? 931) then forallb norm_stable (u_lower c)
                    else true) (u_decomp x).

(** ** Further definitions of the source *)

(** No two adjacent characters are both whitespace. *)
Fixpoint single_spaced `{db : UnicodeDB} (l : ustr) : bool :=
  match l with
  | c :: ((d :: _) as r) => negb (u_space c && u_space d) && single_spaced r
  | _ => true
  end.

(** The first and the last character of [s] fail [p]. *)
Definition edges_avoid (p : N -> bool) (s : ustr) : Prop :=
  ∀ x, head s = Some x ∨ last s = Some x → p x = false.

(** [s.rfind(ch)] for one character: the last index, -1 when absent. *)
Definition py_rfind1 (ch : N) (s : ustr) : Z :=
  match list_find (fun c => c = ch) (reverse s) with
  | Some (i, _) => (Z.of_nat (length s) - 1 - Z.of_nat i)%Z
  | None => (-1)%Z
  end.

(** The [while] loop of [genericpath._splitext]; it runs at most
    [dotIndex] rounds. *)
Fixpoint skip_leading_dots (p : ustr) (dotIndex : nat) (fuel filenameIndex : nat) : ustr * ustr :=
  match fuel with
  | O => (p, [])
  | S f =>
      if (filenameIndex <? dotIndex)%nat then
        if bool_decide (take 1 (drop filenameIndex p) ≠ [46])
        then (take dotIndex p, drop dotIndex p)
        else skip_leading_dots p dotIndex f (S filenameIndex)
      else (p, [])
  end.

(** [os.path.splitext] on POSIX: [genericpath._splitext(p, '/', None, '.')]. *)
Definition splitext (p : ustr) : ustr * ustr :=
  let sepIndex := py_rfind1 47 p in
  let dotIndex := py_rfind1 46 p in
  if (sepIndex <? dotIndex)%Z then
    skip_leading_dots p (Z.to_nat dotIndex) (Z.to_nat dotIndex) (Z.to_nat (sepIndex + 1))
  else (p, []).

(** app.py [safe_output_name] *)
Definition safe_output_name `{db : UnicodeDB} (filename : ustr) : ustr :=
  let '(base, _) := splitext filename in
  let cleaned := map (fun ch => if u_alnum ch || (ch =? 45) || (ch =? 95) then ch else 95) base in
  py_or cleaned (u "result").

(** [str.isdigit]: the characters of numeric type Decimal or Digit.  The
    rest of the code does not read it, so it has a class of its own. *)
Class DigitDB := { u_isdigit : N -> bool }.

(** [str.isdigit] on the code points [table_db] covers: the ASCII digits
    and the superscripts two, three and one. *)
Definition digit_table : DigitDB := {|
  u_isdigit c := ((48 <=? c) && (c <=? 57)) || memN [178; 179; 185] c
|}.

Module App.

(** A cell of column B of the active worksheet: its row number and its
    value, [Some t] standing for a value whose [str()] is [t]. *)
Record xl_cell := { cell_row : N; cell_value : option ustr }.

(** The dictionary of an extracted number, its four keys as fields. *)
Record tkhq_entry := { number : ustr; file : ustr; sheet : ustr; cell : ustr }.

(** The two [ValueError]s of [extract_tkhq_numbers_from_excel], with the
    file name their messages carry. *)
Inductive tkhq_error := StartNotFound (filename : ustr) | NoNumbers (filename : ustr).

Definition START_MARKER_TEXT : ustr := u "Số TKHQ hàng hóa nhập khẩu đã thông quan".
Definition END_MARKER_TEXT : ustr := u "Tổng cộng".

Section Excel.
Context `{db : UnicodeDB} `{ddb : DigitDB}.

(** app.py [_normalize_text] *)
Definition _normalize_text (value : option ustr) : ustr :=
  match value with
  | None => []
  | Some t => py_lower (py_strip t)
  end.

(** The [for] loop of [extract_tkhq_numbers_from_excel]: the value of
    [in_extract_range] when it ends, and the entries it appends. *)
Fixpoint tkhq_loop (start_marker end_marker filename title : ustr) (in_extract_range : bool)
    (cells : list xl_cell) : bool * list tkhq_entry :=
  match cells with
  | [] => (in_extract_range, [])
  | cl :: rest =>
      let normalized := _normalize_text (cell_value cl) in
      if negb in_extract_range then
        tkhq_loop start_marker end_marker filename title
          (bool_decide (normalized = start_marker)) rest
      else if bool_decide (normalized = end_marker) then (in_extract_range, [])
      else
        let raw_text := match cell_value cl with Some t => py_strip t | None => [] end in
        let digits_only := filter u_isdigit raw_text in
        let '(fin, entries) := tkhq_loop start_marker end_marker filename title true rest in
        (fin, match digits_only with
              | [] => entries
              | _ => {| number := digits_only; file := filename; sheet := title;
                        cell := u "B" ++ py_str_N (cell_row cl) |} :: entries
              end)
  end.

(** app.py [extract_tkhq_numbers_from_excel], from the title of the active
    worksheet and the cells of its column B, in row order. *)
Definition extract_tkhq_numbers_from_excel (title : ustr) (cells : list xl_cell)
    (filename : ustr) : tkhq_error + list tkhq_entry :=
  let start_marker := _normalize_text (Some START_MARKER_TEXT) in
  let end_marker := _normalize_text (Some END_MARKER_TEXT) in
  let '(in_extract_range, extracted_entries) :=
    tkhq_loop start_marker end_marker filename title false cells in
  if negb in_extract_range then inl (StartNotFound filename)
  else match extracted_entries with
       | [] => inl (NoNumbers filename)
       | _ => inr extracted_entries
       end.

End Excel.
End App.

(** The entry the loop of [extract_tkhq_numbers_from_excel] appends for a
    cell inside the range, if any: the digits of its stripped text. *)
Definition cell_entry `{db : UnicodeDB} `{ddb : DigitDB} (filename title : ustr)
    (cl : App.xl_cell) : option App.tkhq_entry :=
  let digits := filter u_isdigit (match App.cell_value cl with Some t => py_strip t | None => [] end) in
  match digits with
  | [] => None
  | _ => Some {| App.number := digits; App.file := filename; App.sheet := title;
                 App.cell := u "B" ++ py_str_N (App.cell_row cl) |}
  end.

Definition is_start_cell `{db : UnicodeDB} (cl : App.xl_cell) : Prop :=
  App._normalize_text (App.cell_value cl) = App._normalize_text (Some App.START_MARKER_TEXT).
Definition is_end_cell `{db : UnicodeDB} (cl : App.xl_cell) : Prop :=
  App._normalize_text (App.cell_value cl) = App._normalize_text (Some App.END_MARKER_TEXT).

(** [a < b] on floats *)
Definition Qlt_bool (a b : Q) : bool := negb (Qle_bool b a).

(** A [dict] keeping the order in which its keys were first inserted. *)
Abbreviation odict := (list (ustr * observation)).

(** [d.get(k)] *)
Fixpoint odict_get (k : ustr) (d : odict) : option observation :=
  match d with
  | [] => None
  | (k', v) :: r => if bool_decide (k = k') then Some v else odict_get k r
  end.

(** [d[k] = v]: a new key goes last, an old one keeps its place. *)
Fixpoint odict_set (k : ustr) (v : observation) (d : odict) : odict :=
  match d with
  | [] => [(k, v)]
  | (k', v') :: r => if bool_decide (k = k') then (k, v) :: r else (k', v') :: odict_set k v r
  end.

(** The argument of [extract_text]: the dictionary [preprocess_image]
    returns (its entries "processed", "gray", "original" and
    "original_path", [None] for a missing one), or anything else. *)
Inductive ocr_image (V : Type) :=
| ImageDict (processed gray original original_path : option V)
| ImageOther (image : option V).
Arguments ImageDict {V} _ _ _ _.
Arguments ImageOther {V} _.

(** [min()] of a list of numbers; [None] when it raises [ValueError]
    (empty argument). *)
Definition py_min (l : list Q) : option Q :=
  match l with
  | [] => None
  | x :: r => Some (foldl (fun m y => if Qlt_bool y m then y else m) x r)
  end.

(** [<] on the tuples [(min_y, min_x)]. *)
Definition order_lt (a b : Q * Q) : bool :=
  if Qeq_bool a.1 b.1 then Qlt_bool a.2 b.2 else Qlt_bool a.1 b.1.

(** [list.sort] with a key: a stable sort; an element goes after the
    elements whose key is not greater than its own. *)
Fixpoint insert_by_key (x : (Q * Q) * observation) (l : list ((Q * Q) * observation))
    : list ((Q * Q) * observation) :=
  match l with
  | [] => [x]
  | y :: r => if order_lt x.1 y.1 then x :: y :: r else y :: insert_by_key x r
  end.

Definition sort_by_key (l : list ((Q * Q) * observation)) : list ((Q * Q) * observation) :=
  foldl (fun acc x => insert_by_key x acc) [] l.

Section ExtractText.
Context `{db : UnicodeDB}.
(** [self.reader.readtext(variant, detail=1, paragraph=False,
    text_threshold=0.6, low_text=0.2)]: the recognition items, each a
    [(bbox, text, conf)] triple. *)
Context {V : Type} (readtext : V -> list observation).

(** The body of the inner [for] loop. *)
Definition merge_item (best_by_text : odict) (item : observation) : odict :=
  if negb (extract_text_keeps item) then best_by_text
  else
    let text := py_strip (obs_text item) in
    let conf := obs_conf item in
    let key := _normalize_text text in
    match odict_get key best_by_text with
    | None => odict_set key item best_by_text
    | Some existing =>
        if Qlt_bool (obs_conf existing) conf then odict_set key item best_by_text
        else best_by_text
    end.

(** [reading_order_key]; [None] when [min] raises (an empty box). *)
Definition reading_order_key (item : observation) : option (Q * Q) :=
  let xs := map fst (obs_bbox item) in
  let ys := map snd (obs_bbox item) in
  match py_min ys, py_min xs with
  | Some y, Some x => Some (y, x)
  | _, _ => None
  end.

Definition image_variants (image : ocr_image V) : list (option V) :=
  match image with
  | ImageDict processed gray original original_path => [processed; gray; original; original_path]
  | ImageOther image => [image]
  end.

Definition merge_variants (variants : list (option V)) : odict :=
  foldl (fun best_by_text variant =>
           match variant with
           | None => best_by_text
           | Some v => foldl merge_item best_by_text (readtext v)
           end) [] variants.

(** [IDCardOCR.extract_text]; [None] when the sort raises [ValueError]. *)
Definition extract_text (image : ocr_image V) : option (list observation) :=
  let merged := map snd (merge_variants (image_variants image)) in
  keyed ← mapM (fun item => (fun k => (k, item)) <$> reading_order_key item) merged;
  Some (map snd (sort_by_key keyed)).

End ExtractText.

(** The key [extract_text] files an item under. *)
Definition ocr_key `{db : UnicodeDB} (o : observation) : ustr := _normalize_text (py_strip (obs_text o)).

(** Two neighbours in reading order: the key of the second is not smaller. *)
Definition reading_ordered `{db : UnicodeDB} (a b : observation) : Prop :=
  match reading_order_key a, reading_order_key b with
  | Some ka, Some kb => order_lt kb ka = false
  | _, _ => False
  end.

(** The entries of the [best_by_text] dictionary: distinct keys, each the
    key of its item, every item kept by the filter and satisfying [P]. *)
Definition best_ok `{db : UnicodeDB} (P : observation -> Prop) (d : odict) : Prop :=
  NoDup d.*1 ∧ ∀ k o, (k, o) ∈ d → k = ocr_key o ∧ extract_text_keeps o = true ∧ P o.

(** Every entry of [d] has an entry of [d'] under its key with a
    confidence at least as high. *)
Definition dominated (d d' : odict) : Prop :=
  ∀ k o, (k, o) ∈ d → ∃ o', (k, o') ∈ d' ∧ (obs_conf o <= obs_conf o')%Q.

(** One round of the outer [for] loop of [extract_text]. *)
Definition variant_step `{db : UnicodeDB} {V : Type} (readtext : V -> list observation)
    (d : odict) (variant : option V) : odict :=
  match variant with None => d | Some v => foldl merge_item d (readtext v) end.

(** Two keyed items in sorted order. *)
Definition key_le (p q : (Q * Q) * observation) : Prop := order_lt q.1 p.1 = false.

(** The repetition loop of [mt] for [r+], [r] a character class, under the
    continuation [accept], written out as [mt] unfolds it. *)
Definition cls_go `{db : UnicodeDB} (items : list cls_item) (s : ustr)
    : nat -> nat -> nat -> caps -> option (nat * caps) :=
  fix go (fuel cnt i : nat) (cs : caps) : option (nat * caps) :=
  match fuel with
  | O => None
  | S fuel' =>
      if (cnt <? 1)%nat then
        match s !! i with
        | Some d => if class_matches false false items d
                    then go fuel' (S cnt) (S i) cs else None
        | None => None
        end
      else
        match (if hi_allows None cnt
               then match s !! i with
                    | Some d => if class_matches false false items d
                                then (if (S i =? i)%nat then None
                                      else go fuel' (S cnt) (S i) cs)
                                else None
                    | None => None
                    end
               else None) with
        | Some x => Some x
        | None => accept i cs
        end
  end.

(** The length of the run of characters of a class at the head of a string. *)
Fixpoint cls_run `{db : UnicodeDB} (items : list cls_item) (l : ustr) : nat :=
  match l with
  | c :: r => if class_matches false false items c then S (cls_run items r) else O
  | [] => O
  end.

Definition lead_items : list cls_item := [CDigit; CNotWord; CChar 95].

(** ** Example inputs *)

(** A dictionary with its canonical keys bound to non-empty values. *)
Definition sample_record : dict :=
  list_to_map (map (fun k => (k, u "x")) canonical_keys).

(** An observation with confidence 0.22. *)
Definition obs_0_22 : observation := {| obs_bbox := []; obs_text := u "Nữ"; obs_conf := 22 # 100 |}.

(** The three lines of the place-of-origin example. *)
Definition origin_example_lines : list ustr := map u ["Quê quán:"; "Hà Nội"; "Giới tính: Nam"]%string.

(** A date of birth in compact form, and one slash date. *)
Definition expiry_example_lines : list ustr := map u ["Ngay sinh: 01012000"; "12/05/2030"]%string.

(** The identity-number candidates of the spec's example, and a tie. *)
Definition id_vote_example : list ustr := map u ["079123456789"; "079123456789"; "012345678901"]%string.
Definition id_tie_example : list ustr := map u ["112345678901"; "012345678901"]%string.

(** A payload with five fields. *)
Definition qr_five_fields : ustr := u "049205000868|206454491|Đặng Bảo Khoa|01072005|Nam".

Definition label_lines_example : list ustr :=
  map u ["Họ và tên:  Nguyễn  Văn A ."; "Ngày sinh"; "01/02/1990"]%string.
Definition label_list_example : list ustr := map u ["ho va ten"; "ngay sinh"]%string.

Definition ocr_box (x y : Q) : list (Q * Q) := [(x, y); (x + 10, y); (x + 10, y + 5); (x, y + 5)]%Q.
Definition ocr_item_1 : observation := {| obs_bbox := ocr_box 0 20; obs_text := u "Nguyễn Văn A"; obs_conf := 9 # 10 |}.
Definition ocr_item_2 : observation := {| obs_bbox := ocr_box 0 0; obs_text := u " HỌ VÀ TÊN "; obs_conf := 1 # 2 |}.
Definition ocr_item_3 : observation := {| obs_bbox := ocr_box 0 21; obs_text := u "nguyen van a"; obs_conf := 95 # 100 |}.
Definition ocr_item_4 : observation := {| obs_bbox := ocr_box 30 0; obs_text := u "x"; obs_conf := 1 # 10 |}.
Definition readtext_example (n : nat) : list observation :=
  match n with O => [ocr_item_1; ocr_item_2; ocr_item_4] | _ => [ocr_item_3] end.
Definition image_example : ocr_image nat := ImageDict (Some O) None (Some 1%nat) None.

Definition xl (r : N) (t : option string) : App.xl_cell := {| App.cell_row := r; App.cell_value := option_map u t |}.
Definition sheet_pre : list App.xl_cell := [xl 1 (Some "Bảng kê")]%string.
Definition sheet_start : App.xl_cell := xl 2 (Some "  số TKHQ hàng hóa nhập khẩu đã thông quan ")%string.
Definition sheet_mid : list App.xl_cell := [xl 3 (Some " 10123 "); xl 4 None; xl 5 (Some "ghi chú"); xl 6 (Some "305/A")]%string.
Definition sheet_post : list App.xl_cell := [xl 7 (Some "Tổng cộng"); xl 8 (Some "999")]%string.

(** * Properties *)

(** ** Alias composition *)

Lemma keys_ok_insert (d : dict) k v : keys_ok d → keys_ok (<[k := v]> d).
Proof.
  intros Hd k' Hk'. destruct (decide (k = k')) as [->|Hne].
  - rewrite lookup_insert_eq. eauto.
  - rewrite lookup_insert_ne by done. auto.
Qed.

Lemma getitem_ok (d : dict) k : k ∈ canonical_keys → keys_ok d → ∃ v, py_getitem d k = inr v ∧ d !! k = Some v.
Proof.
  intros Hk Hd. destruct (Hd k Hk) as [v Hv]. exists v. unfold py_getitem. by rewrite Hv.
Qed.

Lemma alias_map_well_formed : aliases_well_formed alias_map ∧ NoDup alias_map.*1.
Proof. split; [apply Forall_forall | ]; [|apply (bool_decide_unpack _); vm_compute; reflexivity].
  intros p Hp. apply (bool_decide_unpack _). revert p Hp.
  apply Forall_forall. apply (bool_decide_unpack _). vm_compute. reflexivity.
Qed.

Lemma set_aliases_spec al (d : dict) :
  aliases_well_formed al → keys_ok d →
  ∃ d', set_aliases al d = inr d' ∧ keys_ok d' ∧
        (∀ x, x ∉ al.*1 → d' !! x = d !! x) ∧
        (NoDup al.*1 → ∀ a k, (a, k) ∈ al → d' !! a = d !! k).
Proof.
  revert d. induction al as [|[a k] rest IH]; intros d Hwf Hd; simpl.
  - exists d. repeat split; auto. intros _ a k Hin. by apply elem_of_nil in Hin.
  - apply Forall_cons in Hwf as [[Ha Hk] Hwf]. simpl in Ha, Hk.
    destruct (getitem_ok d k Hk Hd) as [v [Hget Hv]]. rewrite Hget. simpl.
    destruct (IH (<[a := v]> d) Hwf (keys_ok_insert d a v Hd)) as (d' & Hrun & Hok & Hother & Hal).
    exists d'. split; [exact Hrun|]. split; [exact Hok|]. split.
    + intros x Hx. rewrite Hother by set_solver. rewrite lookup_insert_ne by set_solver. done.
    + intros Hnd a' k' Hin. apply NoDup_cons in Hnd as [Hnotin Hnd].
      apply elem_of_cons in Hin as [Heq|Hin].
      * injection Heq as -> ->. rewrite Hother by done. rewrite lookup_insert_eq. done.
      * rewrite (Hal Hnd a' k' Hin).
        assert (k' ∈ canonical_keys) as Hk'.
        { eapply Forall_forall in Hwf; [|exact Hin]. apply Hwf. }
        rewrite lookup_insert_ne; [done|]. intros ->. apply Ha. done.
Qed.

Lemma apply_aliases_spec al (d : dict) :
  aliases_well_formed al →
  (∀ x, x ∉ al.*1 → foldl (fun d '(alias, key) => <[alias := default [] (d !! key)]> d) d al !! x = d !! x) ∧
  (NoDup al.*1 → ∀ a k, (a, k) ∈ al →
     foldl (fun d '(alias, key) => <[alias := default [] (d !! key)]> d) d al !! a
     = Some (default [] (d !! k))).
Proof.
  revert d. induction al as [|[a k] rest IH]; intros d Hwf; simpl.
  - split; [done|]. intros _ a k Hin. by apply elem_of_nil in Hin.
  - apply Forall_cons in Hwf as [[Ha Hk] Hwf]. simpl in Ha, Hk.
    destruct (IH (<[a := default [] (d !! k)]> d) Hwf) as [Hother Hal]. split.
    + intros x Hx. rewrite Hother by set_solver. rewrite lookup_insert_ne by set_solver. done.
    + intros Hnd a' k' Hin. apply NoDup_cons in Hnd as [Hnotin Hnd].
      apply elem_of_cons in Hin as [Heq|Hin].
      * injection Heq as -> ->. rewrite Hother by done. by rewrite lookup_insert_eq.
      * rewrite (Hal Hnd a' k' Hin).
        assert (k' ∈ canonical_keys) as Hk'.
        { eapply Forall_forall in Hwf; [|exact Hin]. apply Hwf. }
        rewrite lookup_insert_ne; [done|]. intros ->. apply Ha. done.
Qed.

(** ** No exception: index safety of the loops *)

Lemma py_index_lt {A} `{!Inhabited A} (l : list A) i : (i < length l)%nat → py_index l i = inr (l !!! i).
Proof. intros Hi. unfold py_index. by rewrite (list_lookup_lookup_total_lt l i Hi). Qed.

Section LoopSafety.
Context `{db : UnicodeDB}.

Ltac idx := rewrite py_index_lt by lia; cbn [py_bind py_ret].

Lemma extract_value_loop_ok lines labels nls : ∀ index,
  (index + length nls <= length lines)%nat → ∃ v, extract_value_loop lines labels index nls = inr v.
Proof.
  induction nls as [|nl rest IH]; intros index Hlen; cbn [extract_value_loop length] in *; [eauto|].
  destruct (existsb _ _); [|apply IH; lia]. idx.
  destruct (_extract_after_label _ _); [|eauto].
  destruct (Nat.ltb_spec (S index) (length lines)); [|apply IH; lia]. idx.
  destruct (_clean_value _); [apply IH; lia|eauto].
Qed.

Lemma date_label_loop_ok hit lines nls : ∀ index,
  (index + length nls <= length lines)%nat → ∃ v, date_label_loop hit lines index nls = inr v.
Proof.
  induction nls as [|nl rest IH]; intros index Hlen; cbn [date_label_loop length] in *; [eauto|].
  destruct (hit nl); [|apply IH; lia]. idx.
  destruct (_normalize_date_text _); [|eauto].
  destruct (_normalize_compact_date _); [|eauto].
  destruct (Nat.ltb_spec (S index) (length lines)); [|apply IH; lia]. idx.
  destruct (_normalize_date_text _); [|eauto].
  destruct (_normalize_compact_date _); [apply IH; lia|eauto].
Qed.

Lemma fullname_loop_ok lines nls : ∀ i,
  (i + length nls <= length lines)%nat → ∃ v, fullname_loop lines i nls = inr v.
Proof.
  induction nls as [|nl rest IH]; intros i Hlen; cbn [fullname_loop length] in *; [eauto|].
  destruct (existsb _ _); [|apply IH; lia]. idx.
  destruct (match _extract_after_label _ _ with [] => None | _ => _ end); [eauto|].
  destruct (Nat.ltb_spec (S i) (length lines)); [|apply IH; lia]. idx.
  destruct (_ && _); [eauto|apply IH; lia].
Qed.

Lemma accumulate_ok stops mp lines nls : length nls = length lines →
  ∀ fuel j parts, ∃ v, accumulate stops mp lines nls fuel j parts = inr v.
Proof.
  intros Hn. induction fuel as [|f IH]; intros j parts; cbn [accumulate]; [eauto|].
  destruct (Nat.ltb_spec j (length lines)); [|eauto]. idx.
  destruct (_line_has_any_label _ _); [eauto|]. idx.
  destruct (has_match _ _); [eauto|].
  destruct (_ <=? _)%nat; eauto.
Qed.

Lemma label_parts_ok labels stops mp lines nls_all nls : length nls_all = length lines →
  ∀ i, (i + length nls <= length lines)%nat → ∃ v, label_parts labels stops mp lines nls_all i nls = inr v.
Proof.
  intros Hn. induction nls as [|nl rest IH]; intros i Hlen; cbn [label_parts length] in *; [eauto|].
  destruct (existsb _ _); [|apply IH; lia]. idx.
  match goal with
  | |- context [accumulate ?st ?m ?l ?n ?fu ?j ?p] => destruct (accumulate_ok st m l n Hn fu j p) as [v ->]
  end.
  cbn [py_bind py_ret]. eauto.
Qed.

End LoopSafety.

(** ** No exception: each section of [parse_data] *)

Ltac canon_key := apply (bool_decide_unpack _); vm_compute; exact I.

Ltac getitem_step :=
  match goal with
  | |- context [py_getitem ?d ?k] =>
      let v := fresh "v" in let Hv := fresh "Hv" in
      destruct (getitem_ok d k ltac:(canon_key) ltac:(repeat apply keys_ok_insert; assumption))
        as [v [Hv _]]; rewrite Hv
  end.

Ltac frame_leaf :=
  eexists; split; [reflexivity|]; split;
  [repeat apply keys_ok_insert; assumption
  |let k := fresh "k" in let Hk := fresh "Hk" in
   intros k Hk; rewrite ?lookup_insert_ne by (clear - Hk; set_solver); reflexivity].

Ltac frame_run :=
  repeat (cbn beta iota zeta delta [py_bind py_ret];
          first [getitem_step | case_match | frame_leaf]).

Ltac len_ok := cbn [c_lines c_nlines mk_ctx]; rewrite ?length_map; lia.

Ltac loops_ok :=
  repeat match goal with
  | |- context [extract_value_loop ?l ?lb ?i ?n] =>
      destruct (extract_value_loop_ok l lb n i ltac:(len_ok)) as [? ->]
  | |- context [date_label_loop ?h ?l ?i ?n] =>
      destruct (date_label_loop_ok h l n i ltac:(len_ok)) as [? ->]
  | |- context [fullname_loop ?l ?i ?n] =>
      destruct (fullname_loop_ok l n i ltac:(len_ok)) as [? ->]
  | |- context [label_parts ?lb ?st ?m ?l ?na ?i ?n] =>
      destruct (label_parts_ok lb st m l na n ltac:(len_ok) i ltac:(len_ok)) as [? ->]
  end.

Section Sections.
Context `{db : UnicodeDB}.
Variable lines : list ustr.

Lemma mk_ctx_len : length (c_nlines (mk_ctx lines)) = length (c_lines (mk_ctx lines)).
Proof. simpl. apply length_map. Qed.

Lemma section_no_ok : frame_ok (section_no (mk_ctx lines)) ["no"]%string.
Proof.
  intros d Hd. unfold section_no, _extract_value_from_lines. loops_ok. frame_run.
Qed.

Lemma section_dob_ok : frame_ok (section_dob (mk_ctx lines)) ["date_of_birth"]%string.
Proof. intros d Hd. unfold section_dob. loops_ok. frame_run. Qed.

Lemma section_sex_ok : frame_ok (section_sex (mk_ctx lines)) ["sex"]%string.
Proof. intros d Hd. unfold section_sex, _extract_value_from_lines. loops_ok. frame_run. Qed.

Lemma section_fullname_ok : frame_ok (section_fullname (mk_ctx lines)) ["fullname"]%string.
Proof. intros d Hd. unfold section_fullname. loops_ok. frame_run. Qed.

Lemma section_nationality_ok : frame_ok (section_nationality (mk_ctx lines)) ["nationality"]%string.
Proof. intros d Hd. unfold section_nationality, _extract_value_from_lines. loops_ok. frame_run. Qed.

Lemma section_origin_ok : frame_ok (section_origin (mk_ctx lines)) ["place_of_origin"]%string.
Proof. intros d Hd. unfold section_origin, origin_parts. loops_ok. frame_run. Qed.

Lemma section_residence_ok : frame_ok (section_residence (mk_ctx lines)) ["residence"]%string.
Proof. intros d Hd. unfold section_residence. loops_ok. frame_run. Qed.

Lemma section_expiry_ok : frame_ok (section_expiry (mk_ctx lines)) ["expiry_date"]%string.
Proof. intros d Hd. unfold section_expiry. loops_ok. frame_run. Qed.

Lemma section_residence_default_ok : frame_ok section_residence_default ["residence"]%string.
Proof. intros d Hd. unfold section_residence_default. frame_run. Qed.

End Sections.

Lemma frame_bind (f g : dict -> PyM dict) ks1 ks2 :
  frame_ok f ks1 → frame_ok g ks2 → frame_ok (fun d => let* d := f d in g d) (ks1 ++ ks2).
Proof.
  intros Hf Hg d Hd. destruct (Hf d Hd) as (d1 & Hr1 & Hd1 & H1).
  destruct (Hg d1 Hd1) as (d2 & Hr2 & Hd2 & H2). exists d2.
  split; [rewrite Hr1; exact Hr2|]. split; [done|].
  intros k Hk. rewrite H2 by set_solver. apply H1. set_solver.
Qed.

Ltac run_section L :=
  let Hr := fresh "Hr" in
  destruct (L _ ltac:(eassumption)) as (? & Hr & ? & ?); rewrite Hr; cbn [py_bind]; clear Hr.

Lemma init_data_keys : keys_ok init_data.
Proof.
  intros k Hk. unfold canonical_keys in Hk.
  repeat (apply elem_of_cons in Hk as [->|Hk]; [eexists; vm_compute; reflexivity|]).
  by apply elem_of_nil in Hk.
Qed.

Lemma alias_keys_bound (d : dict) :
  keys_ok d → ∃ d', set_aliases alias_map d = inr d' ∧
    ∀ k, k ∈ canonical_keys ++ alias_map.*1 → is_Some (d' !! k).
Proof.
  intros Hd. destruct alias_map_well_formed as [Hwf Hnd].
  destruct (set_aliases_spec alias_map d Hwf Hd) as (d' & Hr & Hok & _ & Hal).
  exists d'. split; [exact Hr|]. intros k Hk. apply elem_of_app in Hk as [Hk|Hk]; [by apply Hok|].
  apply list_elem_of_fmap in Hk as ([a k'] & -> & Hin). simpl.
  rewrite (Hal Hnd a k' Hin). apply Hd.
  eapply Forall_forall in Hwf; [|exact Hin]. apply Hwf.
Qed.

Section Pipeline.
Context `{db : UnicodeDB}.

(** The sections of [parse_data] raise nothing and leave every canonical key
    bound; the alias step then runs on their result. *)
Lemma parse_data_sections (inp : parse_input) :
  ∃ d, keys_ok d ∧ parse_data inp = set_aliases alias_map d.
Proof.
  unfold parse_data, parse_lines. cbv zeta.
  pose proof init_data_keys as K0.
  run_section (section_no_ok (input_lines inp)).
  run_section (section_dob_ok (input_lines inp)).
  run_section (section_sex_ok (input_lines inp)).
  run_section (section_fullname_ok (input_lines inp)).
  run_section (section_nationality_ok (input_lines inp)).
  run_section (section_origin_ok (input_lines inp)).
  run_section (section_residence_ok (input_lines inp)).
  run_section (section_expiry_ok (input_lines inp)).
  run_section section_residence_default_ok.
  eexists. split; [eassumption|reflexivity].
Qed.

(** C7: whatever its input, [parse_data] raises nothing, and its result binds
    the eight canonical keys and the twelve alias keys (each to a string,
    possibly empty). *)
Theorem parse_data_keys (inp : parse_input) :
  ∃ d, parse_data inp = inr d ∧ ∀ k, k ∈ canonical_keys ++ alias_map.*1 → is_Some (d !! k).
Proof.
  destruct (parse_data_sections inp) as (d & Hd & ->). apply alias_keys_bound. exact Hd.
Qed.

End Pipeline.

(** ** Alias composition *)

Lemma set_aliases_mirror (d : dict) : keys_ok d →
  ∃ d', set_aliases alias_map d = inr d' ∧ ∀ a k, (a, k) ∈ alias_map → d' !! a = d' !! k ∧ d' !! k = d !! k.
Proof.
  intros Hd. destruct alias_map_well_formed as [Hwf Hnd].
  destruct (set_aliases_spec alias_map d Hwf Hd) as (d' & Hr & _ & Hother & Hal).
  exists d'. split; [exact Hr|]. intros a k Hin.
  assert (k ∉ alias_map.*1) as Hk.
  { intros Hk. apply list_elem_of_fmap in Hk as ([a' k'] & Heq & Hin'). simpl in Heq. subst.
    pose proof (proj1 (Forall_forall _ _) Hwf _ Hin) as [_ Hc].
    pose proof (proj1 (Forall_forall _ _) Hwf _ Hin') as [Hn _]. simpl in *. contradiction. }
  rewrite (Hal Hnd a k Hin), (Hother k Hk). done.
Qed.

Lemma apply_template_aliases_mirror (d : dict) : keys_ok d →
  ∀ a k, (a, k) ∈ alias_map →
    apply_template_aliases d !! a = apply_template_aliases d !! k ∧ apply_template_aliases d !! k = d !! k.
Proof.
  intros Hd a k Hin. destruct alias_map_well_formed as [Hwf Hnd].
  destruct (apply_aliases_spec alias_map d Hwf) as [Hother Hal]. unfold apply_template_aliases.
  assert (k ∈ canonical_keys) as Hc.
  { eapply Forall_forall in Hwf; [|exact Hin]. apply Hwf. }
  assert (k ∉ alias_map.*1) as Hk.
  { intros Hk. apply list_elem_of_fmap in Hk as ([a' k'] & Heq & Hin'). simpl in Heq. subst.
    eapply Forall_forall in Hwf; [|exact Hin']. apply Hwf. exact Hc. }
  rewrite (Hal Hnd a k Hin), (Hother k Hk). destruct (Hd k Hc) as [v ->]. done.
Qed.

Section AliasClaim.
Context `{db : UnicodeDB}.

(** C9: after the alias step of [parse_data], and after
    [apply_template_aliases], each of the twelve alias keys of [alias_map]
    holds the value of its canonical field, for any dictionary in which the
    canonical keys are bound; the results of [parse_data] always have this
    form. *)
Theorem alias_composition (d : dict) : keys_ok d →
  (∃ d', set_aliases alias_map d = inr d' ∧
         ∀ a k, (a, k) ∈ alias_map → d' !! a = d' !! k ∧ d' !! k = d !! k) ∧
  (∀ a k, (a, k) ∈ alias_map →
     apply_template_aliases d !! a = apply_template_aliases d !! k ∧ apply_template_aliases d !! k = d !! k) ∧
  (∀ inp, ∃ d', parse_data inp = inr d' ∧ ∀ a k, (a, k) ∈ alias_map → d' !! a = d' !! k).
Proof.
  intros Hd. split; [by apply set_aliases_mirror|]. split; [by apply apply_template_aliases_mirror|].
  intros inp. destruct (parse_data_sections inp) as (d1 & Hd1 & ->).
  destruct (set_aliases_mirror d1 Hd1) as (d' & Hr & Hm). exists d'. split; [exact Hr|].
  intros a k Hin. apply (Hm a k Hin).
Qed.

End AliasClaim.

Lemma alias_composition_witness :
  keys_ok sample_record ∧
  (∃ d', set_aliases alias_map sample_record = inr d' ∧
         ∀ a k, (a, k) ∈ alias_map → d' !! a = d' !! k ∧ d' !! k = sample_record !! k).
Proof.
  assert (keys_ok sample_record) as H.
  { intros k Hk. unfold canonical_keys in Hk.
    repeat (apply elem_of_cons in Hk as [->|Hk]; [eexists; vm_compute; reflexivity|]).
    by apply elem_of_nil in Hk. }
  split; [exact H|]. apply (alias_composition (db:=table_db) sample_record H).
Defined.

(** ** The confidence floor of [parse_data] *)

Section Confidence.
Context `{db : UnicodeDB}.

Lemma input_lines_filter (l : list observation) :
  input_lines (Observations l)
  = input_lines (Observations (filter (fun o => Qle_bool (1 # 4) (obs_conf o) = true) l)).
Proof. simpl. by rewrite list_filter_filter_l. Qed.

(** C10: [parse_data] on observations depends only on the items whose
    confidence is at least 1/4; an item with a non-blank text and a
    confidence in [0.2, 1/4) is kept by [extract_text] but has no effect on
    the result of [parse_data]. *)
Theorem confidence_floor (l1 l2 : list observation) (o : observation) :
  (∀ l, parse_data (Observations l)
        = parse_data (Observations (filter (fun o => Qle_bool (1 # 4) (obs_conf o) = true) l))) ∧
  (is_empty (py_strip (obs_text o)) = false →
   Qle_bool float_0_2 (obs_conf o) = true →
   Qle_bool (1 # 4) (obs_conf o) = false →
   extract_text_keeps o = true ∧
   parse_data (Observations (l1 ++ o :: l2)) = parse_data (Observations (l1 ++ l2))).
Proof.
  split.
  - intros l. unfold parse_data. by rewrite <- input_lines_filter.
  - intros Htext Hlo Hhi. split.
    + unfold extract_text_keeps. by rewrite Htext, Hlo.
    + unfold parse_data. f_equal. simpl. rewrite !filter_app, filter_cons_False; [done|].
      rewrite Hhi. discriminate.
Qed.

End Confidence.

Lemma confidence_floor_witness :
  is_empty (@py_strip table_db (obs_text obs_0_22)) = false ∧
  Qle_bool float_0_2 (obs_conf obs_0_22) = true ∧
  Qle_bool (1 # 4) (obs_conf obs_0_22) = false ∧
  (@extract_text_keeps table_db obs_0_22 = true ∧
   @parse_data table_db (Observations ([] ++ obs_0_22 :: [])) = @parse_data table_db (Observations ([] ++ []))).
Proof.
  split; [vm_compute; reflexivity|]. split; [reflexivity|]. split; [reflexivity|].
  apply (proj2 (@confidence_floor table_db [] [] obs_0_22)); [vm_compute; reflexivity|reflexivity|reflexivity].
Defined.


(** ** The place-of-origin example *)

(** C2 (counterexample): on the lines ["Quê quán:", "Hà Nội", "Giới tính: Nam"],
    [parse_data] returns a dictionary whose [place_of_origin] is not "Hà Nội". *)
Lemma origin_example_counterexample :
  ∃ d, @parse_data table_db (TextLines origin_example_lines) = inr d
       ∧ d !! "place_of_origin"%string ≠ Some (u "Hà Nội").
Proof.
  exists (match @parse_data table_db (TextLines origin_example_lines) with inr d => d | inl _ => ∅ end).
  split; [vm_compute; reflexivity|]. vm_compute. discriminate.
Qed.

(** C2 (amended): on these lines the accumulation of the place of origin
    stops at the sex line, and collects the single part "Hà Nội"; that value
    has no comma or semicolon and fewer than 10 characters, so it is
    rejected, and [place_of_origin] (and [residence], which falls back to it)
    is empty; the sex line still gives [sex = "Nam"]. *)
Theorem origin_example :
  @origin_parts table_db (@mk_ctx table_db (@input_lines table_db (TextLines origin_example_lines)))
    = inr (Some [u "Hà Nội"]) ∧
  has_location_shape (u "Hà Nội") = false ∧
  @result_field table_db (TextLines origin_example_lines) "place_of_origin" = Some [] ∧
  @result_field table_db (TextLines origin_example_lines) "residence" = Some [] ∧
  @result_field table_db (TextLines origin_example_lines) "sex" = Some (u "Nam").
Proof. repeat split; vm_compute; reflexivity. Qed.

(** ** Sex and expiry date *)

Ltac key_dec := apply (bool_decide_unpack _); vm_compute; exact I.

Lemma last_other_find (dates : list ustr) dob :
  last_other dates dob
    (match list_find (fun d => d ≠ dob) (reverse dates) with Some (_, d) => d | None => [] end).
Proof.
  destruct (list_find (fun d => d ≠ dob) (reverse dates)) as [[i x]|] eqn:F.
  - apply list_find_Some in F as (Hi & Hx & Hbefore). right.
    exists (reverse (drop (S i) (reverse dates))), (reverse (take i (reverse dates))).
    split; [|split; [exact Hx|]].
    + assert (reverse dates = take i (reverse dates) ++ x :: drop (S i) (reverse dates)) as E
        by (symmetry; apply take_drop_middle; exact Hi).
      rewrite <- (reverse_involutive dates) at 1. rewrite E at 1.
      rewrite reverse_app, reverse_cons, <- app_assoc. reflexivity.
    + intros y Hy. rewrite elem_of_reverse in Hy. apply list_elem_of_lookup in Hy as [j Hj].
      apply lookup_take_Some in Hj as [Hj Hlt].
      destruct (decide (y = dob)) as [|Hne]; [done|]. exfalso. exact (Hbefore j y Hj Hlt Hne).
  - apply list_find_None in F. left. split; [done|]. intros y Hy.
    rewrite <- elem_of_reverse in Hy. eapply Forall_forall in F; [|exact Hy].
    destruct (decide (y = dob)); [done|]. contradiction.
Qed.

Section SexExpiry.
Context `{db : UnicodeDB}.

Lemma section_sex_value lines d d' v :
  section_sex (mk_ctx lines) d = inr d' → d !! "sex"%string = Some [] →
  _extract_value_from_lines (c_lines (mk_ctx lines)) (c_nlines (mk_ctx lines)) sex_labels = inr v →
  d' !! "sex"%string = Some (sex_by_precedence (_normalize_text v) (c_nfull (mk_ctx lines))).
Proof.
  intros H Hsex Hv. unfold section_sex in H. rewrite Hv in H. cbn [py_bind py_ret] in H.
  unfold sex_by_precedence.
  destruct (has_match re_male (_normalize_text v)); destruct (has_match re_female (_normalize_text v));
  destruct (has_match re_male (c_nfull (mk_ctx lines)));
  destruct (has_match re_female (c_nfull (mk_ctx lines)));
  unfold py_getitem in H; rewrite ?lookup_insert_eq, ?Hsex in H; cbn [py_bind py_ret py_or] in H;
  injection H as <-; rewrite ?lookup_insert_eq; done.
Qed.

Lemma section_expiry_fallback lines d d' :
  section_expiry (mk_ctx lines) d = inr d' → keys_ok d → d !! "expiry_date"%string = Some [] →
  date_label_loop expiry_hit (c_lines (mk_ctx lines)) 0 (c_nlines (mk_ctx lines)) = inr None →
  ∃ dob e, d !! "date_of_birth"%string = Some dob ∧ d' !! "expiry_date"%string = Some e ∧
    (if (1 <? length (doc_dates (mk_ctx lines)))%nat
     then last_other (doc_dates (mk_ctx lines)) dob e else e = []).
Proof.
  intros H Hd Hexp Hloop. unfold section_expiry in H. rewrite Hloop in H.
  destruct (Hd "date_of_birth"%string ltac:(key_dec)) as [dob Hdob].
  exists dob. cbn [py_bind py_ret] in H. unfold py_getitem in H. rewrite Hexp in H.
  cbn [py_bind py_ret is_empty andb] in H.
  destruct (1 <? length (doc_dates (mk_ctx lines)))%nat.
  - rewrite Hdob in H. cbn [py_bind py_ret] in H.
    pose proof (last_other_find (doc_dates (mk_ctx lines)) dob) as Hl.
    destruct (list_find _ (reverse (doc_dates (mk_ctx lines)))) as [[i x]|].
    + injection H as <-. exists x. rewrite lookup_insert_eq. done.
    + injection H as <-. exists []. done.
  - injection H as <-. exists []. done.
Qed.

End SexExpiry.

Ltac run_step L d R K F :=
  destruct L as (d & R & K & F); rewrite R; cbn [py_bind].

Section SexExpiryClaims.
Context `{db : UnicodeDB}.

(** C6: the sex field of the result is decided by the searches for whole
    words in order: "nam"/"male" then "nu"/"female" in the normalized value
    of the sex label, and only when both fail, "nam"/"male" then
    "nu"/"female" in the whole normalized text; it is "Nam", "Nữ", or empty
    when no token is found. *)
Theorem sex_field (inp : parse_input) :
  ∃ d v, parse_data inp = inr d ∧
    _extract_value_from_lines (c_lines (mk_ctx (input_lines inp))) (c_nlines (mk_ctx (input_lines inp)))
      sex_labels = inr v ∧
    d !! "sex"%string = Some (sex_by_precedence (_normalize_text v) (c_nfull (mk_ctx (input_lines inp)))).
Proof.
  unfold parse_data, parse_lines. cbv zeta. set (lines := input_lines inp).
  pose proof init_data_keys as K0.
  run_step (section_no_ok lines _ K0) d1 R1 K1 F1.
  run_step (section_dob_ok lines _ K1) d2 R2 K2 F2.
  run_step (section_sex_ok lines _ K2) d3 R3 K3 F3.
  run_step (section_fullname_ok lines _ K3) d4 R4 K4 F4.
  run_step (section_nationality_ok lines _ K4) d5 R5 K5 F5.
  run_step (section_origin_ok lines _ K5) d6 R6 K6 F6.
  run_step (section_residence_ok lines _ K6) d7 R7 K7 F7.
  run_step (section_expiry_ok lines _ K7) d8 R8 K8 F8.
  run_step (section_residence_default_ok _ K8) d9 R9 K9 F9.
  destruct (set_aliases_spec alias_map d9 (proj1 alias_map_well_formed) K9) as (d10 & R10 & _ & F10 & _).
  destruct (extract_value_loop_ok (c_lines (mk_ctx lines)) sex_labels (c_nlines (mk_ctx lines)) 0
              ltac:(len_ok)) as [v Hv].
  exists d10, v. split; [exact R10|]. split; [exact Hv|].
  rewrite F10, F9, F8, F7, F6, F5, F4 by key_dec.
  apply (section_sex_value lines d2 d3 v R3); [|exact Hv].
  rewrite F2, F1 by key_dec. vm_compute. reflexivity.
Qed.

(** C5 (amended): when no expiry label line (nor the line after one) gives
    a date, the expiry date of the result is computed from the list [dates]
    of the slash or dash dates of the whole text: if it has at least two
    elements, the expiry date is the last of them that differs from the
    date of birth of the result (empty when all equal it); with fewer than
    two, the expiry date is empty. *)
Theorem expiry_fallback (inp : parse_input) :
  date_label_loop expiry_hit (c_lines (mk_ctx (input_lines inp))) 0 (c_nlines (mk_ctx (input_lines inp)))
    = inr None →
  ∃ d dob e, parse_data inp = inr d ∧
    d !! "date_of_birth"%string = Some dob ∧ d !! "expiry_date"%string = Some e ∧
    (if (1 <? length (doc_dates (mk_ctx (input_lines inp))))%nat
     then last_other (doc_dates (mk_ctx (input_lines inp))) dob e else e = []).
Proof.
  intros Hnone.
  unfold parse_data, parse_lines. cbv zeta. set (lines := input_lines inp) in *.
  pose proof init_data_keys as K0.
  run_step (section_no_ok lines _ K0) d1 R1 K1 F1.
  run_step (section_dob_ok lines _ K1) d2 R2 K2 F2.
  run_step (section_sex_ok lines _ K2) d3 R3 K3 F3.
  run_step (section_fullname_ok lines _ K3) d4 R4 K4 F4.
  run_step (section_nationality_ok lines _ K4) d5 R5 K5 F5.
  run_step (section_origin_ok lines _ K5) d6 R6 K6 F6.
  run_step (section_residence_ok lines _ K6) d7 R7 K7 F7.
  run_step (section_expiry_ok lines _ K7) d8 R8 K8 F8.
  run_step (section_residence_default_ok _ K8) d9 R9 K9 F9.
  destruct (set_aliases_spec alias_map d9 (proj1 alias_map_well_formed) K9) as (d10 & R10 & _ & F10 & _).
  assert (d7 !! "expiry_date"%string = Some []) as Hexp.
  { rewrite F7, F6, F5, F4, F3, F2, F1 by key_dec. vm_compute. reflexivity. }
  destruct (section_expiry_fallback lines d7 d8 R8 K7 Hexp Hnone) as (dob & e & Hdob & He & Hrel).
  exists d10, dob, e. split; [exact R10|].
  split; [rewrite F10, F9, F8 by key_dec; exact Hdob|].
  split; [rewrite F10, F9 by key_dec; exact He|exact Hrel].
Qed.

End SexExpiryClaims.

(** C5 (counterexample): on the lines ["Ngay sinh: 01012000", "12/05/2030"]
    no expiry label gives a date, the document has the date "12/05/2030",
    which differs from the date of birth "01/01/2000"; still the expiry date
    of the result is empty, not "12/05/2030". *)
Lemma expiry_fallback_counterexample :
  @date_label_loop table_db expiry_hit
     (c_lines (@mk_ctx table_db (@input_lines table_db (TextLines expiry_example_lines)))) 0
     (c_nlines (@mk_ctx table_db (@input_lines table_db (TextLines expiry_example_lines)))) = inr None ∧
  @doc_dates table_db (@mk_ctx table_db (@input_lines table_db (TextLines expiry_example_lines)))
    = [u "12/05/2030"] ∧
  @result_field table_db (TextLines expiry_example_lines) "date_of_birth" = Some (u "01/01/2000") ∧
  @result_field table_db (TextLines expiry_example_lines) "expiry_date" ≠ Some (u "12/05/2030").
Proof.
  split; [vm_compute; reflexivity|]. split; [vm_compute; reflexivity|].
  split; [vm_compute; reflexivity|]. vm_compute. discriminate.
Qed.

Lemma expiry_fallback_witness :
  @date_label_loop table_db expiry_hit
     (c_lines (@mk_ctx table_db (@input_lines table_db (TextLines expiry_example_lines)))) 0
     (c_nlines (@mk_ctx table_db (@input_lines table_db (TextLines expiry_example_lines)))) = inr None ∧
  ∃ d dob e, @parse_data table_db (TextLines expiry_example_lines) = inr d ∧
    d !! "date_of_birth"%string = Some dob ∧ d !! "expiry_date"%string = Some e ∧
    (if (1 <? length (@doc_dates table_db (@mk_ctx table_db (@input_lines table_db (TextLines expiry_example_lines)))))%nat
     then last_other (@doc_dates table_db (@mk_ctx table_db (@input_lines table_db (TextLines expiry_example_lines)))) dob e
     else e = []).
Proof.
  split; [vm_compute; reflexivity|].
  apply (@expiry_fallback table_db (TextLines expiry_example_lines)). vm_compute. reflexivity.
Defined.

(** ** The identity-number vote *)

Lemma key_lt_asym a b : key_lt a b = true → key_lt b a = false.
Proof.
  destruct a as [a1 a2], b as [b1 b2]. unfold key_lt; simpl.
  destruct (Nat.ltb_spec a1 b1), (Nat.ltb_spec b1 a1), (Nat.eqb_spec a1 b1), (Nat.eqb_spec b1 a1);
    destruct a2, b2; simpl; intros; try lia; done.
Qed.

Lemma key_lt_trans a b c : key_lt a b = true → key_lt b c = true → key_lt a c = true.
Proof.
  destruct a as [a1 a2], b as [b1 b2], c as [c1 c2]. unfold key_lt; simpl.
  destruct (Nat.ltb_spec a1 b1), (Nat.ltb_spec b1 c1), (Nat.ltb_spec a1 c1),
           (Nat.eqb_spec a1 b1), (Nat.eqb_spec b1 c1), (Nat.eqb_spec a1 c1);
    destruct a2, b2, c2; simpl; intros; try lia; done.
Qed.

Lemma key_lt_total a b : key_lt a b = false → key_lt b a = false → a = b.
Proof.
  destruct a as [a1 a2], b as [b1 b2]. unfold key_lt; simpl.
  destruct (Nat.ltb_spec a1 b1), (Nat.ltb_spec b1 a1), (Nat.eqb_spec a1 b1), (Nat.eqb_spec b1 a1);
    destruct a2, b2; simpl; intros; try lia; try done; subst; done.
Qed.

Lemma insert_desc_elem x l z : z ∈ insert_desc x l ↔ z = x ∨ z ∈ l.
Proof.
  induction l as [|y r IH]; simpl.
  - rewrite list_elem_of_singleton. set_solver.
  - destruct (key_lt (rank_key y) (rank_key x)); rewrite !elem_of_cons; [tauto|]. rewrite IH. tauto.
Qed.

Lemma insert_desc_head_max x l : head_max l → head_max (insert_desc x l).
Proof.
  destruct l as [|y r]; simpl.
  - intros _ z Hz. apply list_elem_of_singleton in Hz as ->.
    destruct (key_lt (rank_key x) (rank_key x)) eqn:E; [|done].
    pose proof (key_lt_asym _ _ E). congruence.
  - intros Hy. destruct (key_lt (rank_key y) (rank_key x)) eqn:E; simpl.
    + intros z Hz. destruct (key_lt (rank_key x) (rank_key z)) eqn:E2; [|done].
      apply elem_of_cons in Hz as [->|Hz].
      * pose proof (key_lt_asym _ _ E2). congruence.
      * rewrite <- (Hy z Hz). symmetry. apply (key_lt_trans _ _ _ E E2).
    + intros z Hz. apply elem_of_cons in Hz as [->|Hz]; [apply Hy; left|].
      apply insert_desc_elem in Hz as [->|Hz]; [exact E|apply Hy; right; exact Hz].
Qed.

Lemma sorted_desc_spec (l : list (ustr * nat)) :
  (∀ z, z ∈ sorted_desc l ↔ z ∈ l) ∧ head_max (sorted_desc l).
Proof.
  unfold sorted_desc.
  assert (∀ acc, head_max acc →
            (∀ z, z ∈ foldl (fun acc x => insert_desc x acc) acc l ↔ z ∈ acc ∨ z ∈ l) ∧
            head_max (foldl (fun acc x => insert_desc x acc) acc l)) as Hgen.
  { induction l as [|x r IH]; intros acc Hacc; simpl.
    - split; [|exact Hacc]. intros z. rewrite elem_of_nil. tauto.
    - destruct (IH (insert_desc x acc) (insert_desc_head_max x acc Hacc)) as [Hm Hh].
      split; [|exact Hh]. intros z. rewrite Hm, insert_desc_elem, elem_of_cons. tauto. }
  destruct (Hgen [] I) as [Hm Hh]. split; [|exact Hh]. intros z. rewrite Hm, elem_of_nil. tauto.
Qed.

Lemma dedup_first_elem seen l x : x ∈ dedup_first seen l ↔ x ∈ l ∧ x ∉ seen.
Proof.
  revert seen. induction l as [|y r IH]; intros seen; simpl.
  - rewrite elem_of_nil. set_solver.
  - case_bool_decide as Hy.
    + rewrite IH, elem_of_cons. split; [tauto|]. intros [[->|Hx] Hn]; [contradiction|tauto].
    + rewrite elem_of_cons, IH, not_elem_of_cons, elem_of_cons. split.
      * intros [->|[Hx [Hne Hn]]]; [split; [by left|exact Hy]|split; [by right|exact Hn]].
      * intros [[->|Hx] Hn]; [by left|].
        destruct (decide (x = y)) as [->|Hne]; [by left|right; tauto].
Qed.

Lemma counter_items_elem l k n : (k, n) ∈ counter_items l ↔ k ∈ l ∧ n = count_in l k.
Proof.
  unfold counter_items. rewrite list_elem_of_fmap. split.
  - intros (k' & Heq & Hk). injection Heq as -> ->. apply dedup_first_elem in Hk as [Hk _]. done.
  - intros [Hk ->]. exists k. split; [done|]. apply dedup_first_elem. split; [done|apply not_elem_of_nil].
Qed.

(** The first item of the ranked counts: an element of the list with a key
    that no element exceeds. *)
Lemma ranked_first (cl : list ustr) :
  cl ≠ [] → ∃ best n rest, sorted_desc (counter_items cl) = (best, n) :: rest ∧
    best ∈ cl ∧ n = count_in cl best ∧
    ∀ y, y ∈ cl → key_lt (rank_key (best, n)) (rank_key (y, count_in cl y)) = false.
Proof.
  intros Hne. destruct (sorted_desc_spec (counter_items cl)) as [Hm Hh].
  destruct (sorted_desc (counter_items cl)) as [|[best n] rest] eqn:E.
  - destruct cl as [|x r]; [done|]. exfalso.
    assert ((x, count_in (x :: r) x) ∈ counter_items (x :: r)) as Hx
      by (apply counter_items_elem; split; [left|done]).
    apply Hm in Hx. by apply elem_of_nil in Hx.
  - assert ((best, n) ∈ counter_items cl) as Hb by (apply Hm; left).
    apply counter_items_elem in Hb as [Hb ->].
    exists best, (count_in cl best), rest. split; [done|]. split; [done|]. split; [done|].
    intros y Hy. apply Hh. apply Hm. apply counter_items_elem. done.
Qed.

Section IdVote.
Context `{db : UnicodeDB}.

(** C1 (amended): [_choose_best_id] returns the empty string exactly when no
    candidate has 12 digits once its non-digits are removed; otherwise it
    returns one of these 12-digit strings with the highest number of
    occurrences, and among those with that number, one starting with '0'
    whenever there is one. *)
Theorem choose_best_id_spec (cands : list ustr) :
  (id_cleaned cands = [] → _choose_best_id cands = []) ∧
  (id_cleaned cands ≠ [] →
     _choose_best_id cands ∈ id_cleaned cands ∧
     ∀ y, y ∈ id_cleaned cands →
       (count_in (id_cleaned cands) y <= count_in (id_cleaned cands) (_choose_best_id cands))%nat ∧
       (count_in (id_cleaned cands) y = count_in (id_cleaned cands) (_choose_best_id cands) →
        py_startswith y [48] = true → py_startswith (_choose_best_id cands) [48] = true)).
Proof.
  unfold _choose_best_id. cbv zeta.
  destruct (id_cleaned cands) as [|x r] eqn:E.
  - split; [done|]. intros []; done.
  - split; [discriminate|]. intros _.
    destruct (ranked_first (x :: r) ltac:(discriminate)) as (best & n & rest & Hs & Hb & -> & Hmax).
    rewrite Hs. split; [exact Hb|]. intros y Hy. specialize (Hmax y Hy).
    unfold key_lt, rank_key in Hmax. simpl in Hmax.
    destruct (Nat.ltb_spec (count_in (x :: r) best) (count_in (x :: r) y)); [discriminate|].
    split; [lia|]. intros Heq Hy0. rewrite Heq, Nat.eqb_refl in Hmax.
    rewrite Hy0 in Hmax. destruct (py_startswith best [48]); [done|discriminate].
Qed.

End IdVote.

(** C1 (counterexample): two 12-digit candidates that occur once each, one
    starting with '0': the one starting with '0' is returned. *)
Lemma choose_best_id_counterexample :
  count_in (@id_cleaned table_db id_tie_example) (u "112345678901")
  = count_in (@id_cleaned table_db id_tie_example) (u "012345678901") ∧
  @_choose_best_id table_db id_tie_example = u "012345678901".
Proof. split; vm_compute; reflexivity. Qed.

Lemma choose_best_id_witness :
  @_choose_best_id table_db id_vote_example = u "079123456789" ∧
  @id_cleaned table_db id_vote_example ≠ [] ∧
  (@_choose_best_id table_db id_vote_example
     ∈ @id_cleaned table_db id_vote_example ∧
   ∀ y, y ∈ @id_cleaned table_db id_vote_example →
     (count_in (@id_cleaned table_db id_vote_example) y
      <= count_in (@id_cleaned table_db id_vote_example)
           (@_choose_best_id table_db id_vote_example))%nat ∧
     (count_in (@id_cleaned table_db id_vote_example) y
      = count_in (@id_cleaned table_db id_vote_example)
           (@_choose_best_id table_db id_vote_example) →
      py_startswith y [48] = true →
      py_startswith (@_choose_best_id table_db id_vote_example) [48]
      = true)).
Proof.
  split; [vm_compute; reflexivity|]. split; [vm_compute; discriminate|].
  apply (proj2 (@choose_best_id_spec table_db id_vote_example)).
  vm_compute. discriminate.
Defined.

(** ** The QR pipeline (modelled from the spec) *)

Lemma split_on_aux_length sep cur s :
  length (split_on_aux sep cur s) = S (length (filter (fun c => c = sep) s)).
Proof.
  revert cur. induction s as [|c r IH]; intros cur; simpl; [done|].
  rewrite filter_cons. destruct (N.eqb_spec c sep) as [->|Hne].
  - rewrite decide_True by done. simpl. by rewrite IH.
  - rewrite decide_False by done. apply IH.
Qed.

(** C3: the QR pipeline splits its payload on '|' (one part more than there
    are '|'); fewer than 7 parts raise a format error that carries their
    number; otherwise the dates are reformatted from their compact form
    (DD/MM/YYYY for 8 characters, with no range check, the empty string for
    any other length), the nationality is "Việt Nam" and the place of origin
    equals the residence. *)
Theorem qr_parse_spec (payload : ustr) :
  length (split_on 124 payload) = S (length (filter (fun c => c = 124) payload)) ∧
  ((length (split_on 124 payload) < 7)%nat →
     qr_parse payload = inl (QRFormatError (length (split_on 124 payload)))) ∧
  (∀ id_number old_id full_name dob sex residence issue_date rest,
     split_on 124 payload = [id_number; old_id; full_name; dob; sex; residence; issue_date] ++ rest →
     ∃ d, qr_parse payload = inr d ∧
       d !! "date_of_birth"%string = Some (format_compact dob) ∧
       d !! "issue_date"%string = Some (format_compact issue_date) ∧
       d !! "nationality"%string = Some VIET_NAM ∧
       d !! "residence"%string = Some residence ∧
       d !! "place_of_origin"%string = Some residence) ∧
  (∀ s, length s = 8%nat →
     format_compact s = take 2 s ++ [47] ++ take 2 (drop 2 s) ++ [47] ++ drop 4 s) ∧
  (∀ s, length s ≠ 8%nat → format_compact s = []).
Proof.
  split; [apply split_on_aux_length|]. split; [|split; [|split]].
  - unfold qr_parse. cbv zeta.
    destruct (split_on 124 payload) as [|a [|b [|c [|e [|f [|g [|h r]]]]]]]; simpl; intros H;
      try reflexivity; lia.
  - intros id_number old_id full_name dob sex residence issue_date rest Hs.
    unfold qr_parse. rewrite Hs. simpl. eexists. split; [reflexivity|].
    split_and!; vm_compute; reflexivity.
  - intros s Hs. unfold format_compact. rewrite Hs. reflexivity.
  - intros s Hs. unfold format_compact. apply Nat.eqb_neq in Hs. rewrite Hs. reflexivity.
Qed.

Lemma qr_parse_spec_witness :
  (length (split_on 124 qr_five_fields) < 7)%nat ∧
  qr_parse qr_five_fields = inl (QRFormatError 5).
Proof.
  split; [vm_compute; lia|].
  rewrite (proj1 (proj2 (qr_parse_spec qr_five_fields))) by (vm_compute; lia).
  vm_compute. reflexivity.
Defined.

(** ** Compact dates *)

Lemma compact_search `{db : UnicodeDB} (c1 c2 c3 c4 c5 c6 c7 c8 : N) :
  Forall (fun c => is_decimal c = true /\ is_word c = true) [c1;c2;c3;c4;c5;c6;c7;c8] ->
  re_search re_compact_date [c1;c2;c3;c4;c5;c6;c7;c8] = Some (0%nat, 8%nat, [(1%nat, (0%nat, 8%nat))]).
Proof.
  rewrite !Forall_cons. intros (Hc1 & Hc2 & Hc3 & Hc4 & Hc5 & Hc6 & Hc7 & Hc8 & _).
  unfold re_search, search_from, search_aux, match_at, re_compact_date, rseq, r_d.
  cbn -[is_decimal is_word].
  rewrite (proj1 Hc1), (proj1 Hc2), (proj1 Hc3), (proj1 Hc4), (proj1 Hc5), (proj1 Hc6),
    (proj1 Hc7), (proj1 Hc8), (proj2 Hc1).
  unfold at_boundary, word_at; cbn -[is_word]; rewrite (proj2 Hc8). reflexivity.
Qed.

Lemma compact_date_value `{db : UnicodeDB} (c1 c2 c3 c4 c5 c6 c7 c8 : N) :
  Forall (fun c => is_decimal c = true /\ is_word c = true) [c1;c2;c3;c4;c5;c6;c7;c8] ->
  _normalize_compact_date [c1;c2;c3;c4;c5;c6;c7;c8] =
  (let day := py_int [c1;c2] in let month := py_int [c3;c4] in
   let year := py_int [c5;c6;c7;c8] in
   if (1 <=? day) && (day <=? 31) && (1 <=? month) && (month <=? 12)
      && (1900 <=? year) && (year <=? 2100)
   then fmt0 2 day ++ SLASH ++ fmt0 2 month ++ SLASH ++ fmt0 4 year
   else []).
Proof.
  intros H. unfold _normalize_compact_date. rewrite (compact_search _ _ _ _ _ _ _ _ H).
  reflexivity.
Qed.

Lemma digits_rev_small (f : nat) (n : N) : n < 10 -> digits_rev (S f) n = [48 + n].
Proof. intros Hn. cbn. replace (n <? 10) with true by (symmetry; apply N.ltb_lt; lia). done. Qed.

Lemma digits_rev_big (f : nat) (n : N) : 10 <= n ->
  digits_rev (S f) n = (48 + n mod 10) :: digits_rev f (n / 10).
Proof. intros Hn. cbn. replace (n <? 10) with false by (symmetry; apply N.ltb_ge; lia). done. Qed.

Lemma log2_fuel (n k : N) : 2 ^ k <= n -> (N.to_nat k <= N.to_nat (N.log2 n))%nat.
Proof. intros H. apply N.log2_le_pow2 in H; [lia|]. pose proof (N.pow_nonzero 2 k). lia. Qed.

Lemma fmt0_2 (n : N) : n < 100 -> fmt0 2 n = [48 + n / 10; 48 + n mod 10].
Proof.
  intros Hn. unfold fmt0, zfill, py_str_N.
  destruct (N.lt_ge_cases n 10) as [Hs|Hb].
  - rewrite digits_rev_small by done. rewrite N.div_small, N.mod_small by done. done.
  - assert (2 ^ 3 <= n) as Hp by (cbn; lia). apply log2_fuel in Hp.
    destruct (N.to_nat (N.log2 n)) as [|f] eqn:E; [cbn in Hp; lia|].
    rewrite digits_rev_big, digits_rev_small by (try apply N.Div0.div_lt_upper_bound; lia).
    done.
Qed.

Lemma fmt0_4 (n : N) : 1000 <= n < 10000 ->
  fmt0 4 n = [48 + n / 10 / 10 / 10; 48 + (n / 10 / 10) mod 10; 48 + (n / 10) mod 10; 48 + n mod 10].
Proof.
  intros Hn. unfold fmt0, zfill, py_str_N.
  assert (2 ^ 9 <= n) as Hp by (cbn; lia). apply log2_fuel in Hp.
  destruct (N.to_nat (N.log2 n)) as [|[|[|f]]] eqn:E; cbn in Hp; try lia.
  assert (100 <= n / 10) by (apply N.div_le_lower_bound; lia).
  assert (n / 10 < 1000) by (apply N.Div0.div_lt_upper_bound; lia).
  assert (10 <= n / 10 / 10) by (apply N.div_le_lower_bound; lia).
  assert (n / 10 / 10 < 100) by (apply N.Div0.div_lt_upper_bound; lia).
  assert (n / 10 / 10 / 10 < 10) by (apply N.Div0.div_lt_upper_bound; lia).
  rewrite (digits_rev_big (S (S (S f)))), (digits_rev_big (S (S f))), (digits_rev_big (S f))
    by lia.
  rewrite digits_rev_small by lia. done.
Qed.

Section CompactDate.
Context `{db : UnicodeDB}.

(** The ASCII digits are decimal digits of their own value and alphanumeric,
    as in Python's Unicode database. *)
Hypothesis ascii_digits :
  forallb (fun k => bool_decide (u_decimal (48 + k) = Some k) && u_alnum (48 + k))
    [0; 1; 2; 3; 4; 5; 6; 7; 8; 9] = true.

Lemma ascii_digit (k : N) : k < 10 -> u_decimal (48 + k) = Some k /\ u_alnum (48 + k) = true.
Proof.
  intros Hk. assert (k ∈ [0; 1; 2; 3; 4; 5; 6; 7; 8; 9]) as Hin.
  { assert (k = 0 \/ k = 1 \/ k = 2 \/ k = 3 \/ k = 4 \/ k = 5 \/ k = 6 \/ k = 7 \/ k = 8 \/ k = 9)
      as Hc by lia.
    rewrite !elem_of_cons. intuition. }
  apply list_elem_of_In in Hin.
  pose proof (proj1 (forallb_forall _ _) ascii_digits k Hin) as Hb.
  apply andb_true_iff in Hb as [Hb1 Hb2]. apply bool_decide_eq_true in Hb1. done.
Qed.

Lemma ascii_digit_char (c : N) : 48 <= c <= 57 -> is_decimal c = true /\ is_word c = true.
Proof.
  intros Hc. replace c with (48 + (c - 48)) by lia.
  destruct (ascii_digit (c - 48)) as [H1 H2]; [lia|].
  unfold is_decimal, is_word. rewrite H1, H2. done.
Qed.

Lemma py_int_2 (a b : N) : a < 10 -> b < 10 -> py_int [48 + a; 48 + b] = a * 10 + b.
Proof.
  intros Ha Hb. unfold py_int. cbn [foldl].
  rewrite (proj1 (ascii_digit a Ha)), (proj1 (ascii_digit b Hb)). cbn. lia.
Qed.

Lemma py_int_4 (a b c e : N) : a < 10 -> b < 10 -> c < 10 -> e < 10 ->
  py_int [48 + a; 48 + b; 48 + c; 48 + e] = ((a * 10 + b) * 10 + c) * 10 + e.
Proof.
  intros Ha Hb Hc He. unfold py_int. cbn [foldl].
  rewrite (proj1 (ascii_digit a Ha)), (proj1 (ascii_digit b Hb)),
    (proj1 (ascii_digit c Hc)), (proj1 (ascii_digit e He)). cbn. lia.
Qed.

End CompactDate.

(** C4: for every day [d] in [1,31], month [m] in [1,12] and year [y] in
    [1900,2100], [_normalize_compact_date] maps the zero-padded string
    DDMMYYYY to DD/MM/YYYY with the same zero-padded components; and every
    string of eight ASCII digits whose day (first two digits), month (next
    two) or year (last four) lies outside those ranges is mapped to the
    empty string.  The Unicode database is assumed to give the ASCII digits
    their decimal values and to count them alphanumeric. *)
Theorem compact_date_round_trip `{db : UnicodeDB}
    (ascii_digits :
      forallb (fun k => bool_decide (u_decimal (48 + k) = Some k) && u_alnum (48 + k))
        [0; 1; 2; 3; 4; 5; 6; 7; 8; 9] = true) :
  (forall d m y, 1 <= d <= 31 -> 1 <= m <= 12 -> 1900 <= y <= 2100 ->
     _normalize_compact_date (fmt0 2 d ++ fmt0 2 m ++ fmt0 4 y)
     = fmt0 2 d ++ u "/" ++ fmt0 2 m ++ u "/" ++ fmt0 4 y) /\
  (forall s, length s = 8%nat -> Forall (fun c => 48 <= c <= 57) s ->
     ~ (1 <= py_int (take 2 s) <= 31 /\ 1 <= py_int (take 2 (drop 2 s)) <= 12 /\
        1900 <= py_int (take 4 (drop 4 s)) <= 2100) ->
     _normalize_compact_date s = []).
Proof.
  split.
  - intros d m y Hd Hm Hy.
    pose proof (N.div_mod d 10 ltac:(lia)) as Ed. pose proof (N.div_mod m 10 ltac:(lia)) as Em.
    pose proof (N.div_mod y 10 ltac:(lia)) as Ey1. pose proof (N.div_mod (y / 10) 10 ltac:(lia)) as Ey2.
    pose proof (N.div_mod (y / 10 / 10) 10 ltac:(lia)) as Ey3.
    pose proof (N.mod_lt d 10 ltac:(lia)) as Md. pose proof (N.mod_lt m 10 ltac:(lia)) as Mm.
    pose proof (N.mod_lt y 10 ltac:(lia)) as My1. pose proof (N.mod_lt (y / 10) 10 ltac:(lia)) as My2.
    pose proof (N.mod_lt (y / 10 / 10) 10 ltac:(lia)) as My3.
    assert (d / 10 < 10) by (apply N.Div0.div_lt_upper_bound; lia).
    assert (m / 10 < 10) by (apply N.Div0.div_lt_upper_bound; lia).
    assert (y / 10 < 1000) by (apply N.Div0.div_lt_upper_bound; lia).
    assert (y / 10 / 10 < 100) by (apply N.Div0.div_lt_upper_bound; lia).
    assert (y / 10 / 10 / 10 < 10) by (apply N.Div0.div_lt_upper_bound; lia).
    rewrite (fmt0_2 d) at 1 by lia. rewrite (fmt0_2 m) at 1 by lia.
    rewrite (fmt0_4 y) at 1 by lia. cbn [app].
    set (d0 := d mod 10) in *. set (m0 := m mod 10) in *. set (y0 := y mod 10) in *.
    set (y1 := (y / 10) mod 10) in *. set (y2 := (y / 10 / 10) mod 10) in *.
    rewrite compact_date_value.
    2:{ apply Forall_forall. intros c Hc. apply (ascii_digit_char ascii_digits).
        rewrite !elem_of_cons, elem_of_nil in Hc.
        lia. }
    cbn zeta. rewrite !(py_int_2 ascii_digits), (py_int_4 ascii_digits) by lia.
    replace (d / 10 * 10 + d0) with d by lia.
    replace (m / 10 * 10 + m0) with m by lia.
    replace (((y / 10 / 10 / 10 * 10 + y2) * 10 + y1) * 10 + y0) with y by lia.
    replace ((1 <=? d) && (d <=? 31) && (1 <=? m) && (m <=? 12) && (1900 <=? y) && (y <=? 2100))
      with true by (symmetry; rewrite !andb_true_iff, !N.leb_le; lia).
    reflexivity.
  - intros s Hlen Hs Hn.
    destruct s as [|c1 [|c2 [|c3 [|c4 [|c5 [|c6 [|c7 [|c8 [|? ?]]]]]]]]]; try discriminate.
    rewrite compact_date_value.
    2:{ eapply Forall_impl; [exact Hs|]. intros c Hc. apply (ascii_digit_char ascii_digits); done. }
    cbn zeta.
    destruct ((1 <=? py_int [c1; c2]) && (py_int [c1; c2] <=? 31) && (1 <=? py_int [c3; c4])
      && (py_int [c3; c4] <=? 12) && (1900 <=? py_int [c5; c6; c7; c8])
      && (py_int [c5; c6; c7; c8] <=? 2100)) eqn:E; [|reflexivity].
    exfalso. apply Hn. rewrite !andb_true_iff, !N.leb_le in E. cbn [take drop]. exact (conj (proj1 (proj1 (proj1 (proj1 E)))) (conj (conj (proj2 (proj1 (proj1 (proj1 E)))) (proj2 (proj1 (proj1 E)))) (conj (proj2 (proj1 E)) (proj2 E)))).
Qed.

Lemma compact_date_round_trip_witness :
  @_normalize_compact_date table_db (u "01072005") = u "01/07/2005" /\
  @_normalize_compact_date table_db (u "32012000") = [].
Proof.
  split.
  - apply (proj1 (@compact_date_round_trip table_db ltac:(vm_compute; reflexivity)) 1 7 2005);
      lia.
  - apply (proj2 (@compact_date_round_trip table_db ltac:(vm_compute; reflexivity)) (u "32012000"));
      [reflexivity|apply (bool_decide_unpack _); vm_compute; exact I|apply (bool_decide_unpack _); vm_compute; exact I].
Defined.

(** ** Text normalization *)

Lemma ws_match_at_conv `{db : UnicodeDB} s i :
  match_at false s re_ws i = ws_go s (S (1 + length s)) 0 i [].
Proof. reflexivity. Qed.

Lemma class_space `{db : UnicodeDB} d : class_matches false false [CSpace] d = u_space d.
Proof. unfold class_matches, item_matches. cbn. by destruct (u_space d). Qed.

Lemma drop_lookup_cases (s : ustr) j :
  (s !! j = None /\ drop j s = []) \/ (exists c, s !! j = Some c /\ drop j s = c :: drop (S j) s).
Proof.
  destruct (s !! j) as [c|] eqn:E.
  - right. exists c. split; [done|]. by apply drop_S.
  - left. split; [done|]. apply lookup_ge_None in E. by apply drop_ge.
Qed.

Lemma ws_go_run `{db : UnicodeDB} s f : forall cnt j cs,
  (1 <= cnt)%nat -> (space_run (drop j s) < f)%nat ->
  ws_go s f cnt j cs = Some ((j + space_run (drop j s))%nat, cs).
Proof.
  induction f as [|f IH]; intros cnt j cs Hc Hf; [lia|].
  cbn [ws_go]. fold (ws_go s).
  replace (cnt <? 1)%nat with false by (symmetry; apply Nat.ltb_ge; lia). cbn [hi_allows].
  destruct (drop_lookup_cases s j) as [[E D]|(c & E & D)]; rewrite E; rewrite D in Hf |- *.
  - cbn. unfold accept. f_equal. f_equal. lia.
  - rewrite class_space. cbn [space_run] in Hf |- *. destruct (u_space c).
    + replace (S j =? j)%nat with false by (symmetry; apply Nat.eqb_neq; lia).
      rewrite IH by lia. f_equal. f_equal. lia.
    + unfold accept. f_equal. f_equal. lia.
Qed.

Lemma space_run_le `{db : UnicodeDB} l : (space_run l <= length l)%nat.
Proof. induction l as [|c r IH]; cbn; [lia|]. destruct (u_space c); lia. Qed.

Lemma ws_match_at `{db : UnicodeDB} s i :
  match_at false s re_ws i =
  match s !! i with
  | Some c => if u_space c then Some ((S i + space_run (drop (S i) s))%nat, []) else None
  | None => None
  end.
Proof.
  rewrite ws_match_at_conv. cbn [ws_go Nat.ltb Nat.leb]. fold (ws_go s).
  destruct (s !! i) as [c|]; [|done]. rewrite class_space. destruct (u_space c); [|done].
  rewrite ws_go_run; [done|lia|].
  pose proof (space_run_le (drop (S i) s)). rewrite length_drop in *. lia.
Qed.

Lemma ws_search_none `{db : UnicodeDB} s fuel : forall i,
  (forall x, x ∈ drop i s -> u_space x = false) -> search_aux false s re_ws fuel i = None.
Proof.
  induction fuel as [|f IH]; intros i Hi; [done|]. cbn [search_aux].
  rewrite ws_match_at.
  destruct (drop_lookup_cases s i) as [[E D]|(c & E & D)]; rewrite E.
  - apply IH. intros x Hx. rewrite drop_ge in Hx; [by apply elem_of_nil in Hx|].
    apply lookup_ge_None in E. lia.
  - rewrite D in Hi. rewrite (Hi c ltac:(by left)). apply IH.
    intros x Hx. apply Hi. by right.
Qed.

Ltac span_eq :=
  match goal with
  | |- Some (?a, ?b, ?c) = Some (?a', ?b', ?c) =>
      replace b' with b by lia; replace a' with a by lia; reflexivity
  end.

Lemma ws_search_some `{db : UnicodeDB} s p c rest : forall fuel i,
  drop i s = p ++ c :: rest -> (forall x, x ∈ p -> u_space x = false) -> u_space c = true ->
  (length p < fuel)%nat ->
  search_aux false s re_ws fuel i =
    Some ((i + length p)%nat, (i + length p + S (space_run rest))%nat, []).
Proof.
  induction p as [|x p IH]; intros fuel i D Hp Hc Hf; (destruct fuel as [|f]; [cbn in Hf; lia|]);
    cbn [search_aux]; rewrite ws_match_at.
  - destruct (drop_lookup_cases s i) as [[E D']|(c' & E & D')]; rewrite D' in D; [done|].
    injection D as <- <-. rewrite E, Hc. cbn [length]. span_eq.
  - destruct (drop_lookup_cases s i) as [[E D']|(c' & E & D')]; rewrite D' in D; [done|].
    injection D as <- D. rewrite E, (Hp c' ltac:(by left)).
    rewrite (IH f (S i) D); [cbn [length]; span_eq| |done|cbn in Hf; lia].
    intros y Hy. apply Hp. by right.
Qed.

Lemma first_space_split `{db : UnicodeDB} (l : ustr) :
  (forall x, x ∈ l -> u_space x = false) \/
  exists p c rest, l = p ++ c :: rest /\ (forall x, x ∈ p -> u_space x = false) /\ u_space c = true.
Proof.
  induction l as [|x l IH].
  - left. intros x Hx. by apply elem_of_nil in Hx.
  - destruct (u_space x) eqn:Ex.
    + right. exists [], x, l. split_and!; [done| |done]. intros y Hy. by apply elem_of_nil in Hy.
    + destruct IH as [IH|(p & c & rest & -> & Hp & Hc)].
      * left. intros y Hy. apply elem_of_cons in Hy as [->|Hy]; auto.
      * right. exists (x :: p), c, rest. split_and!; [done| |done].
        intros y Hy. apply elem_of_cons in Hy as [->|Hy]; auto.
Qed.

Lemma collapse_nospace `{db : UnicodeDB} b l :
  (forall x, x ∈ l -> u_space x = false) -> collapse_ws b l = l.
Proof.
  revert b. induction l as [|c r IH]; intros b Hl; [done|]. cbn.
  rewrite (Hl c ltac:(by left)), IH; [done|]. intros x Hx. apply Hl. by right.
Qed.

Lemma collapse_app_nospace `{db : UnicodeDB} p l :
  (forall x, x ∈ p -> u_space x = false) ->
  collapse_ws false (p ++ l) = p ++ collapse_ws false l.
Proof.
  induction p as [|c r IH]; intros Hp; [done|]. cbn.
  rewrite (Hp c ltac:(by left)), IH; [done|]. intros x Hx. apply Hp. by right.
Qed.

Lemma collapse_true_skip `{db : UnicodeDB} l :
  collapse_ws true l = collapse_ws false (drop (space_run l) l).
Proof.
  induction l as [|c r IH]; [done|]. cbn. destruct (u_space c) eqn:E; [exact IH|]. cbn. by rewrite E.
Qed.

Lemma ws_sub_aux `{db : UnicodeDB} s n : forall f pos,
  (length s - pos <= n)%nat -> (length s - pos < f)%nat ->
  sub_aux false s re_ws [32] f None pos = collapse_ws false (drop pos s).
Proof.
  induction n as [|n IH]; intros f pos Hn Hf; (destruct f as [|f]; [lia|]); cbn [sub_aux];
    unfold search_from.
  - rewrite ws_search_none; [|intros x Hx; rewrite drop_ge in Hx by lia; by apply elem_of_nil in Hx].
    rewrite drop_ge by lia. done.
  - destruct (first_space_split (drop pos s)) as [Hl|(p & c & rest & D & Hp & Hc)].
    + rewrite ws_search_none by done. by rewrite collapse_nospace.
    + pose proof (f_equal length D) as L. rewrite length_drop, length_app in L. cbn [length] in L.
      pose proof (space_run_le rest).
      rewrite (ws_search_some s p c rest _ pos D Hp Hc) by lia.
      replace (pos + length p + S (space_run rest) =? pos + length p)%nat with false
        by (symmetry; apply Nat.eqb_neq; lia).
      rewrite IH by lia. unfold substr.
      replace (pos + length p - pos)%nat with (length p) by lia.
      replace (pos + length p + S (space_run rest))%nat
        with (pos + (length p + S (space_run rest)))%nat by lia.
      rewrite <- drop_drop, D, take_app_length, drop_app_add, collapse_app_nospace by done.
      cbn [drop collapse_ws]. rewrite Hc, collapse_true_skip. done.
Qed.

Lemma re_sub_ws `{db : UnicodeDB} s : re_sub re_ws (u " ") s = collapse_ws false s.
Proof.
  unfold re_sub, sub. change (u " ") with [32].
  rewrite (ws_sub_aux s (length s)) by lia. done.
Qed.

Lemma collapse_idem `{db : UnicodeDB} (Hsp : u_space 32 = true) b l :
  collapse_ws b (collapse_ws b l) = collapse_ws b l.
Proof.
  revert b. induction l as [|c r IH]; intros b; [done|]. cbn.
  destruct (u_space c) eqn:Ec.
  - destruct b; [apply IH|]. cbn. rewrite Hsp, IH. done.
  - cbn. rewrite Ec, IH. done.
Qed.

Lemma collapse_elem `{db : UnicodeDB} b l x : x ∈ collapse_ws b l -> x ∈ l \/ x = 32.
Proof.
  revert b. induction l as [|c r IH]; intros b Hx; cbn in Hx; [by apply elem_of_nil in Hx|].
  destruct (u_space c); [destruct b|].
  - destruct (IH _ Hx); [left; by right|by right].
  - apply elem_of_cons in Hx as [->|Hx]; [by right|]. destruct (IH _ Hx); [left; by right|by right].
  - apply elem_of_cons in Hx as [->|Hx]; [left; by left|]. destruct (IH _ Hx); [left; by right|by right].
Qed.

Lemma collapse_head `{db : UnicodeDB} l :
  (forall x, head l = Some x -> u_space x = false) ->
  forall x, head (collapse_ws false l) = Some x -> u_space x = false.
Proof.
  destruct l as [|c r]; intros Hl x Hx; [done|]. specialize (Hl c eq_refl). cbn in Hx.
  rewrite Hl in Hx. cbn in Hx. by injection Hx as <-.
Qed.

Lemma collapse_last `{db : UnicodeDB} l : forall b x,
  last l = Some x -> u_space x = false -> last (collapse_ws b l) = Some x.
Proof.
  induction l as [|c r IH]; intros b x Hl Hx; [done|].
  destruct (decide (r = [])) as [->|Hne].
  - cbn in Hl. injection Hl as ->. cbn. rewrite Hx. done.
  - assert (last r = Some x) as Hr.
    { destruct r as [|d r']; [done|]. by rewrite last_cons_cons in Hl. }
    cbn [collapse_ws].
    destruct (u_space c); [destruct b|];
      rewrite ?last_cons, (IH _ x Hr Hx); done.
Qed.

Lemma lstrip_head (p : N -> bool) l x :
  head (lstrip_by p l) = Some x -> p x = false.
Proof.
  induction l as [|c r IH]; cbn; [done|]. destruct (p c) eqn:E; [done|].
  cbn. intros H. by injection H as <-.
Qed.

Lemma lstrip_last (p : N -> bool) l x :
  last l = Some x -> p x = false -> last (lstrip_by p l) = Some x.
Proof.
  induction l as [|c r IH]; intros Hl Hx; [done|]. cbn.
  destruct (p c) eqn:E; [|done].
  destruct r as [|d r'].
  - cbn in Hl. injection Hl as ->. congruence.
  - rewrite last_cons_cons in Hl. by apply IH.
Qed.

Lemma lstrip_id (p : N -> bool) l :
  (forall x, head l = Some x -> p x = false) -> lstrip_by p l = l.
Proof. destruct l as [|c r]; intros H; [done|]. cbn. by rewrite (H c eq_refl). Qed.

Lemma strip_edges (p : N -> bool) l :
  (forall x, head (strip_by p l) = Some x -> p x = false) /\
  (forall x, last (strip_by p l) = Some x -> p x = false).
Proof.
  unfold strip_by. split; intros x Hx.
  - rewrite head_reverse in Hx.
    destruct (head (lstrip_by p l)) as [y|] eqn:Hy.
    + pose proof (lstrip_head p l y Hy) as Hpy.
      rewrite <- (last_reverse (lstrip_by p l)) in Hy.
      rewrite (lstrip_last p _ y Hy Hpy) in Hx. congruence.
    + destruct (lstrip_by p l); [|done]. done.
  - rewrite last_reverse in Hx. eapply lstrip_head. exact Hx.
Qed.

Lemma strip_id (p : N -> bool) l :
  (forall x, head l = Some x -> p x = false) -> (forall x, last l = Some x -> p x = false) ->
  strip_by p l = l.
Proof.
  intros Hh Hl. unfold strip_by. rewrite (lstrip_id p l Hh).
  rewrite (lstrip_id p (reverse l)); [apply reverse_involutive|].
  intros x Hx. rewrite head_reverse in Hx. by apply Hl.
Qed.

Lemma insert_by_ccc_elem `{db : UnicodeDB} c run x :
  x ∈ insert_by_ccc c run -> x = c \/ x ∈ run.
Proof.
  induction run as [|d r IH]; cbn; intros Hx.
  - apply list_elem_of_singleton in Hx. by left.
  - destruct (u_ccc c <? u_ccc d).
    + apply elem_of_cons in Hx as [->|Hx]; [by left|by right].
    + apply elem_of_cons in Hx as [->|Hx]; [right; by left|].
      destruct (IH Hx) as [->|Hr]; [by left|right; by right].
Qed.

Lemma canonical_order_elem `{db : UnicodeDB} l : forall run x,
  x ∈ canonical_order_aux run l -> x ∈ run \/ x ∈ l.
Proof.
  induction l as [|c r IH]; intros run x Hx; cbn in Hx; [by left|].
  destruct (u_ccc c =? 0).
  - apply elem_of_app in Hx as [Hx|Hx]; [by left|].
    apply elem_of_cons in Hx as [->|Hx]; [right; by left|].
    destruct (IH _ _ Hx) as [Hx'|Hx']; [by apply elem_of_nil in Hx'|right; by right].
  - destruct (IH _ _ Hx) as [Hx'|Hx']; [|right; by right].
    destruct (insert_by_ccc_elem _ _ _ Hx') as [->|Hr]; [right; by left|by left].
Qed.

Lemma nfkd_elem `{db : UnicodeDB} s c : c ∈ nfkd s -> exists x, x ∈ s /\ c ∈ u_decomp x.
Proof.
  unfold nfkd. intros Hc. destruct (canonical_order_elem _ _ _ Hc) as [Hn|Hj];
    [by apply elem_of_nil in Hn|].
  apply list_elem_of_join in Hj as (l & Hl & Hm). apply list_elem_of_fmap in Hm as (x & -> & Hx).
  by exists x.
Qed.

Lemma lower_elem `{db : UnicodeDB} l : forall before y,
  y ∈ lower_aux before l ->
  (exists c, c ∈ l /\ c <> 931 /\ y ∈ u_lower c) \/ y = 962 \/ y = 963.
Proof.
  induction l as [|c r IH]; intros before y Hy; cbn in Hy; [by apply elem_of_nil in Hy|].
  apply elem_of_app in Hy as [Hy|Hy].
  - destruct (c =? 931) eqn:E.
    + right. destruct (final_sigma before r); apply list_elem_of_singleton in Hy; auto.
    + left. exists c. split_and!; [by left|by apply N.eqb_neq|done].
  - destruct (IH _ _ Hy) as [(c' & H1 & H2 & H3)|H]; [|by right].
    left. exists c'. split_and!; [by right|done|done].
Qed.

Lemma lstrip_elem (p : N -> bool) l x : x ∈ lstrip_by p l -> x ∈ l.
Proof.
  induction l as [|c r IH]; cbn; [done|]. destruct (p c); [intros H; right; auto|done].
Qed.

Lemma strip_elem (p : N -> bool) l x : x ∈ strip_by p l -> x ∈ l.
Proof.
  unfold strip_by. intros Hx. apply elem_of_reverse, lstrip_elem, elem_of_reverse, lstrip_elem in Hx.
  done.
Qed.

Lemma norm_stable_spec `{db : UnicodeDB} c : norm_stable c = true ->
  u_decomp c = [c] /\ u_ccc c = 0 /\ u_lower c = [c] /\ c <> 931.
Proof.
  unfold norm_stable. intros H. apply andb_true_iff in H as [H H4].
  apply andb_true_iff in H as [H H3]. apply andb_true_iff in H as [H1 H2].
  apply bool_decide_eq_true in H1, H3. apply N.eqb_eq in H2.
  apply negb_true_iff, N.eqb_neq in H4. done.
Qed.

Section StableText.
Context `{db : UnicodeDB}.
Variable t : ustr.
Hypothesis Ht : forall c, c ∈ t -> norm_stable c = true.

Lemma stable_nfkd : nfkd t = t.
Proof.
  unfold nfkd. assert (mjoin (map u_decomp t) = t) as ->.
  { clear -Ht. induction t as [|c r IH]; [done|]. cbn.
    rewrite (proj1 (norm_stable_spec c (Ht c ltac:(by left)))). cbn. f_equal.
    apply IH. intros x Hx. apply Ht. by right. }
  clear -Ht. induction t as [|c r IH]; [done|]. cbn.
  rewrite (proj1 (proj2 (norm_stable_spec c (Ht c ltac:(by left))))). cbn. f_equal.
  apply IH. intros x Hx. apply Ht. by right.
Qed.

Lemma stable_filter : filter (fun ch => negb (is_combining ch)) t = t.
Proof.
  clear -Ht. induction t as [|c r IH]; [done|].
  rewrite filter_cons_True.
  - f_equal. apply IH. intros x Hx. apply Ht. by right.
  - unfold is_combining. rewrite (proj1 (proj2 (norm_stable_spec c (Ht c ltac:(by left))))).
    done.
Qed.

Lemma stable_lower : forall before, lower_aux before t = t.
Proof.
  clear -Ht. induction t as [|c r IH]; intros before; [done|]. cbn.
  destruct (norm_stable_spec c (Ht c ltac:(by left))) as (_ & _ & Hl & Hs).
  replace (c =? 931) with false by (symmetry; by apply N.eqb_neq).
  rewrite Hl, IH; [done|]. intros x Hx. apply Ht. by right.
Qed.

End StableText.

(** C8: text normalization is idempotent: [_normalize_text (_normalize_text s)
    = _normalize_text s].  The hypotheses are facts of the Unicode database:
    every character of [s] decomposes into starters whose lowercase forms are
    left alone by the normalization ([norm_closed]), and so are U+03C2, U+03C3
    and the space, which is whitespace.  Python's [unicodedata] satisfies them
    for every code point. *)
Theorem normalize_idempotent `{db : UnicodeDB} (s : ustr)
    (Hs : forallb norm_closed s = true)
    (Hsup : forallb norm_stable [962; 963; 32] && u_space 32 = true) :
  _normalize_text (_normalize_text s) = _normalize_text s.
Proof.
  apply andb_true_iff in Hsup as [Hst Hsp]. cbn in Hst.
  apply andb_true_iff in Hst as [H962 Hst]. apply andb_true_iff in Hst as [H963 Hst].
  apply andb_true_iff in Hst as [H32 _].
  set (z := filter (fun ch => negb (is_combining ch)) (nfkd s)).
  set (y := py_strip (py_lower z)).
  assert (_normalize_text s = collapse_ws false y) as Et.
  { unfold _normalize_text. cbn zeta. apply re_sub_ws. }
  rewrite Et.
  set (t := collapse_ws false y).
  assert (forall c, c ∈ t -> norm_stable c = true) as Ht.
  { intros c Hc. destruct (collapse_elem _ _ _ Hc) as [Hy| ->]; [|done].
    apply strip_elem in Hy.
    destruct (lower_elem _ _ _ Hy) as [(c0 & Hz & Hne & Hl)|[->| ->]]; [|done|done].
    apply list_elem_of_filter in Hz as [Hcomb Hn].
    destruct (nfkd_elem _ _ Hn) as (x & Hx & Hd).
    apply list_elem_of_In in Hx. pose proof (proj1 (forallb_forall _ _) Hs x Hx) as Hcl.
    unfold norm_closed in Hcl. apply list_elem_of_In in Hd.
    pose proof (proj1 (forallb_forall _ _) Hcl c0 Hd) as Hc0. cbn beta in Hc0.
    unfold is_combining in Hcomb.
    destruct (u_ccc c0 =? 0); [|done].
    replace (c0 =? 931) with false in Hc0 by (symmetry; by apply N.eqb_neq).
    cbn in Hc0. apply list_elem_of_In in Hl.
    exact (proj1 (forallb_forall _ _) Hc0 c Hl). }
  unfold _normalize_text. cbn zeta.
  rewrite (stable_nfkd t Ht), (stable_filter t Ht). unfold py_lower.
  rewrite (stable_lower t Ht).
  assert (py_strip t = t) as ->.
  { destruct (strip_edges u_space (py_lower z)) as [Hh Hl].
    apply strip_id.
    - apply collapse_head. exact Hh.
    - intros x Hx. destruct (last y) as [x'|] eqn:Hy.
      + pose proof (Hl x' Hy) as Hx'. unfold t in Hx.
        rewrite (collapse_last y false x' Hy Hx') in Hx. congruence.
      + apply last_None in Hy. unfold t in Hx. rewrite Hy in Hx. done. }
  rewrite re_sub_ws. unfold t. apply collapse_idem. done.
Qed.

Lemma normalize_idempotent_witness :
  @_normalize_text table_db (@_normalize_text table_db (u " Quê  quán:	HÀ NỘI ΟΔΟΣ ")) =
  @_normalize_text table_db (u " Quê  quán:	HÀ NỘI ΟΔΟΣ ").
Proof.
  apply (@normalize_idempotent table_db); vm_compute; reflexivity.
Defined.

(** * Further properties of the code *)

Lemma single_spaced_cons2 `{db : UnicodeDB} c d r :
  single_spaced (c :: d :: r) = negb (u_space c && u_space d) && single_spaced (d :: r).
Proof. reflexivity. Qed.

Lemma collapse_single `{db : UnicodeDB} l :
  (∀ b, single_spaced (collapse_ws b l) = true) ∧
  (∀ x, head (collapse_ws true l) = Some x → u_space x = false).
Proof.
  induction l as [|c r [IH1 IH2]]; [split; [done|intros x Hx; done]|].
  cbn [collapse_ws]. destruct (u_space c) eqn:Ec; split.
  - intros [|]; [apply IH1|]. specialize (IH1 true). specialize (IH2).
    destruct (collapse_ws true r) as [|d r'] eqn:E; [done|].
    rewrite single_spaced_cons2, (IH2 d eq_refl), andb_false_r. cbn. exact IH1.
  - exact IH2.
  - intros b. specialize (IH1 false). destruct (collapse_ws false r) as [|d r']; [done|].
    rewrite single_spaced_cons2, Ec. cbn. exact IH1.
  - cbn. intros x Hx. by injection Hx as <-.
Qed.

Lemma collapse_space_32 `{db : UnicodeDB} l : ∀ b x,
  x ∈ collapse_ws b l → u_space x = true → x = 32.
Proof.
  induction l as [|c r IH]; intros b x Hx Hs; cbn in Hx; [by apply elem_of_nil in Hx|].
  destruct (u_space c) eqn:Ec; [destruct b|].
  - by apply (IH true).
  - apply elem_of_cons in Hx as [->|Hx]; [done|]. by apply (IH true).
  - apply elem_of_cons in Hx as [->|Hx]; [congruence|]. by apply (IH false).
Qed.

Lemma single_spaced_app_l `{db : UnicodeDB} a m : single_spaced (a ++ m) = true → single_spaced m = true.
Proof.
  induction a as [|c a IH]; [done|]. intros H. apply IH. cbn [app] in H.
  destruct (a ++ m) as [|d r]; [done|]. rewrite single_spaced_cons2 in H. by apply andb_prop in H as [_ H].
Qed.

Lemma single_spaced_app_r `{db : UnicodeDB} m b : single_spaced (m ++ b) = true → single_spaced m = true.
Proof.
  induction m as [|c m IH]; [done|]. intros H. cbn [app] in H.
  destruct m as [|d m']; [done|]. cbn [app] in H |- *. rewrite single_spaced_cons2 in H |- *.
  apply andb_prop in H as [H1 H2]. rewrite H1. cbn. apply IH. exact H2.
Qed.

Lemma lstrip_suffix (p : N -> bool) l : ∃ a, l = a ++ lstrip_by p l.
Proof.
  induction l as [|c r [a IH]]; [by exists []|]. cbn. destruct (p c).
  - exists (c :: a). cbn. by rewrite <- IH.
  - by exists [].
Qed.

Lemma strip_infix (p : N -> bool) l : ∃ a b, l = a ++ strip_by p l ++ b.
Proof.
  unfold strip_by. destruct (lstrip_suffix p l) as [a Ha].
  destruct (lstrip_suffix p (reverse (lstrip_by p l))) as [b Hb].
  exists a, (reverse b). rewrite Ha at 1. f_equal.
  set (m := lstrip_by p l) in *. set (X := lstrip_by p (reverse m)) in *.
  by rewrite <- reverse_app, <- Hb, reverse_involutive.
Qed.

Lemma strip_single `{db : UnicodeDB} (p : N -> bool) l :
  single_spaced l = true → single_spaced (strip_by p l) = true.
Proof.
  destruct (strip_infix p l) as (a & b & E). rewrite E at 1. intros H.
  apply single_spaced_app_l in H. by apply single_spaced_app_r in H.
Qed.

Lemma strip_head_last (p : N -> bool) l : edges_avoid p (strip_by p l).
Proof. intros x [Hx|Hx]; [exact (proj1 (strip_edges p l) x Hx)|exact (proj2 (strip_edges p l) x Hx)]. Qed.

(** X1: [_normalize_text] returns text with no whitespace at either end, no
    two whitespace characters in a row, and the ASCII space as its only
    whitespace character. *)
Theorem normalize_text_spacing `{db : UnicodeDB} (text : ustr) :
  let n := _normalize_text text in
  single_spaced n = true ∧ edges_avoid u_space n ∧ (∀ x, x ∈ n → u_space x = true → x = 32).
Proof.
  cbn zeta. unfold _normalize_text. rewrite re_sub_ws.
  set (t := py_strip _). split_and!.
  - apply collapse_single.
  - assert (edges_avoid u_space t) as Ht by apply strip_head_last.
    intros x [Hx|Hx].
    + apply (collapse_head t); [|done]. intros y Hy. apply Ht. by left.
    + destruct (last t) as [y|] eqn:Hy.
      * pose proof (Ht y (or_intror Hy)) as Hsy.
        rewrite (collapse_last t false y Hy Hsy) in Hx. congruence.
      * apply last_None in Hy. rewrite Hy in Hx. done.
  - intros x Hx Hs. exact (collapse_space_32 t false x Hx Hs).
Qed.

Lemma head_elem (l : ustr) x : head l = Some x → x ∈ l.
Proof. destruct l; cbn; [done|]. intros H; injection H as ->. by left. Qed.

Lemma last_elem (l : ustr) x : last l = Some x → x ∈ l.
Proof.
  intros H. rewrite <- (reverse_involutive l) in H. rewrite last_reverse in H.
  apply elem_of_reverse, head_elem, H.
Qed.

(** The text [_clean_value] returns. *)
Lemma clean_value_shape `{db : UnicodeDB} (value : ustr) :
  let c := _clean_value value in
  single_spaced c = true ∧
  edges_avoid (fun x => bool_decide (x ∈ PUNCT) || u_space x) c ∧
  (∀ x, x ∈ c → u_space x = true → x = 32).
Proof.
  cbn zeta. unfold _clean_value, py_strip_chars. rewrite re_sub_ws.
  set (t := collapse_ws false _).
  assert (∀ x, x ∈ strip_by (fun c => bool_decide (c ∈ PUNCT)) t → u_space x = true → x = 32) as Hsp.
  { intros x Hx Hs. apply strip_elem in Hx. exact (collapse_space_32 _ false x Hx Hs). }
  split; [|split; [intros x Hx|exact Hsp]].
  - apply strip_single. apply (proj1 (collapse_single _)).
  - pose proof (strip_head_last (fun c => bool_decide (c ∈ PUNCT)) t x Hx) as Hp. rewrite Hp. cbn [orb].
    destruct (u_space x) eqn:Hs; [|done].
    assert (x = 32) as -> by (apply Hsp; [destruct Hx as [Hx|Hx]; [by apply head_elem|by apply last_elem]|done]).
    exfalso. apply bool_decide_eq_false_1 in Hp. apply Hp.
    apply (bool_decide_unpack _). vm_compute. exact I.
Qed.

(** X2: [_clean_value] returns text with no whitespace and no character of
    " ;,:.-" at either end, no two whitespace characters in a row, and the
    ASCII space as its only whitespace character. *)
Theorem clean_value_spacing `{db : UnicodeDB} (value : ustr) :
  let c := _clean_value value in
  single_spaced c = true ∧
  edges_avoid (fun x => bool_decide (x ∈ PUNCT) || u_space x) c ∧
  (∀ x, x ∈ c → u_space x = true → x = 32).
Proof. exact (clean_value_shape value). Qed.

Lemma extract_value_loop_clean `{db : UnicodeDB} lines labels nls : ∀ index v,
  extract_value_loop lines labels index nls = inr v → v = [] ∨ ∃ w, v = _clean_value w.
Proof.
  induction nls as [|nl rest IH]; intros index v Hv; cbn [extract_value_loop] in Hv.
  - injection Hv as <-. by left.
  - destruct (existsb _ _); [|by eapply IH].
    unfold py_index in Hv. destruct (lines !! index) as [line|]; cbn [py_bind py_ret] in Hv; [|done].
    destruct (_extract_after_label line labels) as [|a r] eqn:Ea.
    + destruct (S index <? length lines)%nat; [|by eapply IH].
      destruct (lines !! S index) as [nx|]; cbn [py_bind py_ret] in Hv; [|done].
      destruct (_clean_value nx) as [|b r'] eqn:Eb; [by eapply IH|].
      injection Hv as <-. right. by exists nx.
    + unfold py_ret in Hv. right. exists (a :: r). congruence.
Qed.

(** X3: a value [_extract_value_from_lines] returns has no whitespace and no
    character of " ;,:.-" at either end, no two whitespace characters in a
    row, and the ASCII space as its only whitespace character. *)
Theorem extract_value_spacing `{db : UnicodeDB} (lines nls labels : list ustr) (v : ustr) :
  _extract_value_from_lines lines nls labels = inr v →
  single_spaced v = true ∧
  edges_avoid (fun x => bool_decide (x ∈ PUNCT) || u_space x) v ∧
  (∀ x, x ∈ v → u_space x = true → x = 32).
Proof.
  intros Hv. destruct (extract_value_loop_clean _ _ _ _ _ Hv) as [->|[w ->]].
  - split; [done|split; [intros x [Hx|Hx]; done|intros x Hx; by apply elem_of_nil in Hx]].
  - exact (clean_value_shape w).
Qed.

Lemma rfind1_absent ch s : ch ∉ s → py_rfind1 ch s = (-1)%Z.
Proof.
  intros Hs. unfold py_rfind1.
  replace (list_find (fun c => c = ch) (reverse s)) with (@None (nat * N)); [done|].
  symmetry. apply list_find_None, Forall_forall. intros x Hx ->. apply Hs, elem_of_reverse, Hx.
Qed.

Lemma rfind1_ge ch s : (-1 <= py_rfind1 ch s)%Z.
Proof.
  unfold py_rfind1. destruct (list_find _ _) as [[i x]|] eqn:E; [|lia].
  apply list_find_Some in E as (E & _). apply lookup_lt_Some in E. rewrite length_reverse in E. lia.
Qed.

Lemma rfind1_last ch b e : ch ∉ e → py_rfind1 ch (b ++ ch :: e) = Z.of_nat (length b).
Proof.
  intros He. unfold py_rfind1. rewrite reverse_app, reverse_cons, <- app_assoc.
  rewrite list_find_app_r.
  - cbn. rewrite decide_True by done. cbn. rewrite length_app, length_reverse. cbn [length]. lia.
  - apply list_find_None, Forall_forall. intros x Hx ->. apply He, elem_of_reverse, Hx.
Qed.

Lemma splitext_nodot p : 46 ∉ p → splitext p = (p, []).
Proof.
  intros Hp. unfold splitext. rewrite (rfind1_absent 46 p Hp).
  pose proof (rfind1_ge 47 p). destruct (Z.ltb_spec (py_rfind1 47 p) (-1)); [lia|done].
Qed.

Lemma safe_output_name_chars `{db : UnicodeDB} (filename : ustr) :
  forallb u_alnum (u "result") = true →
  safe_output_name filename ≠ [] ∧
  ∀ c, c ∈ safe_output_name filename → u_alnum c || (c =? 45) || (c =? 95) = true.
Proof.
  intros Hr. unfold safe_output_name. destruct (splitext filename) as [base ext].
  set (cleaned := map _ base).
  assert (∀ c, c ∈ cleaned → u_alnum c || (c =? 45) || (c =? 95) = true) as Hc.
  { intros c Hc. apply list_elem_of_fmap in Hc as (ch & -> & _).
    destruct (u_alnum ch || (ch =? 45) || (ch =? 95)) eqn:E; [done|]. cbn.
    by rewrite orb_true_r. }
  destruct cleaned as [|a r] eqn:Ec; cbn [py_or].
  - split; [done|]. intros c Hx. apply forallb_forall with (x := c) in Hr;
      [by rewrite Hr|by apply list_elem_of_In].
  - split; [done|]. exact Hc.
Qed.

(** X4: the name [safe_output_name] returns is never empty, and each of its
    characters is alphanumeric, '-' or '_'. *)
Theorem safe_output_name_charset `{db : UnicodeDB} (filename : ustr) :
  forallb u_alnum (u "result") = true →
  safe_output_name filename ≠ [] ∧
  ∀ c, c ∈ safe_output_name filename → u_alnum c || (c =? 45) || (c =? 95) = true.
Proof. apply safe_output_name_chars. Qed.

(** X5: [safe_output_name] is idempotent when '.' is not alphanumeric. *)
Theorem safe_output_name_idempotent `{db : UnicodeDB} (filename : ustr) :
  forallb u_alnum (u "result") = true → u_alnum 46 = false →
  safe_output_name (safe_output_name filename) = safe_output_name filename.
Proof.
  intros Hr Hd. destruct (safe_output_name_chars filename Hr) as [Hne Hc].
  set (r := safe_output_name filename) in *.
  assert (46 ∉ r) as Hn.
  { intros H. specialize (Hc 46 H). rewrite Hd in Hc. discriminate. }
  unfold safe_output_name at 1. rewrite (splitext_nodot r Hn).
  rewrite (map_ext_in _ id); [rewrite map_id; by destruct r|].
  intros c Hin. apply list_elem_of_In in Hin. by rewrite (Hc c Hin).
Qed.

(** X6: [safe_output_name] drops a final extension: for a non-empty name [b]
    without '.' or '/', and an extension [e] without '.' or '/',
    [b + "." + e] gives the name [b] gives. *)
Theorem safe_output_name_drops_extension `{db : UnicodeDB} (b e : ustr) :
  b ≠ [] → 46 ∉ b → 47 ∉ b → 46 ∉ e → 47 ∉ e →
  safe_output_name (b ++ 46 :: e) = safe_output_name b.
Proof.
  intros Hb Hb1 Hb2 He1 He2. unfold safe_output_name. rewrite (splitext_nodot b Hb1).
  unfold splitext. rewrite (rfind1_last 46 b e He1), rfind1_absent.
  2:{ intros H. apply elem_of_app in H as [H|H]; [done|]. apply elem_of_cons in H as [H|H]; done. }
  destruct b as [|c b']; [done|].
  replace (-1 <? Z.of_nat (length (c :: b')))%Z with true by (symmetry; apply Z.ltb_lt; cbn; lia).
  rewrite Nat2Z.id. replace (Z.to_nat (-1 + 1)) with O by reflexivity. cbn [length].
  cbn [skip_leading_dots]. replace (0 <? S (length b'))%nat with true by reflexivity.
  rewrite bool_decide_true.
  2:{ cbn. intros H. injection H as ->. apply Hb1. by left. }
  replace (S (length b')) with (length (c :: b')) by reflexivity.
  rewrite take_app_length. done.
Qed.

Section ExcelProofs.
Context `{db : UnicodeDB} `{ddb : DigitDB}.

Lemma tkhq_loop_before sm em f t pre rest :
  (∀ cl, cl ∈ pre → App._normalize_text (App.cell_value cl) ≠ sm) →
  App.tkhq_loop sm em f t false (pre ++ rest) = App.tkhq_loop sm em f t false rest.
Proof.
  induction pre as [|cl pre IH]; intros Hpre; [done|]. cbn [app App.tkhq_loop negb].
  rewrite bool_decide_false by (apply Hpre; by left). apply IH. intros c Hc. apply Hpre. by right.
Qed.

Lemma tkhq_loop_range sm em f t mid post :
  (∀ cl, cl ∈ mid → App._normalize_text (App.cell_value cl) ≠ em) →
  (post = [] ∨ ∃ c post', post = c :: post' ∧ App._normalize_text (App.cell_value c) = em) →
  App.tkhq_loop sm em f t true (mid ++ post) = (true, omap (cell_entry f t) mid).
Proof.
  intros Hmid Hpost. induction mid as [|cl mid IH].
  - cbn [app omap]. destruct Hpost as [->|(c & post' & -> & Hc)]; [done|].
    cbn [App.tkhq_loop negb]. by rewrite bool_decide_true.
  - cbn [app App.tkhq_loop negb]. rewrite bool_decide_false by (apply Hmid; by left).
    rewrite IH by (intros c Hc; apply Hmid; by right).
    change (omap (cell_entry f t) (cl :: mid)) with
      (match cell_entry f t cl with Some e => e :: omap (cell_entry f t) mid
                                  | None => omap (cell_entry f t) mid end).
    unfold cell_entry. by destruct (filter _ _).
Qed.

Lemma tkhq_loop_shape sm em f t : ∀ cells b fin es,
  App.tkhq_loop sm em f t b cells = (fin, es) →
  ∀ e, e ∈ es → App.number e ≠ [] ∧ Forall (fun c => u_isdigit c = true) (App.number e) ∧
                App.file e = f ∧ App.sheet e = t.
Proof.
  induction cells as [|cl rest IH]; intros b fin es H e He; cbn [App.tkhq_loop] in H.
  - injection H as <- <-. by apply elem_of_nil in He.
  - destruct b; cbn [negb] in H; [|by eapply IH].
    destruct (bool_decide _); [injection H as <- <-; by apply elem_of_nil in He|].
    destruct (App.tkhq_loop sm em f t true rest) as [fin' es'] eqn:E.
    destruct (filter u_isdigit _) as [|d ds] eqn:Ed; injection H as <- <-; [by eapply IH|].
    apply elem_of_cons in He as [->|He]; [|by eapply IH]. cbn.
    split_and!; [done| |done|done]. rewrite <- Ed. apply Forall_forall.
    intros x Hx. apply list_elem_of_filter in Hx as [Hx _]. by apply Is_true_true.
Qed.

Lemma tkhq_loop_no_start sm em f t cells :
  (∀ cl, cl ∈ cells → App._normalize_text (App.cell_value cl) ≠ sm) →
  App.tkhq_loop sm em f t false cells = (false, []).
Proof.
  intros H. rewrite <- (app_nil_r cells). rewrite tkhq_loop_before by done. done.
Qed.

End ExcelProofs.

(** X7: when no cell of column B normalizes to the start marker,
    [extract_tkhq_numbers_from_excel] raises the "start row not found"
    error for the file. *)
Theorem tkhq_no_start_marker `{db : UnicodeDB} `{ddb : DigitDB} title cells filename :
  (∀ cl, cl ∈ cells → ¬ is_start_cell cl) →
  App.extract_tkhq_numbers_from_excel title cells filename = inl (App.StartNotFound filename).
Proof.
  intros H. unfold App.extract_tkhq_numbers_from_excel. rewrite tkhq_loop_no_start; [done|].
  intros cl Hcl. apply H, Hcl.
Qed.

(** X8: every entry [extract_tkhq_numbers_from_excel] returns carries a
    non-empty number made of [str.isdigit] characters, the file name it was
    given and the title of the worksheet, and the list it returns is not
    empty. *)
Theorem tkhq_entries_digits `{db : UnicodeDB} `{ddb : DigitDB} title cells filename es :
  App.extract_tkhq_numbers_from_excel title cells filename = inr es →
  es ≠ [] ∧
  ∀ e, e ∈ es → App.number e ≠ [] ∧ Forall (fun c => u_isdigit c = true) (App.number e) ∧
                App.file e = filename ∧ App.sheet e = title.
Proof.
  unfold App.extract_tkhq_numbers_from_excel.
  destruct (App.tkhq_loop _ _ _ _ _ _) as [fin es'] eqn:E. intros H.
  destruct fin; cbn [negb] in H; [|done]. destruct es' as [|e0 r]; [done|]. injection H as <-.
  split; [done|]. exact (tkhq_loop_shape _ _ _ _ _ _ _ _ E).
Qed.

(** X9: [extract_tkhq_numbers_from_excel] reads the cells after the first
    start-marker cell up to the first end-marker cell after it (or the last
    row): it returns, in row order, one entry per such cell whose stripped
    text has digits, and raises the "no numbers" error when there is none. *)
Theorem tkhq_reads_range `{db : UnicodeDB} `{ddb : DigitDB} title filename pre start mid post :
  (∀ cl, cl ∈ pre → ¬ is_start_cell cl) → is_start_cell start →
  (∀ cl, cl ∈ mid → ¬ is_end_cell cl) →
  (post = [] ∨ ∃ c post', post = c :: post' ∧ is_end_cell c) →
  App.extract_tkhq_numbers_from_excel title (pre ++ start :: mid ++ post) filename =
    match omap (cell_entry filename title) mid with
    | [] => inl (App.NoNumbers filename)
    | es => inr es
    end.
Proof.
  intros Hpre Hs Hmid Hpost. unfold App.extract_tkhq_numbers_from_excel.
  rewrite tkhq_loop_before by exact Hpre. cbn [App.tkhq_loop negb].
  rewrite bool_decide_true by exact Hs. rewrite tkhq_loop_range by done. cbn [negb].
  by destruct (omap _ _).
Qed.

(** ** [extract_text] *)

Lemma odict_get_some k d v : odict_get k d = Some v → (k, v) ∈ d.
Proof.
  induction d as [|[k' v'] r IH]; cbn; [done|]. case_bool_decide as E.
  - intros H. injection H as <-. subst. by left.
  - intros H. right. by apply IH.
Qed.

Lemma odict_get_none k d : odict_get k d = None → k ∉ d.*1.
Proof.
  induction d as [|[k' v'] r IH]; cbn; [intros _ H; by apply elem_of_nil in H|].
  case_bool_decide as E; [done|]. intros H Hk. apply elem_of_cons in Hk as [->|Hk]; [done|].
  by apply IH.
Qed.

Lemma odict_set_elem k v d a b : (a, b) ∈ odict_set k v d → (a = k ∧ b = v) ∨ (a, b) ∈ d.
Proof.
  induction d as [|[k' v'] r IH]; cbn.
  - intros H. apply elem_of_cons in H as [H|H]; [injection H as -> ->; by left|by apply elem_of_nil in H].
  - case_bool_decide as E; intros H; apply elem_of_cons in H as [H|H].
    + injection H as -> ->. by left.
    + right. by right.
    + injection H as -> ->. right. by left.
    + destruct (IH H) as [?|?]; [by left|right; by right].
Qed.

Lemma odict_set_in k v d : (k, v) ∈ odict_set k v d.
Proof.
  induction d as [|[k' v'] r IH]; cbn; [by left|].
  case_bool_decide; [by left|by right].
Qed.

Lemma odict_set_keep k v d a b : (a, b) ∈ d → a ≠ k → (a, b) ∈ odict_set k v d.
Proof.
  induction d as [|[k' v'] r IH]; cbn; intros H Ha; [by apply elem_of_nil in H|].
  apply elem_of_cons in H as [H|H].
  - injection H as -> ->. rewrite bool_decide_false by congruence. by left.
  - case_bool_decide as E; right; [done|by apply IH].
Qed.

Lemma odict_set_nodup k v d : NoDup d.*1 → NoDup (odict_set k v d).*1.
Proof.
  induction d as [|[k' v'] r IH]; cbn; intros H.
  - constructor; [intros Hx; by apply elem_of_nil in Hx|constructor].
  - inversion H as [|? ? Hk Hr]; subst. case_bool_decide as E.
    + subst. by constructor.
    + constructor; [|by apply IH].
      intros Hin. apply list_elem_of_fmap in Hin as ([a b] & Ha & Hin). cbn in Ha. subst a.
      destruct (odict_set_elem _ _ _ _ _ Hin) as [[-> _]|Hin']; [done|].
      apply Hk. apply list_elem_of_fmap. by exists (k', b).
Qed.

Lemma nodup_unique (d : odict) k o1 o2 : NoDup d.*1 → (k, o1) ∈ d → (k, o2) ∈ d → o1 = o2.
Proof.
  induction d as [|[k' v'] r IH]; cbn; intros H H1 H2; [by apply elem_of_nil in H1|].
  inversion H as [|? ? Hk Hr]; subst.
  apply elem_of_cons in H1 as [H1|H1], H2 as [H2|H2].
  - congruence.
  - injection H1 as -> ->. exfalso. apply Hk, list_elem_of_fmap. by exists (k', o2).
  - injection H2 as -> ->. exfalso. apply Hk, list_elem_of_fmap. by exists (k', o1).
  - by apply IH.
Qed.

Section ExtractProofs.
Context `{db : UnicodeDB}.

Lemma merge_item_ok (P : observation -> Prop) d item :
  best_ok P d → (extract_text_keeps item = true → P item) → best_ok P (merge_item d item).
Proof.
  intros [Hnd Hd] Hp. unfold merge_item.
  destruct (extract_text_keeps item) eqn:Ek; cbn [negb]; [|by split].
  assert (best_ok P (odict_set (ocr_key item) item d)) as Hset.
  { split; [by apply odict_set_nodup|]. intros k o Hin.
    destruct (odict_set_elem _ _ _ _ _ Hin) as [[-> ->]|Hin']; [split_and!; auto|by apply Hd]. }
  fold (ocr_key item).
  destruct (odict_get _ d) as [ex|]; [|exact Hset]. destruct (Qlt_bool _ _); [exact Hset|by split].
Qed.

Lemma Qlt_bool_false a b : Qlt_bool a b = false → (b <= a)%Q.
Proof. unfold Qlt_bool. intros H. apply Qle_bool_iff. by destruct (Qle_bool b a). Qed.

Lemma Qlt_bool_true a b : Qlt_bool a b = true → (a < b)%Q.
Proof.
  unfold Qlt_bool. intros H. apply Qnot_le_lt. intros Hle. apply Qle_bool_iff in Hle.
  by rewrite Hle in H.
Qed.

Lemma merge_item_dom d item : NoDup d.*1 → dominated d (merge_item d item).
Proof.
  intros Hnd k o Hin. unfold merge_item.
  destruct (extract_text_keeps item); cbn [negb]; [|exists o; split; [done|apply Qle_refl]].
  destruct (odict_get _ d) as [ex|] eqn:Eg.
  - destruct (Qlt_bool (obs_conf ex) (obs_conf item)) eqn:Elt; [|exists o; split; [done|apply Qle_refl]].
    destruct (decide (k = _normalize_text (py_strip (obs_text item)))) as [->|Hk].
    + apply odict_get_some in Eg. rewrite (nodup_unique d _ o ex Hnd Hin Eg).
      exists item. split; [apply odict_set_in|]. apply Qlt_le_weak, Qlt_bool_true, Elt.
    + exists o. split; [by apply odict_set_keep|apply Qle_refl].
  - exists o. split; [|apply Qle_refl]. apply odict_set_keep; [done|].
    intros Hk. apply (odict_get_none _ _ Eg), list_elem_of_fmap. exists (k, o). split; [|done].
    cbn. by rewrite Hk.
Qed.

Lemma merge_item_new d item : extract_text_keeps item = true →
  ∃ o', (ocr_key item, o') ∈ merge_item d item ∧ (obs_conf item <= obs_conf o')%Q.
Proof.
  intros Ek. unfold merge_item. rewrite Ek. cbn [negb]. fold (ocr_key item).
  destruct (odict_get _ d) as [ex|] eqn:Eg.
  - destruct (Qlt_bool (obs_conf ex) (obs_conf item)) eqn:Elt.
    + exists item. split; [apply odict_set_in|apply Qle_refl].
    + exists ex. split; [by apply odict_get_some|by apply Qlt_bool_false].
  - exists item. split; [apply odict_set_in|apply Qle_refl].
Qed.

Lemma dominated_refl d : dominated d d.
Proof. intros k o Hin. exists o. split; [done|apply Qle_refl]. Qed.

Lemma dominated_trans d1 d2 d3 : dominated d1 d2 → dominated d2 d3 → dominated d1 d3.
Proof.
  intros H12 H23 k o Hin. destruct (H12 k o Hin) as (o2 & Hin2 & Hle2).
  destruct (H23 k o2 Hin2) as (o3 & Hin3 & Hle3). exists o3. split; [done|]. by apply Qle_trans with (obs_conf o2).
Qed.

Lemma merge_fold_ok P d items :
  best_ok P d → (∀ it, it ∈ items → extract_text_keeps it = true → P it) →
  best_ok P (foldl merge_item d items).
Proof.
  revert d. induction items as [|it r IH]; intros d Hd Hit; [done|]. cbn [foldl].
  apply IH.
  - apply merge_item_ok; [done|]. intros Hk. apply Hit; [by left|done].
  - intros it' Hin Hk. apply Hit; [by right|done].
Qed.

Lemma merge_item_nodup d item : NoDup d.*1 → NoDup (merge_item d item).*1.
Proof.
  intros Hnd. unfold merge_item. destruct (extract_text_keeps item); cbn [negb]; [|done].
  destruct (odict_get _ d); [destruct (Qlt_bool _ _)|]; try apply odict_set_nodup; done.
Qed.

Lemma merge_fold_nodup d items : NoDup d.*1 → NoDup (foldl merge_item d items).*1.
Proof.
  revert d. induction items as [|it r IH]; intros d Hd; cbn [foldl]; [done|].
  apply IH, merge_item_nodup, Hd.
Qed.

Lemma merge_fold_dom d items : NoDup d.*1 → dominated d (foldl merge_item d items).
Proof.
  revert d. induction items as [|it r IH]; intros d Hd; cbn [foldl]; [apply dominated_refl|].
  apply dominated_trans with (merge_item d it); [by apply merge_item_dom|].
  apply IH, merge_item_nodup, Hd.
Qed.

Lemma merge_fold_new d items it : NoDup d.*1 → it ∈ items → extract_text_keeps it = true →
  ∃ o', (ocr_key it, o') ∈ foldl merge_item d items ∧ (obs_conf it <= obs_conf o')%Q.
Proof.
  revert d. induction items as [|x r IH]; intros d Hd Hin Hk; [by apply elem_of_nil in Hin|].
  cbn [foldl]. apply elem_of_cons in Hin as [<-|Hin].
  - destruct (merge_item_new d it Hk) as (o1 & Hin1 & Hle1).
    destruct (merge_fold_dom (merge_item d it) r (merge_item_nodup _ _ Hd) _ _ Hin1) as (o2 & Hin2 & Hle2).
    exists o2. split; [done|]. by apply Qle_trans with (obs_conf o1).
  - apply IH; [by apply merge_item_nodup|done|done].
Qed.

Section Variants.
Context {V : Type} (readtext : V -> list observation).

Lemma merge_variants_unfold variants :
  merge_variants readtext variants = foldl (variant_step readtext) [] variants.
Proof. reflexivity. Qed.

Lemma variants_ok (P : observation → Prop) d variants :
  best_ok P d →
  (∀ v it, Some v ∈ variants → it ∈ readtext v → extract_text_keeps it = true → P it) →
  best_ok P (foldl (variant_step readtext) d variants).
Proof.
  revert d. induction variants as [|[v|] r IH]; intros d Hd Hv; cbn [foldl]; [done| |].
  - apply IH; [|intros w it Hw; apply (Hv w); by right].
    apply merge_fold_ok; [done|]. intros it Hit. apply (Hv v); [by left|done].
  - apply IH; [done|]. intros w it Hw. apply (Hv w). by right.
Qed.

Lemma variants_nodup d variants : NoDup d.*1 → NoDup (foldl (variant_step readtext) d variants).*1.
Proof.
  revert d. induction variants as [|[v|] r IH]; intros d Hd; cbn [foldl]; [done| |];
    apply IH; [by apply merge_fold_nodup|done].
Qed.

Lemma variants_dom d variants : NoDup d.*1 → dominated d (foldl (variant_step readtext) d variants).
Proof.
  revert d. induction variants as [|[v|] r IH]; intros d Hd; cbn [foldl]; [apply dominated_refl| |by apply IH].
  apply dominated_trans with (foldl merge_item d (readtext v)); [by apply merge_fold_dom|].
  apply IH, merge_fold_nodup, Hd.
Qed.

Lemma variants_new d variants v it : NoDup d.*1 → Some v ∈ variants → it ∈ readtext v →
  extract_text_keeps it = true →
  ∃ o', (ocr_key it, o') ∈ foldl (variant_step readtext) d variants ∧ (obs_conf it <= obs_conf o')%Q.
Proof.
  revert d. induction variants as [|w r IH]; intros d Hd Hv Hit Hk; [by apply elem_of_nil in Hv|].
  cbn [foldl]. apply elem_of_cons in Hv as [<-|Hv].
  - destruct (merge_fold_new d (readtext v) it Hd Hit Hk) as (o1 & Hin1 & Hle1).
    destruct (variants_dom _ r (merge_fold_nodup _ _ Hd) _ _ Hin1) as (o2 & Hin2 & Hle2).
    exists o2. split; [done|]. by apply Qle_trans with (obs_conf o1).
  - apply IH; [|done..]. destruct w; [by apply merge_fold_nodup|done].
Qed.

End Variants.

(** Sorting. *)
Lemma Qeq_bool_sym a b : Qeq_bool a b = Qeq_bool b a.
Proof.
  destruct (Qeq_bool a b) eqn:E1, (Qeq_bool b a) eqn:E2; try done.
  - apply Qeq_bool_iff in E1. apply Qeq_sym, Qeq_bool_iff in E1. congruence.
  - apply Qeq_bool_iff in E2. apply Qeq_sym, Qeq_bool_iff in E2. congruence.
Qed.

Lemma Qlt_bool_asym a b : Qlt_bool a b = true → Qlt_bool b a = false.
Proof.
  intros H. apply Qlt_bool_true in H. unfold Qlt_bool. apply negb_false_iff, Qle_bool_iff.
  by apply Qlt_le_weak.
Qed.

Lemma order_lt_asym a b : order_lt a b = true → order_lt b a = false.
Proof.
  unfold order_lt. rewrite (Qeq_bool_sym b.1 a.1).
  destruct (Qeq_bool a.1 b.1); apply Qlt_bool_asym.
Qed.

Lemma insert_by_key_perm x l : insert_by_key x l ≡ₚ x :: l.
Proof.
  induction l as [|y r IH]; cbn; [done|]. destruct (order_lt x.1 y.1); [done|].
  rewrite IH. apply perm_swap.
Qed.

Lemma sort_by_key_perm l : sort_by_key l ≡ₚ l.
Proof.
  unfold sort_by_key. assert (∀ acc, foldl (fun acc x => insert_by_key x acc) acc l ≡ₚ l ++ acc) as H.
  { induction l as [|x r IH]; intros acc; cbn; [done|]. rewrite IH, insert_by_key_perm.
    by rewrite Permutation_middle. }
  rewrite H. by rewrite app_nil_r.
Qed.

Lemma insert_by_key_hd y x l : HdRel key_le y l → key_le y x → HdRel key_le y (insert_by_key x l).
Proof.
  destruct l as [|z r]; cbn; intros H Hx; [by constructor|].
  destruct (order_lt x.1 z.1); constructor; [done|by inversion H].
Qed.

Lemma insert_by_key_sorted x l : Sorted key_le l → Sorted key_le (insert_by_key x l).
Proof.
  induction l as [|y r IH]; cbn; intros H; [by repeat constructor|].
  destruct (order_lt x.1 y.1) eqn:E.
  - constructor; [done|]. constructor. unfold key_le. by apply order_lt_asym.
  - inversion H as [|? ? Hr Hhd]; subst. constructor; [by apply IH|].
    apply insert_by_key_hd; [done|]. exact E.
Qed.

Lemma sort_by_key_sorted l : Sorted key_le (sort_by_key l).
Proof.
  unfold sort_by_key. assert (∀ acc, Sorted key_le acc → Sorted key_le (foldl (fun acc x => insert_by_key x acc) acc l)) as H.
  { induction l as [|x r IH]; intros acc Hacc; cbn; [done|]. apply IH, insert_by_key_sorted, Hacc. }
  apply H. constructor.
Qed.

Lemma sorted_keys_map (l : list ((Q * Q) * observation)) :
  (∀ p, p ∈ l → reading_order_key p.2 = Some p.1) → Sorted key_le l → Sorted reading_ordered (map snd l).
Proof.
  intros Hk Hs. induction Hs as [|p r Hr IH Hhd]; cbn; constructor.
  - apply IH. intros q Hq. apply Hk. by right.
  - destruct Hhd as [|q r' Hpq]; cbn; constructor. unfold reading_ordered.
    rewrite (Hk p ltac:(by left)), (Hk q ltac:(by right; left)). exact Hpq.
Qed.

Lemma mapM_keyed (merged : list observation) keyed :
  mapM (fun item => (fun k => (k, item)) <$> reading_order_key item) merged = Some keyed →
  map snd keyed = merged ∧ ∀ p, p ∈ keyed → reading_order_key p.2 = Some p.1.
Proof.
  intros H. apply mapM_Some_1 in H. induction H as [|it p merged' keyed' Hp Hf IH].
  { split; [done|intros p Hp; by apply elem_of_nil in Hp]. }
  destruct IH as [IH1 IH2]. destruct (reading_order_key it) as [k|] eqn:Ek; [|discriminate].
  cbn in Hp. injection Hp as <-. split; [cbn; by rewrite IH1|].
  intros q Hq. apply elem_of_cons in Hq as [->|Hq]; [done|by apply IH2].
Qed.

End ExtractProofs.

Section ExtractTheorems.
Context `{db : UnicodeDB} {V : Type} (readtext : V -> list observation).

Lemma extract_text_out (img : ocr_image V) out :
  extract_text readtext img = Some out →
  ∃ keyed, out = map snd (sort_by_key keyed) ∧
           map snd keyed = map snd (merge_variants readtext (image_variants img)) ∧
           ∀ p, p ∈ keyed → reading_order_key p.2 = Some p.1.
Proof.
  unfold extract_text. destruct (mapM _ _) as [keyed|] eqn:E; cbn; [|done].
  intros H. injection H as <-. exists keyed. split; [done|]. by apply mapM_keyed.
Qed.

Lemma extract_text_perm (img : ocr_image V) out :
  extract_text readtext img = Some out → out ≡ₚ map snd (merge_variants readtext (image_variants img)).
Proof.
  intros H. destruct (extract_text_out img out H) as (keyed & -> & Hm & _).
  rewrite <- Hm. apply Permutation_map, sort_by_key_perm.
Qed.

Lemma best_keys (P : observation → Prop) d : best_ok P d → map ocr_key (map snd d) = d.*1.
Proof.
  intros [_ Hd]. induction d as [|[k o] r IH]; [done|]. cbn.
  rewrite IH; [|intros k' o' Hin; apply Hd; by right]. f_equal. symmetry. apply (Hd k o). by left.
Qed.

Lemma merged_ok (P : observation → Prop) (img : ocr_image V) :
  (∀ v it, Some v ∈ image_variants img → it ∈ readtext v → extract_text_keeps it = true → P it) →
  best_ok P (merge_variants readtext (image_variants img)).
Proof.
  intros H. rewrite merge_variants_unfold. apply variants_ok; [|done].
  split; [constructor|]. intros k o Hin. by apply elem_of_nil in Hin.
Qed.

Lemma reading_order_key_some (o : observation) : obs_bbox o ≠ [] → is_Some (reading_order_key o).
Proof.
  unfold reading_order_key. destruct (obs_bbox o) as [|p ps]; [done|]. intros _. cbn. by eexists.
Qed.

End ExtractTheorems.

(** X10: the items [extract_text] returns have distinct normalized texts, and
    each is an item one of the image variants gave, whose stripped text is
    not empty and whose confidence is not below 0.2. *)
Theorem extract_text_items `{db : UnicodeDB} {V : Type} (readtext : V -> list observation)
    (img : ocr_image V) (out : list observation) :
  extract_text readtext img = Some out →
  NoDup (map ocr_key out) ∧
  ∀ o, o ∈ out → extract_text_keeps o = true ∧
                 ∃ v, Some v ∈ image_variants img ∧ o ∈ readtext v.
Proof.
  intros H. pose proof (extract_text_perm readtext img out H) as Hp.
  set (P := fun o => ∃ v, Some v ∈ image_variants img ∧ o ∈ readtext v).
  assert (best_ok P (merge_variants readtext (image_variants img))) as Hok.
  { apply merged_ok. intros v it Hv Hit _. by exists v. }
  split.
  - rewrite Hp, (best_keys P _ Hok). apply Hok.
  - intros o Ho. rewrite Hp in Ho. apply list_elem_of_fmap in Ho as ([k o'] & -> & Hin).
    destruct Hok as [_ Hok]. destruct (Hok k o' Hin) as (_ & Hk & HP). split; [done|exact HP].
Qed.

(** X11: the items [extract_text] returns are in reading order: each has a
    box, and the (top, left) key of an item is never smaller than that of
    the item before it. *)
Theorem extract_text_sorted `{db : UnicodeDB} {V : Type} (readtext : V -> list observation)
    (img : ocr_image V) (out : list observation) :
  extract_text readtext img = Some out → Sorted reading_ordered out.
Proof.
  intros H. destruct (extract_text_out readtext img out H) as (keyed & -> & _ & Hk).
  apply sorted_keys_map; [|apply sort_by_key_sorted].
  intros p Hp. apply Hk. rewrite <- (sort_by_key_perm keyed). exact Hp.
Qed.

(** X12: for every item an image variant gives that passes the filter,
    [extract_text] returns an item with the same normalized text and a
    confidence at least as high. *)
Theorem extract_text_keeps_best `{db : UnicodeDB} {V : Type} (readtext : V -> list observation)
    (img : ocr_image V) (out : list observation) (v : V) (it : observation) :
  extract_text readtext img = Some out →
  Some v ∈ image_variants img → it ∈ readtext v → extract_text_keeps it = true →
  ∃ o, o ∈ out ∧ ocr_key o = ocr_key it ∧ (obs_conf it <= obs_conf o)%Q.
Proof.
  intros H Hv Hit Hk. pose proof (extract_text_perm readtext img out H) as Hp.
  pose proof (merged_ok readtext (fun _ => True) img ltac:(done)) as [Hnd Hok].
  rewrite merge_variants_unfold in Hnd, Hok.
  destruct (variants_new readtext [] (image_variants img) v it ltac:(constructor) Hv Hit Hk)
    as (o & Hin & Hle).
  exists o. split_and!; [|by destruct (Hok _ _ Hin)|done].
  rewrite Hp, merge_variants_unfold. apply list_elem_of_fmap. by exists (ocr_key it, o).
Qed.

(** X13: [extract_text] raises nothing when every item that passes the
    filter has a non-empty box. *)
Theorem extract_text_no_error `{db : UnicodeDB} {V : Type} (readtext : V -> list observation)
    (img : ocr_image V) :
  (∀ v it, Some v ∈ image_variants img → it ∈ readtext v → extract_text_keeps it = true →
           obs_bbox it ≠ []) →
  is_Some (extract_text readtext img).
Proof.
  intros H. pose proof (merged_ok readtext (fun o => obs_bbox o ≠ []) img H) as [_ Hok].
  unfold extract_text.
  destruct (mapM_is_Some_2 (fun item => (fun k => (k, item)) <$> reading_order_key item)
              (map snd (merge_variants readtext (image_variants img)))) as [keyed Hkeyed].
  - apply Forall_forall. intros o Ho. apply list_elem_of_fmap in Ho as ([k o'] & -> & Hin).
    destruct (Hok k o' Hin) as (_ & _ & Hb). cbn.
    destruct (reading_order_key_some o' Hb) as [key Hkey]. rewrite Hkey. by eexists.
  - rewrite Hkeyed. cbn. by eexists.
Qed.

(** ** Digits *)

Lemma nondigit_match_at `{db : UnicodeDB} s i :
  match_at false s re_nondigit i =
  match s !! i with
  | Some c => if is_decimal c then None else Some (S i, [])
  | None => None
  end.
Proof.
  unfold match_at, re_nondigit, rncls. cbn [mt].
  destruct (s !! i) as [c|]; [|done]. unfold class_matches, item_matches. cbn.
  by destruct (is_decimal c).
Qed.

Lemma nondigit_search_none `{db : UnicodeDB} s fuel : ∀ i,
  (∀ x, x ∈ drop i s → is_decimal x = true) → search_aux false s re_nondigit fuel i = None.
Proof.
  induction fuel as [|f IH]; intros i Hi; [done|]. cbn [search_aux].
  rewrite nondigit_match_at.
  destruct (drop_lookup_cases s i) as [[E D]|(c & E & D)]; rewrite E.
  - apply IH. intros x Hx. rewrite drop_ge in Hx; [by apply elem_of_nil in Hx|].
    apply lookup_ge_None in E. lia.
  - rewrite D in Hi. rewrite (Hi c ltac:(by left)). apply IH.
    intros x Hx. apply Hi. by right.
Qed.

Lemma nondigit_search_some `{db : UnicodeDB} s p c rest : ∀ fuel i,
  drop i s = p ++ c :: rest → (∀ x, x ∈ p → is_decimal x = true) → is_decimal c = false →
  (length p < fuel)%nat →
  search_aux false s re_nondigit fuel i = Some ((i + length p)%nat, S (i + length p), []).
Proof.
  induction p as [|x p IH]; intros fuel i D Hp Hc Hf; (destruct fuel as [|f]; [cbn in Hf; lia|]);
    cbn [search_aux]; rewrite nondigit_match_at.
  - destruct (drop_lookup_cases s i) as [[E D']|(c' & E & D')]; rewrite D' in D; [done|].
    injection D as <- <-. rewrite E, Hc. cbn [length]. span_eq.
  - destruct (drop_lookup_cases s i) as [[E D']|(c' & E & D')]; rewrite D' in D; [done|].
    injection D as <- D. rewrite E, (Hp c' ltac:(by left)).
    rewrite (IH f (S i) D); [cbn [length]; span_eq| |done|cbn in Hf; lia].
    intros y Hy. apply Hp. by right.
Qed.

Lemma first_nondigit_split `{db : UnicodeDB} (l : ustr) :
  (∀ x, x ∈ l → is_decimal x = true) ∨
  ∃ p c rest, l = p ++ c :: rest ∧ (∀ x, x ∈ p → is_decimal x = true) ∧ is_decimal c = false.
Proof.
  induction l as [|x l IH].
  - left. intros x Hx. by apply elem_of_nil in Hx.
  - destruct (is_decimal x) eqn:Ex.
    + destruct IH as [IH|(p & c & rest & -> & Hp & Hc)].
      * left. intros y Hy. apply elem_of_cons in Hy as [->|Hy]; auto.
      * right. exists (x :: p), c, rest. split_and!; [done| |done].
        intros y Hy. apply elem_of_cons in Hy as [->|Hy]; auto.
    + right. exists [], x, l. split_and!; [done| |done]. intros y Hy. by apply elem_of_nil in Hy.
Qed.

Lemma filter_decimal_all `{db : UnicodeDB} (l : ustr) :
  (∀ x, x ∈ l → is_decimal x = true) → filter is_decimal l = l.
Proof.
  induction l as [|x r IH]; intros H; [done|].
  rewrite filter_cons_True; [rewrite IH; [done|]|].
  - intros y Hy. apply H. by right.
  - rewrite (H x ltac:(by left)). exact I.
Qed.

Lemma nondigit_sub_aux `{db : UnicodeDB} s n : ∀ f pos,
  (length s - pos <= n)%nat → (length s - pos < f)%nat →
  sub_aux false s re_nondigit [] f None pos = filter is_decimal (drop pos s).
Proof.
  induction n as [|n IH]; intros f pos Hn Hf; (destruct f as [|f]; [lia|]); cbn [sub_aux];
    unfold search_from.
  - rewrite nondigit_search_none; [|intros x Hx; rewrite drop_ge in Hx by lia; by apply elem_of_nil in Hx].
    rewrite drop_ge by lia. done.
  - destruct (first_nondigit_split (drop pos s)) as [Hl|(p & c & rest & D & Hp & Hc)].
    + rewrite nondigit_search_none by done. by rewrite filter_decimal_all.
    + pose proof (f_equal length D) as L. rewrite length_drop, length_app in L. cbn [length] in L.
      rewrite (nondigit_search_some s p c rest _ pos D Hp Hc) by lia.
      replace (S (pos + length p) =? pos + length p)%nat with false
        by (symmetry; apply Nat.eqb_neq; lia).
      rewrite IH by lia. unfold substr.
      replace (pos + length p - pos)%nat with (length p) by lia.
      replace (S (pos + length p)) with (pos + (length p + 1))%nat by lia.
      rewrite <- drop_drop, D, take_app_length, drop_app_add.
      rewrite filter_app, (filter_decimal_all p Hp), filter_cons_False; [done|].
      rewrite Hc. by intros ?.
Qed.

Lemma re_sub_nondigit `{db : UnicodeDB} s : re_sub re_nondigit [] s = filter is_decimal s.
Proof. unfold re_sub, sub. rewrite (nondigit_sub_aux s (length s)) by lia. done. Qed.

Lemma lead_match_at_0 `{db : UnicodeDB} s :
  match_at false s re_lead_nonletters 0 = cls_go lead_items s (S (1 + length s)) 0 0 [].
Proof. reflexivity. Qed.

Lemma lead_match_at_S `{db : UnicodeDB} s i : match_at false s re_lead_nonletters (S i) = None.
Proof. reflexivity. Qed.

Lemma cls_run_le `{db : UnicodeDB} items l : (cls_run items l <= length l)%nat.
Proof. induction l as [|c r IH]; cbn [cls_run length]; [lia|]. destruct (class_matches false false items c); lia. Qed.

Lemma cls_go_run `{db : UnicodeDB} items s f : ∀ cnt j cs,
  (1 <= cnt)%nat → (cls_run items (drop j s) < f)%nat →
  cls_go items s f cnt j cs = Some ((j + cls_run items (drop j s))%nat, cs).
Proof.
  induction f as [|f IH]; intros cnt j cs Hc Hf; [lia|].
  cbn [cls_go]. fold (cls_go items s).
  replace (cnt <? 1)%nat with false by (symmetry; apply Nat.ltb_ge; lia). cbn [hi_allows].
  destruct (drop_lookup_cases s j) as [[E D]|(c & E & D)]; rewrite E; rewrite D in Hf |- *.
  - cbn. unfold accept. f_equal. f_equal. lia.
  - cbn [cls_run] in Hf |- *. destruct (class_matches false false items c).
    + replace (S j =? j)%nat with false by (symmetry; apply Nat.eqb_neq; lia).
      rewrite IH by lia. f_equal. f_equal. lia.
    + unfold accept. f_equal. f_equal. lia.
Qed.

Lemma lead_search_S `{db : UnicodeDB} s fuel i : search_aux false s re_lead_nonletters fuel (S i) = None.
Proof.
  revert i. induction fuel as [|f IH]; intros i; [done|]. cbn [search_aux].
  rewrite lead_match_at_S. apply IH.
Qed.

Lemma sub_aux_none_S `{db : UnicodeDB} s r repl f pos :
  sub_aux false s r repl (S f) None pos =
  match search_from false s r pos with
  | None => drop pos s
  | Some (a, b, _) =>
      substr s pos a ++ repl ++
      (if (b =? a)%nat
       then (if (a <? length s)%nat then substr s a (S a) ++ sub_aux false s r repl f None (S a) else [])
       else sub_aux false s r repl f None b)
  end.
Proof. reflexivity. Qed.

Lemma re_sub_lead `{db : UnicodeDB} s :
  re_sub re_lead_nonletters [] s = drop (cls_run lead_items s) s.
Proof.
  unfold re_sub, sub. rewrite sub_aux_none_S. unfold search_from. rewrite Nat.sub_0_r.
  cbn [search_aux]. rewrite lead_match_at_0, lead_search_S.
  cbn [cls_go Nat.ltb Nat.leb]. fold (cls_go lead_items s).
  destruct s as [|c r]; [done|]. cbn [lookup list_lookup].
  cbn [cls_run]. destruct (class_matches false false lead_items c) eqn:Ec; [|done].
  rewrite cls_go_run; [|lia|].
  2:{ pose proof (cls_run_le lead_items (drop 1 (c :: r))). rewrite length_drop in *. cbn [length] in *. lia. }
  cbn [drop]. replace (S (cls_run lead_items r) =? 0)%nat with false by done.
  rewrite sub_aux_none_S. unfold search_from. rewrite lead_search_S. done.
Qed.

Lemma drop_run_head `{db : UnicodeDB} items l x :
  head (drop (cls_run items l) l) = Some x → class_matches false false items x = false.
Proof.
  induction l as [|c r IH]; cbn [cls_run]; [done|].
  destruct (class_matches false false items c) eqn:E; [exact IH|].
  cbn. intros H. by injection H as <-.
Qed.

Lemma last_drop (l : ustr) k x : last (drop k l) = Some x → last l = Some x.
Proof.
  revert l. induction k as [|k IH]; intros l; [done|].
  destruct l as [|c r]; [done|]. cbn [drop]. intros H. specialize (IH r H).
  destruct r; [done|]. rewrite last_cons. by rewrite IH.
Qed.

Lemma lead_items_false `{db : UnicodeDB} x :
  class_matches false false lead_items x = false →
  u_alnum x = true ∧ is_decimal x = false ∧ x ≠ 95.
Proof.
  unfold class_matches, lead_items. cbn [xorb existsb item_matches char_eq].
  unfold is_word. rewrite (N.eqb_sym 95 x).
  destruct (is_decimal x), (u_alnum x), (N.eqb_spec x 95); cbn; try done.

Qed.

Lemma strip_labels_loop_edges `{db : UnicodeDB} f value nv :
  edges_avoid (fun x => bool_decide (x ∈ PUNCT)) value →
  edges_avoid (fun x => bool_decide (x ∈ PUNCT)) (strip_labels_loop f value nv).
Proof.
  revert value nv. induction f as [|f IH]; intros value nv Hv; cbn [strip_labels_loop]; [done|].
  destruct (is_Some_dec _); [|done].
  destruct (py_strip_chars PUNCT (re_sub1 re_lead_segment [] value)) as [|c r] eqn:E.
  - intros x [Hx|Hx]; done.
  - apply IH. rewrite <- E. apply strip_head_last.
Qed.

Lemma strip_labels_edges `{db : UnicodeDB} value
  (Hp : forallb (fun c => negb (u_alnum c)) PUNCT = true) :
  edges_avoid (fun x => bool_decide (x ∈ PUNCT)) (_strip_known_labels value).
Proof.
  unfold _strip_known_labels. destruct value as [|c r]; [intros x [Hx|Hx]; done|].
  cbv zeta. apply strip_labels_loop_edges.
  rewrite re_sub_lead. set (w := py_strip_chars PUNCT _).
  intros x [Hx|Hx].
  - apply drop_run_head, lead_items_false in Hx as [Ha _].
    apply bool_decide_eq_false_2. intros Hin.
    apply forallb_forall with (x := x) in Hp; [|by apply list_elem_of_In].
    rewrite Ha in Hp. done.
  - apply last_drop in Hx. exact (proj2 (strip_edges _ _) x Hx).
Qed.

Lemma after_sep_edges `{db : UnicodeDB} sep raw
  (Hp : forallb (fun c => negb (u_alnum c)) PUNCT = true) :
  edges_avoid (fun x => bool_decide (x ∈ PUNCT)) (after_sep sep raw).
Proof.
  unfold after_sep. case_bool_decide; [by apply strip_labels_edges|].
  intros x [Hx|Hx]; done.
Qed.

(** X14: [_extract_after_label] returns text whose first and last characters
    are not among " ;,:.-", provided none of these is alphanumeric. *)
Theorem extract_after_label_edges `{db : UnicodeDB} raw_line labels
  (Hp : forallb (fun c => negb (u_alnum c)) PUNCT = true) :
  edges_avoid (fun x => bool_decide (x ∈ PUNCT)) (_extract_after_label raw_line labels).
Proof.
  unfold _extract_after_label. destruct raw_line as [|c r]; [intros x [Hx|Hx]; done|].
  pose proof (after_sep_edges 58 (c :: r) Hp) as H58.
  pose proof (after_sep_edges 45 (c :: r) Hp) as H45.
  pose proof (strip_labels_edges (c :: r) Hp) as Hs.
  destruct (after_sep 58 (c :: r)) as [|a l]; [|exact H58].
  destruct (after_sep 45 (c :: r)) as [|a l]; [|exact H45].
  induction labels as [|lb rest IH]; [intros x [Hx|Hx]; done|].
  destruct (py_in lb _); [|exact IH].
  destruct (_strip_known_labels (c :: r)) as [|a l]; [exact IH|].
  case_bool_decide; [exact Hs|exact IH].
Qed.

(** X15: the segment [_extract_segment_by_labels] returns starts with an
    alphanumeric character that is neither a decimal digit nor '_', and
    does not end with one of " ;,:.-/". *)
Theorem extract_segment_edges `{db : UnicodeDB} raw_line labels stop_labels :
  let seg := _extract_segment_by_labels raw_line labels stop_labels in
  (∀ x, head seg = Some x → u_alnum x = true ∧ is_decimal x = false ∧ x ≠ 95) ∧
  (∀ x, last seg = Some x → x ∉ u " ;,:.-/").
Proof.
  cbv zeta. unfold _extract_segment_by_labels.
  destruct (earliest_label _ _ _) as [[st lb]|]; [|split; intros x Hx; done].
  rewrite re_sub_lead. set (w := py_strip_chars (u " ;,:.-/") _). split; intros x Hx.
  - by apply drop_run_head, lead_items_false in Hx.
  - apply last_drop in Hx. pose proof (proj2 (strip_edges _ _) x Hx) as H.
    by apply bool_decide_eq_false_1 in H.
Qed.

(** X16: [_choose_best_id] returns the empty string only when no candidate
    has exactly 12 decimal digits; otherwise it returns the digits of one of
    the candidates, 12 decimal digits. *)
Theorem choose_best_id_digits `{db : UnicodeDB} cands :
  let r := _choose_best_id cands in
  (r = [] ∧ ∀ c, c ∈ cands → length (filter is_decimal c) ≠ 12%nat) ∨
  (length r = 12%nat ∧ (∀ x, x ∈ r → is_decimal x = true) ∧
   ∃ c, c ∈ cands ∧ r = filter is_decimal c).
Proof.
  cbv zeta. unfold _choose_best_id. cbv zeta.
  assert (Hin : ∀ y, y ∈ id_cleaned cands ↔ length y = 12%nat ∧ ∃ c, y = filter is_decimal c ∧ c ∈ cands).
  { intros y. unfold id_cleaned. rewrite list_elem_of_filter, list_elem_of_fmap.
    setoid_rewrite re_sub_nondigit. done. }
  destruct (id_cleaned cands) as [|x l] eqn:E.
  - left. split; [done|]. intros c Hc H12.
    apply (not_elem_of_nil (filter is_decimal c)). apply Hin. eauto.
  - right. destruct (ranked_first (x :: l)) as (best & n & rest & Hs & Hb & _); [done|].
    rewrite Hs. apply Hin in Hb as (H12 & c & -> & Hc). split_and!; [done| |eauto].
    intros y Hy. apply list_elem_of_filter in Hy as [Hy _]. by apply Is_true_true.
Qed.

Lemma dedupe_loop_ok `{db : UnicodeDB} parts : ∀ seen,
  let out := dedupe_loop seen parts in
  NoDup (map _normalize_text out) ∧
  (∀ p, p ∈ out →
     p ≠ [] ∧ (_normalize_text p ∉ seen) ∧ (_normalize_text p ∉ dedupe_filler) ∧
     edges_avoid (fun x => bool_decide (x ∈ u " .,-")) p ∧
     ∃ part, part ∈ parts ∧ p = py_strip_chars (u " .,-") part).
Proof.
  induction parts as [|part rest IH]; intros seen; cbv zeta; cbn [dedupe_loop].
  { split; [constructor|]. intros p Hp. by apply elem_of_nil in Hp. }
  set (pc := py_strip_chars (u " .,-") part).
  destruct (bool_decide (pc = []) || bool_decide (_normalize_text pc ∈ seen)) eqn:E1.
  { destruct (IH seen) as [Hn Hp]. split; [done|]. intros p Hin.
    destruct (Hp p Hin) as (? & ? & ? & ? & part' & ? & ?). split_and!; try done.
    exists part'. split; [by right|done]. }
  destruct (bool_decide (_normalize_text pc ∈ dedupe_filler)) eqn:E2.
  { destruct (IH seen) as [Hn Hp]. split; [done|]. intros p Hin.
    destruct (Hp p Hin) as (? & ? & ? & ? & part' & ? & ?). split_and!; try done.
    exists part'. split; [by right|done]. }
  apply orb_false_iff in E1 as [E1 E1']. apply bool_decide_eq_false_1 in E1, E1', E2.
  destruct (IH (_normalize_text pc :: seen)) as [Hn Hp].
  split.
  - cbn [map]. constructor; [|done]. intros Hin.
    apply list_elem_of_fmap in Hin as (p & Heq & Hin).
    destruct (Hp p Hin) as (_ & Hns & _). apply Hns. rewrite Heq. by left.
  - intros p Hin. apply elem_of_cons in Hin as [->|Hin].
    + split_and!; [done|done|done|apply strip_head_last|]. exists part. split; [by left|done].
    + destruct (Hp p Hin) as (? & Hns & ? & ? & part' & ? & ?). split_and!; try done.
      * intros Hs. apply Hns. by right.
      * exists part'. split; [by right|done].
Qed.

(** X17: [_dedupe_place_text] joins with ", " parts that are pairwise
    distinct after normalization, none empty, none a filler word ("que",
    "quan", "pho", "thi"), none starting or ending with one of " .,-", each
    a piece of the input split at its runs of ',' and ';', stripped. *)
Theorem dedupe_place_text_parts `{db : UnicodeDB} value :
  ∃ parts, _dedupe_place_text value = py_join (u ", ") parts ∧
    NoDup (map _normalize_text parts) ∧
    ∀ p, p ∈ parts →
      p ≠ [] ∧ (_normalize_text p ∉ dedupe_filler) ∧
      edges_avoid (fun x => bool_decide (x ∈ u " .,-")) p ∧
      ∃ part, part ∈ re_split re_place_sep value ∧ p = py_strip_chars (u " .,-") part.
Proof.
  unfold _dedupe_place_text. destruct value as [|c r].
  - exists []. split; [done|]. split; [constructor|]. intros p Hp. by apply elem_of_nil in Hp.
  - destruct (dedupe_loop_ok (re_split re_place_sep (c :: r)) []) as [Hn Hp].
    eexists. split; [reflexivity|]. split; [done|].
    intros p Hin. destruct (Hp p Hin) as (? & _ & ? & ? & ?). done.
Qed.

(** X18: [_normalize_compact_date] returns the empty string or a date
    "DD/MM/YYYY" in ASCII digits, with day 1-31, month 1-12 and year
    1900-2100. *)
Theorem compact_date_shape `{db : UnicodeDB} raw :
  let r := _normalize_compact_date raw in
  r = [] ∨
  ∃ d m y, 1 <= d <= 31 ∧ 1 <= m <= 12 ∧ 1900 <= y <= 2100 ∧
    r = [48 + d / 10; 48 + d mod 10; 47; 48 + m / 10; 48 + m mod 10; 47;
         48 + y / 1000; 48 + y / 100 mod 10; 48 + y / 10 mod 10; 48 + y mod 10].
Proof.
  cbv zeta. unfold _normalize_compact_date. destruct raw as [|c r]; [by left|].
  destruct (re_search _ _) as [[[? ?] cs]|]; [|by left]. cbv zeta.
  set (d := py_int _). set (m := py_int _). set (y := py_int _).
  destruct ((1 <=? d) && (d <=? 31) && (1 <=? m) && (m <=? 12) && (1900 <=? y) && (y <=? 2100)) eqn:E;
    [|by left].
  right. apply andb_true_iff in E as [E E6]. apply andb_true_iff in E as [E E5].
  apply andb_true_iff in E as [E E4]. apply andb_true_iff in E as [E E3].
  apply andb_true_iff in E as [E1 E2].
  apply N.leb_le in E1, E2, E3, E4, E5, E6.
  exists d, m, y. split_and!; try lia.
  rewrite fmt0_2, fmt0_2, fmt0_4 by lia.
  rewrite !N.Div0.div_div. done.
Qed.

Lemma alias_target_not_alias a k : (a, k) ∈ alias_map → k ∉ alias_map.*1.
Proof.
  intros Hin Hk. destruct alias_map_well_formed as [Hwf _].
  apply list_elem_of_fmap in Hk as ([a' k'] & Heq & Hin'). simpl in Heq. subst.
  eapply Forall_forall in Hin; [|exact Hwf]. eapply Forall_forall in Hin'; [|exact Hwf].
  apply Hin'. apply Hin.
Qed.

(** X19: [apply_template_aliases] accepts any dictionary: it binds each
    alias key to the value of its canonical key, or to the empty string when that key is
    missing, leaves every other key as it was, and applying it twice gives
    what applying it once gives. *)
Theorem apply_template_aliases_total (d : dict) :
  (∀ a k, (a, k) ∈ alias_map → apply_template_aliases d !! a = Some (default [] (d !! k))) ∧
  (∀ x, x ∉ alias_map.*1 → apply_template_aliases d !! x = d !! x) ∧
  apply_template_aliases (apply_template_aliases d) = apply_template_aliases d.
Proof.
  destruct alias_map_well_formed as [Hwf Hnd].
  pose proof (apply_aliases_spec alias_map d Hwf) as [Hother Hal].
  pose proof (apply_aliases_spec alias_map (apply_template_aliases d) Hwf) as [Hother2 Hal2].
  unfold apply_template_aliases in *.
  split; [exact (Hal Hnd)|]. split; [exact Hother|].
  apply map_eq. intros x.
  destruct (decide (x ∈ alias_map.*1)) as [Hx|Hx]; [|by apply Hother2].
  apply list_elem_of_fmap in Hx as ([a k] & -> & Hin). change ((a, k).1) with a.
  rewrite (Hal2 Hnd a k Hin), (Hal Hnd a k Hin), (Hother k (alias_target_not_alias a k Hin)).
  done.
Qed.

Lemma extract_value_loop_total `{db : UnicodeDB} lines labels nls : ∀ index,
  (index + length nls <= length lines)%nat →
  ∃ v, extract_value_loop lines labels index nls = inr v.
Proof.
  induction nls as [|nl rest IH]; intros index Hlen; cbn [extract_value_loop]; [by eexists|].
  cbn [length] in Hlen.
  destruct (existsb _ labels); [|apply IH; lia].
  unfold py_index. destruct (lookup_lt_is_Some_2 lines index) as [line Hl]; [lia|].
  rewrite Hl. cbn [py_bind].
  destruct (_extract_after_label line labels) as [|a l]; [|by eexists].
  destruct (S index <? length lines)%nat eqn:E; [|apply IH; lia].
  apply Nat.ltb_lt in E. destruct (lookup_lt_is_Some_2 lines (S index)) as [nx Hn]; [done|].
  rewrite Hn. cbn [py_bind]. destruct (_clean_value nx) as [|b l]; [apply IH; lia|by eexists].
Qed.

(** X20: [_extract_value_from_lines] raises no [IndexError] when there are
    at least as many lines as normalized lines. *)
Theorem extract_value_no_error `{db : UnicodeDB} lines normalized_lines labels
  (Hlen : (length normalized_lines <= length lines)%nat) :
  ∃ v, _extract_value_from_lines lines normalized_lines labels = inr v.
Proof. apply extract_value_loop_total. lia. Qed.

(** X21: [_strip_known_labels] returns text whose first and last characters
    are not among " ;,:.-", provided none of these is alphanumeric. *)
Theorem strip_known_labels_edges `{db : UnicodeDB} (value : ustr)
  (Hp : forallb (fun c => negb (u_alnum c)) PUNCT = true) :
  edges_avoid (fun x => bool_decide (x ∈ PUNCT)) (_strip_known_labels value).
Proof. exact (strip_labels_edges value Hp). Qed.

Lemma extract_value_spacing_witness :
  @_extract_value_from_lines table_db label_lines_example
     (map (@_normalize_text table_db) label_lines_example) label_list_example = inr (u "Nguyễn Văn A") ∧
  (@single_spaced table_db (u "Nguyễn Văn A") = true ∧
   edges_avoid (fun x => bool_decide (x ∈ PUNCT) || @u_space table_db x) (u "Nguyễn Văn A") ∧
   (∀ x, x ∈ u "Nguyễn Văn A" → @u_space table_db x = true → x = 32)).
Proof.
  split; [vm_compute; reflexivity|].
  apply (@extract_value_spacing table_db label_lines_example
           (map (@_normalize_text table_db) label_lines_example) label_list_example).
  vm_compute. reflexivity.
Defined.

Lemma extract_value_no_error_witness :
  (length (map (@_normalize_text table_db) label_lines_example) <= length label_lines_example)%nat ∧
  ∃ v, @_extract_value_from_lines table_db label_lines_example
         (map (@_normalize_text table_db) label_lines_example) label_list_example = inr v.
Proof.
  split; [vm_compute; lia|].
  apply (@extract_value_no_error table_db). vm_compute. lia.
Defined.

Lemma strip_known_labels_edges_witness :
  forallb (fun c => negb (@u_alnum table_db c)) PUNCT = true ∧
  edges_avoid (fun x => bool_decide (x ∈ PUNCT)) (@_strip_known_labels table_db (u "Họ tên: Nguyễn Văn A.")).
Proof.
  split; [vm_compute; reflexivity|].
  apply (@strip_known_labels_edges table_db). vm_compute. reflexivity.
Defined.

Lemma extract_after_label_edges_witness :
  forallb (fun c => negb (@u_alnum table_db c)) PUNCT = true ∧
  edges_avoid (fun x => bool_decide (x ∈ PUNCT))
    (@_extract_after_label table_db (u "Họ tên: Nguyễn Văn A.") label_list_example).
Proof.
  split; [vm_compute; reflexivity|].
  apply (@extract_after_label_edges table_db). vm_compute. reflexivity.
Defined.

Lemma safe_output_name_charset_witness :
  forallb (@u_alnum table_db) (u "result") = true ∧
  (@safe_output_name table_db (u "ảnh thẻ (1).jpg") ≠ [] ∧
   ∀ c, c ∈ @safe_output_name table_db (u "ảnh thẻ (1).jpg") →
     @u_alnum table_db c || (c =? 45) || (c =? 95) = true).
Proof.
  split; [vm_compute; reflexivity|].
  apply (@safe_output_name_charset table_db). vm_compute. reflexivity.
Defined.

Lemma safe_output_name_idempotent_witness :
  forallb (@u_alnum table_db) (u "result") = true ∧ @u_alnum table_db 46 = false ∧
  @safe_output_name table_db (@safe_output_name table_db (u "ảnh thẻ (1).jpg"))
  = @safe_output_name table_db (u "ảnh thẻ (1).jpg").
Proof.
  split; [vm_compute; reflexivity|]. split; [vm_compute; reflexivity|].
  apply (@safe_output_name_idempotent table_db); vm_compute; reflexivity.
Defined.

Lemma safe_output_name_drops_extension_witness :
  u "photo" ≠ [] ∧ (46 ∉ u "photo") ∧ (47 ∉ u "photo") ∧ (46 ∉ u "jpg") ∧ (47 ∉ u "jpg") ∧
  @safe_output_name table_db (u "photo" ++ 46 :: u "jpg") = @safe_output_name table_db (u "photo").
Proof.
  do 5 (split; [apply (bool_decide_unpack _); vm_compute; exact I|]).
  apply (@safe_output_name_drops_extension table_db);
    apply (bool_decide_unpack _); vm_compute; exact I.
Defined.

Lemma tkhq_no_start_marker_witness :
  (∀ cl, cl ∈ sheet_pre ++ sheet_mid → ¬ @is_start_cell table_db cl) ∧
  @App.extract_tkhq_numbers_from_excel table_db digit_table (u "Sheet1") (sheet_pre ++ sheet_mid) (u "tk.xlsx")
  = inl (App.StartNotFound (u "tk.xlsx")).
Proof.
  assert (∀ cl, cl ∈ sheet_pre ++ sheet_mid → ¬ @is_start_cell table_db cl) as H.
  { apply Forall_forall. unfold is_start_cell, is_end_cell. apply (bool_decide_unpack _). vm_compute. exact I. }
  split; [exact H|]. apply (@tkhq_no_start_marker table_db digit_table). exact H.
Defined.

Lemma tkhq_entries_digits_witness :
  ∃ es, @App.extract_tkhq_numbers_from_excel table_db digit_table (u "Sheet1")
          (sheet_pre ++ sheet_start :: sheet_mid ++ sheet_post) (u "tk.xlsx") = inr es ∧
  (es ≠ [] ∧
   ∀ e, e ∈ es → App.number e ≠ [] ∧ Forall (fun c => @u_isdigit digit_table c = true) (App.number e) ∧
                 App.file e = u "tk.xlsx" ∧ App.sheet e = u "Sheet1").
Proof.
  exists [{| App.number := u "10123"; App.file := u "tk.xlsx"; App.sheet := u "Sheet1"; App.cell := u "B3" |};
          {| App.number := u "305"; App.file := u "tk.xlsx"; App.sheet := u "Sheet1"; App.cell := u "B6" |}].
  split; [vm_compute; reflexivity|].
  apply (@tkhq_entries_digits table_db digit_table (u "Sheet1")
           (sheet_pre ++ sheet_start :: sheet_mid ++ sheet_post) (u "tk.xlsx")).
  vm_compute. reflexivity.
Defined.

Lemma tkhq_reads_range_witness :
  (∀ cl, cl ∈ sheet_pre → ¬ @is_start_cell table_db cl) ∧ @is_start_cell table_db sheet_start ∧
  (∀ cl, cl ∈ sheet_mid → ¬ @is_end_cell table_db cl) ∧
  (sheet_post = [] ∨ ∃ c post', sheet_post = c :: post' ∧ @is_end_cell table_db c) ∧
  @App.extract_tkhq_numbers_from_excel table_db digit_table (u "Sheet1")
     (sheet_pre ++ sheet_start :: sheet_mid ++ sheet_post) (u "tk.xlsx") =
    match omap (@cell_entry table_db digit_table (u "tk.xlsx") (u "Sheet1")) sheet_mid with
    | [] => inl (App.NoNumbers (u "tk.xlsx"))
    | es => inr es
    end.
Proof.
  assert (∀ cl, cl ∈ sheet_pre → ¬ @is_start_cell table_db cl) as H1.
  { apply Forall_forall. unfold is_start_cell, is_end_cell. apply (bool_decide_unpack _). vm_compute. exact I. }
  assert (@is_start_cell table_db sheet_start) as H2 by (vm_compute; reflexivity).
  assert (∀ cl, cl ∈ sheet_mid → ¬ @is_end_cell table_db cl) as H3.
  { apply Forall_forall. unfold is_start_cell, is_end_cell. apply (bool_decide_unpack _). vm_compute. exact I. }
  assert (sheet_post = [] ∨ ∃ c post', sheet_post = c :: post' ∧ @is_end_cell table_db c) as H4.
  { right. eexists _, _. split; [reflexivity|]. vm_compute. reflexivity. }
  split; [exact H1|]. split; [exact H2|]. split; [exact H3|]. split; [exact H4|].
  apply (@tkhq_reads_range table_db digit_table); assumption.
Defined.

Lemma extract_text_items_witness :
  @extract_text table_db nat readtext_example image_example = Some [ocr_item_2; ocr_item_3] ∧
  (NoDup (map (@ocr_key table_db) [ocr_item_2; ocr_item_3]) ∧
   ∀ o, o ∈ [ocr_item_2; ocr_item_3] → @extract_text_keeps table_db o = true ∧
        ∃ v, Some v ∈ image_variants image_example ∧ o ∈ readtext_example v).
Proof.
  split; [vm_compute; reflexivity|].
  apply (@extract_text_items table_db nat readtext_example). vm_compute. reflexivity.
Defined.

Lemma extract_text_sorted_witness :
  @extract_text table_db nat readtext_example image_example = Some [ocr_item_2; ocr_item_3] ∧
  Sorted (@reading_ordered table_db) [ocr_item_2; ocr_item_3].
Proof.
  split; [vm_compute; reflexivity|].
  apply (@extract_text_sorted table_db nat readtext_example image_example). vm_compute. reflexivity.
Defined.

Lemma extract_text_keeps_best_witness :
  @extract_text table_db nat readtext_example image_example = Some [ocr_item_2; ocr_item_3] ∧
  Some O ∈ image_variants image_example ∧ ocr_item_1 ∈ readtext_example O ∧
  @extract_text_keeps table_db ocr_item_1 = true ∧
  ∃ o, o ∈ [ocr_item_2; ocr_item_3] ∧ @ocr_key table_db o = @ocr_key table_db ocr_item_1 ∧
       (obs_conf ocr_item_1 <= obs_conf o)%Q.
Proof.
  assert (Some O ∈ image_variants image_example) as Hv by (cbn; by left).
  assert (ocr_item_1 ∈ readtext_example O) as Hi by (cbn; by left).
  split; [vm_compute; reflexivity|]. split; [exact Hv|]. split; [exact Hi|].
  split; [vm_compute; reflexivity|].
  apply (@extract_text_keeps_best table_db nat readtext_example image_example _ O ocr_item_1);
    [vm_compute; reflexivity|exact Hv|exact Hi|vm_compute; reflexivity].
Defined.

Lemma extract_text_no_error_witness :
  (∀ v it, Some v ∈ image_variants image_example → it ∈ readtext_example v →
           @extract_text_keeps table_db it = true → obs_bbox it ≠ []) ∧
  is_Some (@extract_text table_db nat readtext_example image_example).
Proof.
  assert (∀ v it, Some v ∈ image_variants image_example → it ∈ readtext_example v →
           @extract_text_keeps table_db it = true → obs_bbox it ≠ []) as H.
  { intros v it _ Hit _. destruct v as [|v]; cbn in Hit;
      repeat (apply elem_of_cons in Hit as [->|Hit]; [discriminate|]); by apply elem_of_nil in Hit. }
  split; [exact H|]. apply (@extract_text_no_error table_db nat readtext_example). exact H.
Defined.
